(** * The user-facing tuning API of [tvm.meta_schedule.tune]

    A shallow embedding of [python/tvm/meta_schedule/tune.py]: the [Parse]
    helpers that resolve user inputs, the task deduplication loop of
    [tune_relay], and the drivers [tune_tir], [tune_te] and [tune_relay].

    Python values are dynamically typed, so the inputs of the API live in one
    universe [Value]; exceptions are an explicit result; calls into the
    collaborators (scheduler, database, cost model, user callables, logging)
    are the nodes of a program tree which is run against a handler. *)

From Stdlib Require Import ZArith QArith.
From stdpp Require Import base gmap strings list fin_maps.

Set Warnings "-register-all".

Local Open Scope Z_scope.
Local Open Scope string_scope.
Local Open Scope list_scope.

(** * The model

    ** Programs: PrimFunc and IRModule *)

Inductive AttrVal :=
| AStr (s : string)
| ABool (b : bool).

(** A [PrimFunc] carries a dictionary of attributes; its parameters, buffers
    and body are never inspected by this file and are kept as one opaque
    component. *)
Record PrimFunc := {
  pf_attrs : gmap string AttrVal;
  pf_body : N;
}.

Definition with_attr (f : PrimFunc) (key : string) (v : AttrVal) : PrimFunc :=
  {| pf_attrs := <[key := v]> (pf_attrs f); pf_body := pf_body f |}.

(** An [IRModule] maps the names of its global variables to functions. *)
Abbreviation IRModule := (gmap string PrimFunc).

Definition get_global_vars (m : IRModule) : list string := (map_to_list m).*1.

(** ** Targets *)

Record TargetKind := { name : string }.

Record Target := {
  kind : TargetKind;
  target_options : string;
}.

(** ** Tuning contexts *)

(** Modelled from the spec: the [TuneContext] class is declared in
    [tune_context.py], which is not among the files at hand.  Following the
    data model of the spec it is the bundle of program, target, resolved
    policies, task name and random-state seed, built once and never mutated;
    the fields are the keyword arguments that [Parse._tune_context] passes to
    its constructor.  The record is parametric in the type of the dynamically
    typed components. *)
Record TuneContextOf (V : Type) := {
  tc_mod : IRModule;
  tc_target : Target;
  tc_space_generator : V;
  tc_search_strategy : V;
  tc_sch_rules : V;
  tc_postprocs : V;
  tc_mutator_probs : V;
  tc_task_name : V;
  tc_rand_state : Z;
  tc_num_threads : V;
}.
Arguments tc_mod {V} _.
Arguments tc_target {V} _.
Arguments tc_space_generator {V} _.
Arguments tc_search_strategy {V} _.
Arguments tc_sch_rules {V} _.
Arguments tc_postprocs {V} _.
Arguments tc_mutator_probs {V} _.
Arguments tc_task_name {V} _.
Arguments tc_rand_state {V} _.
Arguments tc_num_threads {V} _.

(** ** Python values *)

(** The class of an object: its method resolution order (own name first) and
    whether instances define [__call__]. *)
Record Class := {
  cls_mro : list string;
  cls_call : bool;
}.

Inductive Value :=
| VNone
| VBool (b : bool)
| VInt (z : Z)
| VFloat (q : Q)
| VStr (s : string)
| VList (l : list Value)
| VTuple (l : list Value)
| VDict (l : list (Value * Value))
| VPrimFunc (f : PrimFunc)
| VIRModule (m : IRModule)
| VTarget (t : Target)
| VTuneContext (c : TuneContextOf Value)
| VObj (cls : Class) (fields : list (string * Value))
| VFunc (id : N).

Abbreviation TuneContext := (TuneContextOf Value).

(** [isinstance(v, C)] for a collaborator class [C], given by name. *)
Definition isinstance (v : Value) (c : string) : bool :=
  match v with
  | VObj cls _ => bool_decide (c ∈ cls_mro cls)
  | _ => false
  end.

(** [callable(v)]: functions, lambdas and classes are [VFunc]; an object is
    callable when its class defines [__call__]. *)
Definition callable (v : Value) : bool :=
  match v with
  | VFunc _ => true
  | VObj cls _ => cls_call cls
  | _ => false
  end.

(** Truth value of an object, as tested by [if not bests]. *)
Definition truthy (v : Value) : bool :=
  match v with
  | VNone => false
  | VBool b => b
  | VInt z => negb (z =? 0)%Z
  | VFloat q => negb (Qeq_bool q 0%Q)
  | VStr s => negb (String.eqb s "")
  | VList l | VTuple l => negb (bool_decide (length l = 0%nat))
  | VDict l => negb (bool_decide (length l = 0%nat))
  | _ => true
  end.

(** ** Exceptions *)

(** A message is the f-string of the source: literal text with interpolated
    values. *)
Inductive Frag :=
| FLit (s : string)
| FVal (v : Value)
| FNat (n : nat).

Inductive Exn :=
| TypeError (msg : list Frag)
| ValueError (msg : list Frag)
| AssertionError (msg : list Frag)
| AttributeError (attr : string)
| KeyError (key : string)
| IndexError
| Raised (v : Value).

Inductive Res (A : Type) :=
| Ok (a : A)
| Err (e : Exn).
Arguments Ok {A} _.
Arguments Err {A} _.

(** ** Task deduplication

    The loop of [tune_relay] between the two log lines.  [structural_hash]
    and [structural_equal] come from [tvm.ir.base]; they are pure functions of
    the two modules and are taken as parameters. *)

Section Deduplication.

Variable structural_hash : IRModule -> Z.
Variable structural_equal : IRModule -> IRModule -> bool.

(** [enumerate(l)] *)
Definition enumerate {A} (l : list A) : list (nat * A) := imap pair l.

(** One iteration of [for i, task in enumerate(tune_contexts)]; the state is
    the pair of the lists [tasks] and [hashs].  The inner [for ... break]
    over the slice [tune_contexts[i + 1 :]] sets [flag] exactly when some
    later context has a structurally equal module. *)
Definition dedup_step (tune_contexts : list TuneContext)
    (st : list TuneContext * list Z) (it : nat * TuneContext)
    : list TuneContext * list Z :=
  let '(tasks, hashs) := st in
  let '(i, task) := it in
  let struct_hash := structural_hash (tc_mod task) in
  let flag :=
    if bool_decide (struct_hash ∈ hashs) then
      existsb (fun other_task => structural_equal (tc_mod task) (tc_mod other_task))
              (drop (i + 1) tune_contexts)
    else false in
  if negb flag then (tasks ++ [task], hashs ++ [struct_hash])
  else (tasks, hashs).

Definition deduplicate (tune_contexts : list TuneContext) : list TuneContext :=
  fst (foldl (dedup_step tune_contexts) ([], []) (enumerate tune_contexts)).

End Deduplication.

(** ** Calls into the collaborators

    Everything [tune.py] asks of the rest of the system is a node [Ext] of a
    program tree: calling a user-supplied callable, constructing an object
    whose constructor does real work, calling a method, or calling a
    module-level function.  The answer is a value or an exception. *)

Inductive ExtCall :=
| ECall (callee : Value) (args : list Value)
| ENew (cls : string) (args : list Value)
| EMethod (recv : Value) (meth : string) (args : list Value)
| EFunc (fn : string) (args : list Value).

Inductive Prog (A : Type) :=
| Ret (a : A)
| Raise (e : Exn)
| Ext (c : ExtCall) (k : Res Value -> Prog A).
Arguments Ret {A} _.
Arguments Raise {A} _.
Arguments Ext {A} _ _.

Fixpoint bind {A B} (p : Prog A) (f : A -> Prog B) : Prog B :=
  match p with
  | Ret a => f a
  | Raise e => Raise e
  | Ext c k => Ext c (fun r => bind (k r) f)
  end.

Declare Scope prog_scope.
Delimit Scope prog_scope with prog.
Notation "x <- p ;; q" := (bind p (fun x => q))
  (at level 100, p at next level, right associativity) : prog_scope.
Notation "p ;; q" := (bind p (fun _ => q))
  (at level 100, right associativity) : prog_scope.
Local Open Scope prog_scope.

(** An external call whose exception propagates. *)
Definition ext (c : ExtCall) : Prog Value :=
  Ext c (fun r => match r with Ok v => Ret v | Err e => Raise e end).

(** A pure step that may raise. *)
Definition lift {A} (r : Res A) : Prog A :=
  match r with Ok a => Ret a | Err e => Raise e end.

(** [try: p finally: fin] *)
Fixpoint try_finally {A} (p : Prog A) (fin : Prog unit) : Prog A :=
  match p with
  | Ret a => fin ;; Ret a
  | Raise e => fin ;; Raise e
  | Ext c k => Ext c (fun r => try_finally (k r) fin)
  end.

(** [with ctx: body] for a context manager that does not swallow exceptions. *)
Definition with_ {A} (ctx : Value) (body : Prog A) : Prog A :=
  ext (EMethod ctx "__enter__" []) ;;
  try_finally body (ext (EMethod ctx "__exit__" []) ;; Ret tt).

(** The collaborators answer a call knowing the calls made so far. *)
Definition Event : Type := ExtCall * Res Value.
Definition Handler : Type := list Event -> ExtCall -> Res Value.

Fixpoint run {A} (h : Handler) (p : Prog A) (tr : list Event) : Res A * list Event :=
  match p with
  | Ret a => (Ok a, tr)
  | Raise e => (Err e, tr)
  | Ext c k => let r := h tr c in run h (k r) (tr ++ [(c, r)])
  end.

Definition logger_info (fmt : string) (args : list Value) : Prog unit :=
  ext (EFunc "logger.info" (VStr fmt :: args)) ;; Ret tt.

(** ** Small pieces of Python *)

Definition is_None (v : Value) : bool :=
  match v with VNone => true | _ => false end.

Definition is_str (v : Value) : bool :=
  match v with VStr _ => true | _ => false end.

(** [getattr(v, attr)] on an object built from keyword fields. *)
Definition getattr (v : Value) (attr : string) : Res Value :=
  match v with
  | VObj _ fields =>
      match list_find (fun kv => kv.1 = attr) fields with
      | Some (_, (_, x)) => Ok x
      | None => Err (AttributeError attr)
      end
  | _ => Err (AttributeError attr)
  end.

(** [len(v)], [v[i]] and the items a [for] loop visits. *)
Definition len (v : Value) : Res nat :=
  match v with
  | VList l | VTuple l => Ok (length l)
  | VDict l => Ok (length l)
  | VStr s => Ok (String.length s)
  | _ => Err (TypeError [FLit "object has no len(): "; FVal v])
  end.

Definition getitem (v : Value) (i : nat) : Res Value :=
  match v with
  | VList l | VTuple l =>
      match l !! i with
      | Some x => Ok x
      | None => Err IndexError
      end
  | _ => Err (TypeError [FLit "object is not subscriptable: "; FVal v])
  end.

Definition iter (v : Value) : Res (list Value) :=
  match v with
  | VList l | VTuple l => Ok l
  | _ => Err (TypeError [FLit "object is not iterable: "; FVal v])
  end.

(** [os.path.join(a, b)] of [posixpath]. *)
Definition os_path_join (a b : string) : string :=
  if String.prefix "/" b then b
  else if String.eqb a "" then b
  else if String.eqb (String.substring (String.length a - 1) 1 a) "/" then a +:+ b
  else a +:+ "/" +:+ b.

(** An object of class [name] deriving from [base], built with keyword
    arguments [fields]. *)
Definition obj (name base : string) (fields : list (string * Value)) : Value :=
  VObj {| cls_mro := [name; base]; cls_call := false |} fields.

(** ** Default tuning configurations *)

Module DefaultLLVM.

Definition _sch_rules : Value :=
  VList [
    obj "AutoInline" "ScheduleRule" [
      ("into_producer", VBool false);
      ("into_consumer", VBool true);
      ("inline_const_tensor", VBool true);
      ("disallow_if_then_else", VBool true);
      ("require_injective", VBool true);
      ("require_ordered", VBool true);
      ("disallow_op", VList [VStr "tir.exp"])];
    obj "AddRFactor" "ScheduleRule" [
      ("max_jobs_per_core", VInt 16);
      ("max_innermost_factor", VInt 64)];
    obj "MultiLevelTiling" "ScheduleRule" [
      ("structure", VStr "SSRSRS");
      ("tile_binds", VNone);
      ("max_innermost_factor", VInt 64);
      ("vector_load_lens", VNone);
      ("reuse_read", VNone);
      ("reuse_write", obj "ReuseType" "object" [
         ("req", VStr "may");
         ("levels", VList [VInt 1; VInt 2]);
         ("scope", VStr "global")])];
    obj "ParallelizeVectorizeUnroll" "ScheduleRule" [
      ("max_jobs_per_core", VInt 16);
      ("max_vectorize_extent", VInt 64);
      ("unroll_max_steps", VList [VInt 0; VInt 16; VInt 64; VInt 512]);
      ("unroll_explicit", VBool true)];
    obj "RandomComputeLocation" "ScheduleRule" []
  ].

Definition _postproc : Value :=
  VList [
    obj "DisallowDynamicLoop" "Postproc" [];
    obj "RewriteParallelVectorizeUnroll" "Postproc" [];
    obj "RewriteReductionBlock" "Postproc" []
  ].

(** Float literals are kept as the decimal fractions written in the source. *)
Definition _mutator_probs : Value :=
  VDict [
    (obj "MutateComputeLocation" "Mutator" [], VFloat (5 # 100));
    (obj "MutateUnroll" "Mutator" [], VFloat (3 # 100))
  ].

End DefaultLLVM.

Module DefaultCUDA.

Definition _sch_rules : Value :=
  VList [
    obj "MultiLevelTiling" "ScheduleRule" [
      ("structure", VStr "SSSRRSRS");
      ("tile_binds", VList [VStr "blockIdx.x"; VStr "vthread.x"; VStr "threadIdx.x"]);
      ("max_innermost_factor", VInt 64);
      ("vector_load_lens", VList [VInt 1; VInt 2; VInt 3; VInt 4]);
      ("reuse_read", obj "ReuseType" "object" [
         ("req", VStr "must");
         ("levels", VList [VInt 4]);
         ("scope", VStr "shared")]);
      ("reuse_write", obj "ReuseType" "object" [
         ("req", VStr "must");
         ("levels", VList [VInt 3]);
         ("scope", VStr "local")])];
    obj "AutoInline" "ScheduleRule" [
      ("into_producer", VBool true);
      ("into_consumer", VBool true);
      ("inline_const_tensor", VBool true);
      ("disallow_if_then_else", VBool false);
      ("require_injective", VBool false);
      ("require_ordered", VBool false);
      ("disallow_op", VNone)];
    obj "CrossThreadReduction" "ScheduleRule" [
      ("thread_extents",
       VList [VInt 4; VInt 8; VInt 16; VInt 32; VInt 64; VInt 128; VInt 256; VInt 512])];
    obj "ParallelizeVectorizeUnroll" "ScheduleRule" [
      ("max_jobs_per_core", VInt (-1));
      ("max_vectorize_extent", VInt (-1));
      ("unroll_max_steps", VList [VInt 0; VInt 16; VInt 64; VInt 512; VInt 1024]);
      ("unroll_explicit", VBool true)]
  ].

Definition _postproc : Value :=
  VList [
    obj "DisallowDynamicLoop" "Postproc" [];
    obj "RewriteUnboundBlock" "Postproc" [];
    obj "RewriteParallelVectorizeUnroll" "Postproc" [];
    obj "RewriteReductionBlock" "Postproc" [];
    obj "VerifyGPUCode" "Postproc" []
  ].

Definition _mutator_probs : Value :=
  VDict [
    (obj "MutateUnroll" "Mutator" [], VFloat (1 # 10))
  ].

End DefaultCUDA.

(** ** Parsing the tuning configuration from user inputs *)

Module Parse.

Definition _mod (mod_ : Value) : Res IRModule :=
  let mod_ :=
    match mod_ with
    | VPrimFunc f =>
        let f := with_attr f "global_symbol" (AStr "main") in
        let f := with_attr f "tir.noalias" (ABool true) in
        VIRModule {["main" := f]}
    | _ => mod_
    end in
  match mod_ with
  | VIRModule m =>
      let func_names := get_global_vars m in
      (* (func_name,) = func_names *)
      match func_names with
      | [] => Err (ValueError [FLit "not enough values to unpack (expected 1, got 0)"])
      | [func_name] =>
          if bool_decide (length func_names = 1%nat) && negb (String.eqb func_name "main")
          then
            match m !! func_name with
            | Some f => Ok {["main" := f]}
            | None => Err (KeyError func_name)
            end
          else Ok m
      | _ :: _ :: _ => Err (ValueError [FLit "too many values to unpack (expected 1)"])
      end
  | _ =>
      Err (TypeError [FLit "Expected `mod` to be PrimFunc or IRModule, but gets: ";
                      FVal mod_])
  end.

Definition _target (target : Value) : Prog Target :=
  target <- (if is_str target then ext (ENew "Target" [target]) else Ret target) ;;
  match target with
  | VTarget t => Ret t
  | _ =>
      Raise (TypeError [FLit "Expected `target` to be str or Target, but gets: ";
                        FVal target])
  end.

Definition _builder (builder : Value) : Res Value :=
  let builder := if is_None builder then obj "LocalBuilder" "Builder" [] else builder in
  if negb (isinstance builder "Builder") then
    Err (TypeError [FLit "Expected `builder` to be Builder, but gets: "; FVal builder])
  else Ok builder.

Definition _runner (runner : Value) : Res Value :=
  let runner := if is_None runner then obj "LocalRunner" "Runner" [] else runner in
  if negb (isinstance runner "Runner") then
    Err (TypeError [FLit "Expected `runner` to be Runner, but gets: "; FVal runner])
  else Ok runner.

Definition _database (database : Value) (task_name path : string) : Prog Value :=
  database <-
    (if is_None database then
       let path_workload :=
         os_path_join path (task_name +:+ "_database_workload.json") in
       let path_tuning_record :=
         os_path_join path (task_name +:+ "_database_tuning_record.json") in
       logger_info "Creating JSONDatabase. Workload at: %s. Tuning records at: %s"
                   [VStr path_workload; VStr path_tuning_record] ;;
       Ret (obj "JSONDatabase" "Database"
                [("path_workload", VStr path_workload);
                 ("path_tuning_record", VStr path_tuning_record)])
     else Ret database) ;;
  if negb (isinstance database "Database") then
    Raise (TypeError [FLit "Expected `database` to be Database, but gets: ";
                      FVal database])
  else Ret database.

Definition _callbacks (measure_callbacks : Value) : Res Value :=
  if is_None measure_callbacks then
    Ok (VList [obj "AddToDatabase" "MeasureCallback" [];
               obj "RemoveBuildArtifact" "MeasureCallback" [];
               obj "EchoStatistics" "MeasureCallback" [];
               obj "UpdateCostModel" "MeasureCallback" []])
  else
    match measure_callbacks with
    | VList l | VTuple l =>
        match list_find (fun callback => isinstance callback "MeasureCallback" = false) l with
        | Some (i, callback) =>
            Err (TypeError
                   [FLit "Expected `measure_callbacks` to be List[MeasureCallback], but measure_callbacks[";
                    FNat i; FLit "] is: "; FVal callback])
        | None => Ok (VList l)
        end
    | _ =>
        Err (TypeError
               [FLit "Expected `measure_callbacks` to be List[MeasureCallback], but gets: ";
                FVal measure_callbacks])
    end.

Definition _cost_model (cost_model : Value) : Res Value :=
  if is_None cost_model then
    Ok (obj "XGBModel" "CostModel"
            [("extractor", obj "PerStoreFeature" "FeatureExtractor" [])])
  else if negb (isinstance cost_model "CostModel") then
    Err (TypeError [FLit "Expected `cost_model` to be CostModel, but gets: ";
                    FVal cost_model])
  else Ok cost_model.

Definition _space_generator (space_generator : Value) : Prog Value :=
  if is_None space_generator then Ret (obj "PostOrderApply" "SpaceGenerator" [])
  else
    space_generator <-
      (if callable space_generator then ext (ECall space_generator [])
       else Ret space_generator) ;;
    if negb (isinstance space_generator "SpaceGenerator") then
      Raise (TypeError
               [FLit "Expected `space_generator` to return SpaceGenerator, but gets: ";
                FVal space_generator])
    else Ret space_generator.

Definition _sch_rules (sch_rules : Value) (target : Target) : Prog Value :=
  if callable sch_rules then ext (ECall sch_rules [])
  else if negb (is_None sch_rules) then
    Raise (TypeError [FLit "Expected `sch_rules` to be None or callable, but gets: ";
                      FVal sch_rules])
  else if String.eqb (name (kind target)) "llvm" then Ret DefaultLLVM._sch_rules
  else if String.eqb (name (kind target)) "cuda" then Ret DefaultCUDA._sch_rules
  else Raise (ValueError [FLit "Unsupported target: "; FVal (VTarget target)]).

Definition _postproc (postproc : Value) (target : Target) : Prog Value :=
  if callable postproc then ext (ECall postproc [])
  else if negb (is_None postproc) then
    Raise (TypeError [FLit "Expected `postproc` to be None or callable, but gets: ";
                      FVal postproc])
  else if String.eqb (name (kind target)) "llvm" then Ret DefaultLLVM._postproc
  else if String.eqb (name (kind target)) "cuda" then Ret DefaultCUDA._postproc
  else Raise (ValueError [FLit "Unsupported target: "; FVal (VTarget target)]).

Definition _mutator_probs (mutator_probs : Value) (target : Target) : Prog Value :=
  if callable mutator_probs then ext (ECall mutator_probs [])
  else if negb (is_None mutator_probs) then
    Raise (TypeError [FLit "Expected `mutator_probs` to be None or callable, but gets: ";
                      FVal mutator_probs])
  else if String.eqb (name (kind target)) "llvm" then Ret DefaultLLVM._mutator_probs
  else if String.eqb (name (kind target)) "cuda" then Ret DefaultCUDA._mutator_probs
  else Raise (ValueError [FLit "Unsupported target: "; FVal (VTarget target)]).

(** The keyword arguments of [TuneContext(...)] are evaluated in the order
    they are written. *)
Definition _tune_context (tune_context : Value) (mod_ : IRModule) (target : Target)
    (config task_name space_generator sch_rules postprocs mutator_probs num_threads : Value)
    : Prog TuneContext :=
  if is_None tune_context then
    space_generator <- _space_generator space_generator ;;
    search_strategy <- ext (EMethod config "create_strategy" []) ;;
    sch_rules <- _sch_rules sch_rules target ;;
    postprocs <- _postproc postprocs target ;;
    mutator_probs <- _mutator_probs mutator_probs target ;;
    Ret {| tc_mod := mod_;
           tc_target := target;
           tc_space_generator := space_generator;
           tc_search_strategy := search_strategy;
           tc_sch_rules := sch_rules;
           tc_postprocs := postprocs;
           tc_mutator_probs := mutator_probs;
           tc_task_name := task_name;
           tc_rand_state := -1;
           tc_num_threads := num_threads |}
  else
    match tune_context with
    | VTuneContext c => Ret c
    | _ =>
        Raise (TypeError [FLit "Expected `tune_context` to be TuneContext, but gets: ";
                          FVal tune_context])
    end.

Definition _task_scheduler (task_scheduler : Value) (tasks : list TuneContext)
    (builder runner database cost_model measure_callbacks : Value) : Prog Value :=
  if is_None task_scheduler then
    Ret (obj "RoundRobin" "TaskScheduler"
             [("tasks", VList (VTuneContext <$> tasks));
              ("builder", builder);
              ("runner", runner);
              ("database", database);
              ("cost_model", cost_model);
              ("measure_callbacks", measure_callbacks)])
  else if callable task_scheduler then
    ext (ECall task_scheduler
               [VList (VTuneContext <$> tasks); builder; runner; database; cost_model;
                measure_callbacks])
  else if negb (isinstance task_scheduler "TaskScheduler") then
    Raise (TypeError [FLit "Expected `task_scheduler` to be TaskScheduler, but gets: ";
                      FVal task_scheduler])
  else Ret task_scheduler.

End Parse.

(** ** The entry points *)

(** The keyword-only arguments shared by the three entry points. *)
Record Kwargs := {
  kw_task_name : string;
  kw_builder : Value;
  kw_runner : Value;
  kw_database : Value;
  kw_cost_model : Value;
  kw_measure_callbacks : Value;
  kw_task_scheduler : Value;
  kw_space : Value;
  kw_sch_rules : Value;
  kw_postprocs : Value;
  kw_mutator_probs : Value;
  kw_num_threads : Value;
}.

(** The defaults of the signatures: [task_name="main"], everything else [None]. *)
Definition default_kwargs : Kwargs :=
  {| kw_task_name := "main";
     kw_builder := VNone;
     kw_runner := VNone;
     kw_database := VNone;
     kw_cost_model := VNone;
     kw_measure_callbacks := VNone;
     kw_task_scheduler := VNone;
     kw_space := VNone;
     kw_sch_rules := VNone;
     kw_postprocs := VNone;
     kw_mutator_probs := VNone;
     kw_num_threads := VNone |}.

Definition tune_tir (mod_ target config : Value) (work_dir : string) (kw : Kwargs)
    : Prog Value :=
  let task_name := kw_task_name kw in
  logger_info "Working directory: %s" [VStr work_dir] ;;
  mod_ <- lift (Parse._mod mod_) ;;
  database <- Parse._database (kw_database kw) task_name work_dir ;;
  target <- Parse._target target ;;
  tune_context <-
    Parse._tune_context VNone mod_ target config (VStr task_name)
      (kw_space kw) (kw_sch_rules kw) (kw_postprocs kw) (kw_mutator_probs kw)
      (kw_num_threads kw) ;;
  builder <- lift (Parse._builder (kw_builder kw)) ;;
  runner <- lift (Parse._runner (kw_runner kw)) ;;
  cost_model <- lift (Parse._cost_model (kw_cost_model kw)) ;;
  measure_callbacks <- lift (Parse._callbacks (kw_measure_callbacks kw)) ;;
  task_scheduler <-
    Parse._task_scheduler (kw_task_scheduler kw) [tune_context]
      builder runner database cost_model measure_callbacks ;;
  ext (EMethod task_scheduler "tune" []) ;;
  workload <- ext (EMethod database "commit_workload" [VIRModule mod_]) ;;
  bests <- ext (EMethod database "get_top_k" [workload; VInt 1]) ;;
  if negb (truthy bests) then Ret VNone
  else
    n <- lift (len bests) ;;
    if negb (bool_decide (n = 1%nat)) then Raise (AssertionError [])
    else
      sch <- ext (ENew "Schedule" [VIRModule mod_]) ;;
      best <- lift (getitem bests 0) ;;
      ext (EMethod best "trace.apply_to_schedule" [sch; VBool false]) ;;
      ext (EMethod task_scheduler "cost_model.save"
                   [VStr (os_path_join work_dir (task_name +:+ ".xgb"))]) ;;
      Ret sch.

Definition tune_te (tensors target config : Value) (work_dir : string) (kw : Kwargs)
    : Prog Value :=
  mod_ <- ext (EFunc "create_prim_func" [tensors]) ;;
  tune_tir mod_ target config work_dir kw.

Section WholeModel.

Variable structural_hash : IRModule -> Z.
Variable structural_equal : IRModule -> IRModule -> bool.

(** The body of [for task in extracted_tasks]. *)
Definition parse_task (target : Target) (config : Value) (kw : Kwargs) (task : Value)
    : Prog TuneContext :=
  dispatched <- lift (getattr task "dispatched") ;;
  n <- lift (len dispatched) ;;
  if negb (bool_decide (n = 1%nat)) then
    Raise (AssertionError [FLit "Only size 1 dispatched task list is supported for now"])
  else
    dispatched0 <- lift (getitem dispatched 0) ;;
    mod_ <- lift (Parse._mod dispatched0) ;;
    task_name <- lift (getattr task "task_name") ;;
    Parse._tune_context VNone mod_ target config task_name
      (kw_space kw) (kw_sch_rules kw) (kw_postprocs kw) (kw_mutator_probs kw)
      (kw_num_threads kw).

Fixpoint parse_tasks (target : Target) (config : Value) (kw : Kwargs)
    (extracted_tasks : list Value) : Prog (list TuneContext) :=
  match extracted_tasks with
  | [] => Ret []
  | task :: rest =>
      tune_context <- parse_task target config kw task ;;
      tune_contexts <- parse_tasks target config kw rest ;;
      Ret (tune_context :: tune_contexts)
  end.

Definition tune_relay (mod_ target config : Value) (work_dir : string)
    (params : Value) (kw : Kwargs) : Prog Value :=
  logger_info "Working directory: %s" [VStr work_dir] ;;
  extracted_tasks <- ext (EFunc "extract_task_from_relay" [mod_; target; params]) ;;
  target <- Parse._target target ;;
  database <- Parse._database (kw_database kw) (kw_task_name kw) work_dir ;;
  extracted_tasks <- lift (iter extracted_tasks) ;;
  tune_contexts <- parse_tasks target config kw extracted_tasks ;;
  logger_info "Before task deduplication: %d tasks"
              [VInt (Z.of_nat (length tune_contexts))] ;;
  let tasks := deduplicate structural_hash structural_equal tune_contexts in
  logger_info "After task deduplication: %d tasks" [VInt (Z.of_nat (length tasks))] ;;
  builder <- lift (Parse._builder (kw_builder kw)) ;;
  runner <- lift (Parse._runner (kw_runner kw)) ;;
  cost_model <- lift (Parse._cost_model (kw_cost_model kw)) ;;
  measure_callbacks <- lift (Parse._callbacks (kw_measure_callbacks kw)) ;;
  task_scheduler <-
    Parse._task_scheduler (kw_task_scheduler kw) tasks
      builder runner database cost_model measure_callbacks ;;
  ext (EMethod task_scheduler "tune" []) ;;
  history <- ext (ENew "ApplyHistoryBest" [database]) ;;
  with_ history
    (pass_context <-
       ext (ENew "PassContext"
                 [VInt 3; VDict [(VStr "relay.backend.use_meta_schedule", VBool true)]]) ;;
     with_ pass_context (ext (EFunc "relay.build" [mod_; VTarget target; params]))).

End WholeModel.

(** * The vocabulary of the statements

    ** The shapes an override may take *)

(** Validation of a resolved value against a collaborator class. *)
Definition check_instance (c msg : string) (v : Value) : Prog Value :=
  if isinstance v c then Ret v else Raise (TypeError [FLit msg; FVal v]).

(** [None] or an instance of [c]; anything else, a factory included, is a
    [TypeError] with message [msg] followed by the value. *)
Definition instance_only (parse : Value -> Res Value) (c : string) (default : Value)
    (msg : string) : Prop :=
  parse VNone = Ok default
  /\ (forall v, isinstance v c = true -> parse v = Ok v)
  /\ (forall v, v <> VNone -> isinstance v c = false ->
        parse v = Err (TypeError [FLit msg; FVal v])).

(** [None] (a default by target kind) or a zero-argument factory whose result
    is returned as it is; anything else, a ready-made value included, is a
    [TypeError]. *)
Definition factory_only (parse : Value -> Target -> Prog Value) (llvm cuda : Value)
    (msg : string) : Prop :=
  (forall target, name (kind target) = "llvm" -> parse VNone target = Ret llvm)
  /\ (forall target, name (kind target) = "cuda" -> parse VNone target = Ret cuda)
  /\ (forall v target, callable v = true -> parse v target = ext (ECall v []))
  /\ (forall v target, v <> VNone -> callable v = false ->
        parse v target = Raise (TypeError [FLit msg; FVal v])).

(** The record store: as [instance_only], the default being created after a
    log line. *)
Definition database_shapes : Prop :=
  forall (task_name path : string),
  (forall h tr,
     run h (Parse._database VNone task_name path) tr
     = run h
         (let path_workload :=
            os_path_join path (task_name +:+ "_database_workload.json") in
          let path_tuning_record :=
            os_path_join path (task_name +:+ "_database_tuning_record.json") in
          logger_info "Creating JSONDatabase. Workload at: %s. Tuning records at: %s"
                      [VStr path_workload; VStr path_tuning_record] ;;
          Ret (obj "JSONDatabase" "Database"
                   [("path_workload", VStr path_workload);
                    ("path_tuning_record", VStr path_tuning_record)])) tr)
  /\ (forall v, isinstance v "Database" = true -> Parse._database v task_name path = Ret v)
  /\ (forall v, v <> VNone -> isinstance v "Database" = false ->
        Parse._database v task_name path
        = Raise (TypeError [FLit "Expected `database` to be Database, but gets: "; FVal v])).

(** The measurement callbacks: [None], or a list or tuple all of whose
    elements are callbacks; the error for a bad element names its index. *)
Definition callbacks_shapes : Prop :=
  Parse._callbacks VNone
  = Ok (VList [obj "AddToDatabase" "MeasureCallback" [];
               obj "RemoveBuildArtifact" "MeasureCallback" [];
               obj "EchoStatistics" "MeasureCallback" [];
               obj "UpdateCostModel" "MeasureCallback" []])
  /\ (forall l, Forall (fun cb => isinstance cb "MeasureCallback" = true) l ->
        Parse._callbacks (VList l) = Ok (VList l)
        /\ Parse._callbacks (VTuple l) = Ok (VList l))
  /\ (forall l (i : nat) cb,
        l !! i = Some cb ->
        isinstance cb "MeasureCallback" = false ->
        (forall (j : nat) cb', (j < i)%nat -> l !! j = Some cb' ->
                       isinstance cb' "MeasureCallback" = true) ->
        let e := TypeError
                   [FLit "Expected `measure_callbacks` to be List[MeasureCallback], but measure_callbacks[";
                    FNat i; FLit "] is: "; FVal cb] in
        Parse._callbacks (VList l) = Err e /\ Parse._callbacks (VTuple l) = Err e)
  /\ (forall v, v <> VNone -> (forall l, v <> VList l /\ v <> VTuple l) ->
        Parse._callbacks v
        = Err (TypeError
                 [FLit "Expected `measure_callbacks` to be List[MeasureCallback], but gets: ";
                  FVal v])).

(** The space generator: [None], an instance, or a zero-argument factory
    whose result is validated. *)
Definition space_generator_shapes : Prop :=
  let msg := "Expected `space_generator` to return SpaceGenerator, but gets: " in
  Parse._space_generator VNone = Ret (obj "PostOrderApply" "SpaceGenerator" [])
  /\ (forall v h tr, callable v = true ->
        run h (Parse._space_generator v) tr
        = run h (r <- ext (ECall v []) ;; check_instance "SpaceGenerator" msg r) tr)
  /\ (forall v, callable v = false -> isinstance v "SpaceGenerator" = true ->
        Parse._space_generator v = Ret v)
  /\ (forall v, v <> VNone -> callable v = false -> isinstance v "SpaceGenerator" = false ->
        Parse._space_generator v = Raise (TypeError [FLit msg; FVal v])).

(** The scheduler: [None], an instance, or a factory called with the task
    list and the five resolved collaborators. *)
Definition task_scheduler_shapes : Prop :=
  forall (tasks : list TuneContext) (builder runner database cost_model measure_callbacks : Value),
  let parse v :=
    Parse._task_scheduler v tasks builder runner database cost_model measure_callbacks in
  parse VNone
  = Ret (obj "RoundRobin" "TaskScheduler"
             [("tasks", VList (VTuneContext <$> tasks)); ("builder", builder);
              ("runner", runner); ("database", database); ("cost_model", cost_model);
              ("measure_callbacks", measure_callbacks)])
  /\ (forall v, callable v = true ->
        parse v = ext (ECall v [VList (VTuneContext <$> tasks); builder; runner; database;
                                cost_model; measure_callbacks]))
  /\ (forall v, callable v = false -> isinstance v "TaskScheduler" = true -> parse v = Ret v)
  /\ (forall v, v <> VNone -> callable v = false -> isinstance v "TaskScheduler" = false ->
        parse v
        = Raise (TypeError [FLit "Expected `task_scheduler` to be TaskScheduler, but gets: ";
                            FVal v])).

(** ** The deduplication loop, by recursion *)

Section DeduplicationByRecursion.

Variable structural_hash : IRModule -> Z.
Variable structural_equal : IRModule -> IRModule -> bool.

(** The list [tasks] the loop builds from the contexts [l] still to be
    visited, given the hashes recorded so far: at each position the slice
    [tune_contexts[i + 1 :]] is the tail of [l].  [deduplicate_dedup_from]
    relates it to the loop. *)
Fixpoint dedup_from (hashs : list Z) (l : list TuneContext) : list TuneContext :=
  match l with
  | [] => []
  | task :: rest =>
      let struct_hash := structural_hash (tc_mod task) in
      if bool_decide (struct_hash ∈ hashs)
         && existsb (fun other_task => structural_equal (tc_mod task) (tc_mod other_task)) rest
      then dedup_from hashs rest
      else task :: dedup_from (hashs ++ [struct_hash]) rest
  end.

(** The list [hashs] after the same iterations. *)
Fixpoint hashs_from (hashs : list Z) (l : list TuneContext) : list Z :=
  match l with
  | [] => hashs
  | task :: rest =>
      let struct_hash := structural_hash (tc_mod task) in
      if bool_decide (struct_hash ∈ hashs)
         && existsb (fun other_task => structural_equal (tc_mod task) (tc_mod other_task)) rest
      then hashs_from hashs rest
      else hashs_from (hashs ++ [struct_hash]) rest
  end.

End DeduplicationByRecursion.

(** ** Runs: postconditions and the calls of a trace *)

Fixpoint wp {A} (p : Prog A) (Q : Res A -> list Event -> Prop) : Prop :=
  match p with
  | Ret a => Q (Ok a) []
  | Raise e => Q (Err e) []
  | Ext c k => forall r, wp (k r) (fun res ev => Q res ((c, r) :: ev))
  end.

(** [only C p]: every call [p] makes satisfies [C]. *)
Definition only {A} (C : ExtCall -> Prop) (p : Prog A) : Prop :=
  wp p (fun _ ev => Forall (fun e : Event => C e.1) ev).

(** [returns R p]: whenever [p] returns a value, the value satisfies [R]. *)
Definition returns {A} (R : A -> Prop) (p : Prog A) : Prop :=
  wp p (fun res _ => forall a, res = Ok a -> R a).

(** The calls made while one input is parsed: a zero-argument factory, the
    [Target] constructor, the strategy of the search configuration, a log
    line. *)
Definition parse_call (c : ExtCall) : Prop :=
  match c with
  | ECall _ args => args = []
  | ENew cls _ => cls = "Target"
  | EMethod _ meth _ => meth = "create_strategy"
  | EFunc fn _ => fn = "logger.info"
  end.

(** The calls made before the scheduler runs: those of [parse_call] and the
    call of a scheduler factory. *)
Definition setup_call (c : ExtCall) : Prop :=
  match c with
  | ECall _ _ => True
  | _ => parse_call c
  end.

(** The record store answered the top-1 query with no record. *)
Definition no_record (ev : list Event) : Prop :=
  exists db args bests,
    (EMethod db "get_top_k" args, Ok bests) ∈ ev /\ truthy bests = false.

(** [no_record], decided on a given trace. *)
Definition no_record_b (tr : list Event) : bool :=
  existsb (fun e : Event =>
             match e with
             | (EMethod _ meth _, Ok bests) =>
                 String.eqb meth "get_top_k" && negb (truthy bests)
             | _ => false
             end) tr.

(** The cost model was asked to save itself. *)
Definition saved (ev : list Event) : Prop :=
  exists recv args r, (EMethod recv "cost_model.save" args, r) ∈ ev.

(** Whether the trace holds a call of method [meth]. *)
Definition calls_method (meth : string) (tr : list Event) : bool :=
  existsb (fun e : Event =>
             match e.1 with
             | EMethod _ m _ => String.eqb m meth
             | _ => false
             end) tr.

Definition tune_tir_post (work_dir : string) (kw : Kwargs)
    (res : Res Value) (ev : list Event) : Prop :=
  (no_record ev -> res = Ok VNone /\ ~ saved ev)
  /\ (forall sch, res = Ok sch ->
        no_record ev
        \/ exists sched r,
             last ev
             = Some (EMethod sched "cost_model.save"
                             [VStr (os_path_join work_dir (kw_task_name kw +:+ ".xgb"))],
                     Ok r)).

Definition seed_fixed (c : TuneContext) : Prop := tc_rand_state c = -1.

(** What a scheduler is handed: a scheduler factory is called with a task
    list whose contexts all carry the fixed seed, and, when no scheduler was
    supplied ([default_scheduler]), the scheduler that is run holds such a
    task list. *)
Definition handoff_ok (default_scheduler : bool) (c : ExtCall) : Prop :=
  match c with
  | ECall _ (VList tasks :: _) =>
      forall ctx, VTuneContext ctx ∈ tasks -> seed_fixed ctx
  | EMethod sched meth _ =>
      default_scheduler = true -> meth = "tune" ->
      exists tasks, getattr sched "tasks" = Ok (VList (VTuneContext <$> tasks))
                    /\ Forall seed_fixed tasks
  | _ => True
  end.

(** The arguments of the log lines with format [fmt]. *)
Definition logged (fmt : string) (tr : list Event) : list (list Value) :=
  omap (fun e : Event =>
          match e.1 with
          | EFunc fn (VStr f :: args) =>
              if String.eqb fn "logger.info" && String.eqb f fmt then Some args else None
          | _ => None
          end) tr.

(** The number of tasks held by each scheduler that was run. *)
Definition scheduled (tr : list Event) : list nat :=
  omap (fun e : Event =>
          match e.1 with
          | EMethod sched meth _ =>
              if String.eqb meth "tune" then
                match getattr sched "tasks" with
                | Ok (VList tasks) => Some (length tasks)
                | _ => None
                end
              else None
          | _ => None
          end) tr.

(** ** Inputs and collaborators of the examples *)

(** An LLVM target. *)
Definition llvm_target : Target :=
  {| kind := {| name := "llvm" |}; target_options := "-num-cores=4" |}.

Definition rocm_target : Target :=
  {| kind := {| name := "rocm" |}; target_options := "" |}.

(** A module with two global functions. *)
Definition two_entry_module : IRModule :=
  <["fused_add" := {| pf_attrs := ∅; pf_body := 1 |}]>
    {["fused_multiply" := {| pf_attrs := ∅; pf_body := 2 |}]}.

Definition matmul : PrimFunc :=
  {| pf_attrs := {["global_symbol" := AStr "matmul"]}; pf_body := 1 |}.

Definition replay_config : Value :=
  obj "ReplayTraceConfig" "object"
      [("num_trials_per_iter", VInt 32); ("num_trials_total", VInt 32)].

(** Collaborators that all succeed, with a record store that holds [records]
    for every workload. *)
Definition store_handler (records : list Value) : Handler :=
  fun _ c =>
    match c with
    | EMethod _ meth _ =>
        if String.eqb meth "get_top_k" then Ok (VList records)
        else if String.eqb meth "create_strategy" then
          Ok (obj "ReplayTrace" "SearchStrategy" [])
        else Ok VNone
    | ENew cls _ =>
        if String.eqb cls "Schedule" then Ok (obj "Schedule" "object" [])
        else Ok VNone
    | _ => Ok VNone
    end.

Definition no_record_run : Res Value * list Event :=
  run (store_handler [])
      (tune_tir (VPrimFunc matmul) (VTarget llvm_target) replay_config "/tmp/work"
                default_kwargs) [].

Definition one_record_run : Res Value * list Event :=
  run (store_handler [obj "TuningRecord" "object" []])
      (tune_tir (VPrimFunc matmul) (VTarget llvm_target) replay_config "/tmp/work"
                default_kwargs) [].

Definition sample_context_run : Res TuneContext * list Event :=
  run (store_handler [])
      (Parse._tune_context VNone {["main" := matmul]} llvm_target replay_config
         (VStr "main") VNone VNone VNone VNone (VInt 4)) [].

(** A stand-in for the structural functions of [tvm.ir.base] on modules with
    one function "main": two modules are equal when the bodies of their
    functions are, and the hash is computed from the body. *)
Definition body_hash (m : IRModule) : Z :=
  match m !! "main" with
  | Some f => Z.of_N (pf_body f)
  | None => 0
  end.

Definition body_equal (m1 m2 : IRModule) : bool :=
  bool_decide (pf_body <$> m1 !! "main" = pf_body <$> m2 !! "main").

Definition kernel (body : N) : IRModule :=
  {["main" := {| pf_attrs := {["global_symbol" := AStr "main"]}; pf_body := body |}]}.

Definition task_context (task_name : string) (body : N) : TuneContext :=
  {| tc_mod := kernel body;
     tc_target := llvm_target;
     tc_space_generator := obj "PostOrderApply" "SpaceGenerator" [];
     tc_search_strategy := obj "ReplayTrace" "SearchStrategy" [];
     tc_sch_rules := DefaultLLVM._sch_rules;
     tc_postprocs := DefaultLLVM._postproc;
     tc_mutator_probs := DefaultLLVM._mutator_probs;
     tc_task_name := VStr task_name;
     tc_rand_state := -1;
     tc_num_threads := VNone |}.

(** A whole model that extracts into five tasks, the first and the third with
    the same kernel. *)
Definition extracted_task (task_name : string) (body : N) : Value :=
  obj "ExtractedTask" "Object"
      [("task_name", VStr task_name); ("dispatched", VList [VIRModule (kernel body)])].

Definition five_tasks : Value :=
  VList [extracted_task "fused_dense" 1;
         extracted_task "fused_add" 2;
         extracted_task "fused_dense_1" 1;
         extracted_task "fused_relu" 3;
         extracted_task "fused_softmax" 4].

Definition relay_handler : Handler :=
  fun tr c =>
    match c with
    | EFunc fn _ =>
        if String.eqb fn "extract_task_from_relay" then Ok five_tasks else Ok VNone
    | _ => store_handler [] tr c
    end.

Definition five_tasks_run : Res Value * list Event :=
  run relay_handler
      (tune_relay body_hash body_equal (obj "Function" "RelayExpr" [])
                  (VTarget llvm_target) replay_config "/tmp/work" VNone default_kwargs) [].

(** Three contexts with three different kernels, and the four contexts
    [A, B, A', C] of which the first and the third share a kernel. *)
Definition distinct_contexts : list TuneContext :=
  [task_context "fused_dense" 1; task_context "fused_add" 2; task_context "fused_relu" 3].

Definition dense_contexts : list TuneContext :=
  [task_context "fused_dense" 1; task_context "fused_add" 2;
   task_context "fused_dense_1" 1; task_context "fused_relu" 3].

(** ** The steps of [tune_tir] once the scheduler is resolved *)

(** The statements of [tune_tir] from [task_scheduler.tune()] on, as a
    program of their own; [tune_tir] continues with it after the last
    [Parse] step. *)
Definition tune_tir_finish (work_dir task_name : string) (mod_ : IRModule)
    (database task_scheduler : Value) : Prog Value :=
  ext (EMethod task_scheduler "tune" []) ;;
  workload <- ext (EMethod database "commit_workload" [VIRModule mod_]) ;;
  bests <- ext (EMethod database "get_top_k" [workload; VInt 1]) ;;
  if negb (truthy bests) then Ret VNone
  else
    n <- lift (len bests) ;;
    if negb (bool_decide (n = 1%nat)) then Raise (AssertionError [])
    else
      sch <- ext (ENew "Schedule" [VIRModule mod_]) ;;
      best <- lift (getitem bests 0) ;;
      ext (EMethod best "trace.apply_to_schedule" [sch; VBool false]) ;;
      ext (EMethod task_scheduler "cost_model.save"
                   [VStr (os_path_join work_dir (task_name +:+ ".xgb"))]) ;;
      Ret sch.

(** The calls these steps make, with their answers. *)
Definition ev_tune (sched : Value) (r : Res Value) : Event :=
  (EMethod sched "tune" [], r).
Definition ev_commit (db : Value) (m : IRModule) (r : Res Value) : Event :=
  (EMethod db "commit_workload" [VIRModule m], r).
Definition ev_top_k (db workload : Value) (r : Res Value) : Event :=
  (EMethod db "get_top_k" [workload; VInt 1], r).
Definition ev_schedule (m : IRModule) (r : Res Value) : Event :=
  (ENew "Schedule" [VIRModule m], r).
Definition ev_apply (best sch : Value) (r : Res Value) : Event :=
  (EMethod best "trace.apply_to_schedule" [sch; VBool false], r).
Definition ev_save (sched : Value) (path : string) (r : Res Value) : Event :=
  (EMethod sched "cost_model.save" [VStr path], r).

(** The results and traces of [tune_tir_finish], one case per way out. *)
Inductive finish_trace (work_dir task_name : string) (m : IRModule) (db sched : Value)
    : Res Value -> list Event -> Prop :=
| finish_tune_raises e :
    finish_trace work_dir task_name m db sched (Err e) [ev_tune sched (Err e)]
| finish_commit_raises r e :
    finish_trace work_dir task_name m db sched (Err e)
      [ev_tune sched (Ok r); ev_commit db m (Err e)]
| finish_top_k_raises r w e :
    finish_trace work_dir task_name m db sched (Err e)
      [ev_tune sched (Ok r); ev_commit db m (Ok w); ev_top_k db w (Err e)]
| finish_no_record r w bests :
    truthy bests = false ->
    finish_trace work_dir task_name m db sched (Ok VNone)
      [ev_tune sched (Ok r); ev_commit db m (Ok w); ev_top_k db w (Ok bests)]
| finish_len_raises r w bests e :
    truthy bests = true -> len bests = Err e ->
    finish_trace work_dir task_name m db sched (Err e)
      [ev_tune sched (Ok r); ev_commit db m (Ok w); ev_top_k db w (Ok bests)]
| finish_assertion r w bests n :
    truthy bests = true -> len bests = Ok n -> n <> 1%nat ->
    finish_trace work_dir task_name m db sched (Err (AssertionError []))
      [ev_tune sched (Ok r); ev_commit db m (Ok w); ev_top_k db w (Ok bests)]
| finish_schedule_raises r w bests e :
    truthy bests = true -> len bests = Ok 1%nat ->
    finish_trace work_dir task_name m db sched (Err e)
      [ev_tune sched (Ok r); ev_commit db m (Ok w); ev_top_k db w (Ok bests);
       ev_schedule m (Err e)]
| finish_getitem_raises r w bests sch e :
    truthy bests = true -> len bests = Ok 1%nat -> getitem bests 0 = Err e ->
    finish_trace work_dir task_name m db sched (Err e)
      [ev_tune sched (Ok r); ev_commit db m (Ok w); ev_top_k db w (Ok bests);
       ev_schedule m (Ok sch)]
| finish_apply_raises r w bests sch best e :
    truthy bests = true -> len bests = Ok 1%nat -> getitem bests 0 = Ok best ->
    finish_trace work_dir task_name m db sched (Err e)
      [ev_tune sched (Ok r); ev_commit db m (Ok w); ev_top_k db w (Ok bests);
       ev_schedule m (Ok sch); ev_apply best sch (Err e)]
| finish_save_raises r w bests sch best r' e :
    truthy bests = true -> len bests = Ok 1%nat -> getitem bests 0 = Ok best ->
    finish_trace work_dir task_name m db sched (Err e)
      [ev_tune sched (Ok r); ev_commit db m (Ok w); ev_top_k db w (Ok bests);
       ev_schedule m (Ok sch); ev_apply best sch (Ok r');
       ev_save sched (os_path_join work_dir (task_name +:+ ".xgb")) (Err e)]
| finish_saved r w bests sch best r' r'' :
    truthy bests = true -> len bests = Ok 1%nat -> getitem bests 0 = Ok best ->
    finish_trace work_dir task_name m db sched (Ok sch)
      [ev_tune sched (Ok r); ev_commit db m (Ok w); ev_top_k db w (Ok bests);
       ev_schedule m (Ok sch); ev_apply best sch (Ok r');
       ev_save sched (os_path_join work_dir (task_name +:+ ".xgb")) (Ok r'')].

(** A run that first makes calls satisfying [C] and then either stops with
    an exception or goes on as [Qt] says. *)
Definition after_calls {A} (C : ExtCall -> Prop) (Qt : Res A -> list Event -> Prop)
    (res : Res A) (tr : list Event) : Prop :=
  exists setup tail,
    tr = setup ++ tail
    /\ Forall (fun e : Event => C e.1) setup
    /\ ((tail = [] /\ exists e, res = Err e) \/ Qt res tail).

(** [tune_tir] got as far as running the scheduler: the program and the
    overrides checked by [Parse] were valid, and the run ended as
    [finish_trace] says. *)
Definition tune_tir_finished (mod_ : Value) (work_dir : string) (kw : Kwargs)
    (res : Res Value) (tail : list Event) : Prop :=
  exists m db sched builder runner cost_model callbacks,
    Parse._mod mod_ = Ok m
    /\ Parse._builder (kw_builder kw) = Ok builder
    /\ Parse._runner (kw_runner kw) = Ok runner
    /\ Parse._cost_model (kw_cost_model kw) = Ok cost_model
    /\ Parse._callbacks (kw_measure_callbacks kw) = Ok callbacks
    /\ isinstance db "Database" = true
    /\ finish_trace work_dir (kw_task_name kw) m db sched res tail.

(** A run of [tune_tir] against a record store that answers the top-1 query
    with two records. *)
Definition two_record_run : Res Value * list Event :=
  run (store_handler [obj "TuningRecord" "object" []; obj "TuningRecord" "object" []])
      (tune_tir (VPrimFunc matmul) (VTarget llvm_target) replay_config "/tmp/work"
                default_kwargs) [].

(** The default record store of the runs above. *)
Definition default_database : Value :=
  obj "JSONDatabase" "Database"
      [("path_workload", VStr "/tmp/work/main_database_workload.json");
       ("path_tuning_record", VStr "/tmp/work/main_database_tuning_record.json")].

(** The call [c] is no call of method [meth]. *)
Definition never_calls (meth : string) (c : ExtCall) : Prop :=
  match c with
  | EMethod _ m _ => m <> meth
  | _ => True
  end.

(** [tune_tir] for a target without default policies. *)
Definition unsupported_run : Res Value * list Event :=
  run (store_handler [])
      (tune_tir (VPrimFunc matmul) (VTarget rocm_target) replay_config "/tmp/work"
                default_kwargs) [].

(** Collaborators for [tune_te]: the tensors lower to [matmul] and the
    record store is empty. *)
Definition te_handler : Handler :=
  fun tr c =>
    match c with
    | EFunc fn _ =>
        if String.eqb fn "create_prim_func" then Ok (VPrimFunc matmul) else Ok VNone
    | _ => store_handler [] tr c
    end.

Definition te_run : Res Value * list Event :=
  run te_handler
      (tune_te (VList [obj "Tensor" "object" []; obj "Tensor" "object" []])
               (VTarget llvm_target) replay_config "/tmp/work" default_kwargs) [].

(** ** The steps of [tune_relay] once the scheduler is resolved *)

(** The statements of [tune_relay] from [task_scheduler.tune()] on, as a
    program of their own. *)
Definition tune_relay_finish (mod_ : Value) (target : Target)
    (params database task_scheduler : Value) : Prog Value :=
  ext (EMethod task_scheduler "tune" []) ;;
  history <- ext (ENew "ApplyHistoryBest" [database]) ;;
  with_ history
    (pass_context <-
       ext (ENew "PassContext"
                 [VInt 3; VDict [(VStr "relay.backend.use_meta_schedule", VBool true)]]) ;;
     with_ pass_context (ext (EFunc "relay.build" [mod_; VTarget target; params]))).

Definition is_ok {A} (r : Res A) : bool :=
  match r with Ok _ => true | Err _ => false end.

(** The number of context managers entered ([__enter__] returned) and the
    number of [__exit__] calls. *)
Definition entered (tr : list Event) : nat :=
  length (List.filter (fun e : Event =>
                         match e.1 with
                         | EMethod _ m _ => String.eqb m "__enter__" && is_ok e.2
                         | _ => false
                         end) tr).

Definition exited (tr : list Event) : nat :=
  length (List.filter (fun e : Event =>
                         match e.1 with
                         | EMethod _ m _ => String.eqb m "__exit__"
                         | _ => false
                         end) tr).

(** The calls [tune_relay_finish] makes. *)
Definition finish_call (mod_ : Value) (target : Target) (params : Value)
    (c : ExtCall) : Prop :=
  match c with
  | ECall _ _ => False
  | ENew cls _ => cls = "ApplyHistoryBest" \/ cls = "PassContext"
  | EMethod _ m args => (m = "tune" \/ m = "__enter__" \/ m = "__exit__") /\ args = []
  | EFunc fn args => fn = "relay.build" /\ args = [mod_; VTarget target; params]
  end.

Definition relay_finish_post (mod_ : Value) (target : Target) (params : Value)
    (res : Res Value) (tail : list Event) : Prop :=
  Forall (fun e : Event => finish_call mod_ target params e.1) tail
  /\ entered tail = exited tail
  /\ (forall args r, (EFunc "relay.build" args, r) ∈ tail ->
        exists sched r0, (EMethod sched "tune" [], Ok r0) ∈ tail)
  /\ (forall v, res = Ok v ->
        (EFunc "relay.build" [mod_; VTarget target; params], Ok v) ∈ tail).

(** An extracted task with exactly one dispatched candidate. *)
Definition single_dispatch (task : Value) : Prop :=
  exists d, getattr task "dispatched" = Ok d /\ len d = Ok 1%nat.

(** [v] is the first dispatched candidate of the extracted task [task]. *)
Definition task_candidate (task v : Value) : Prop :=
  exists d, getattr task "dispatched" = Ok d /\ getitem d 0 = Ok v.

(** An extracted task the body of the loop over the tasks gets through to
    the construction of the context: it has one dispatched candidate, and
    [Parse._mod] returns for that candidate. *)
Definition task_accepted (task : Value) : Prop :=
  single_dispatch task
  /\ exists v m, task_candidate task v /\ Parse._mod v = Ok m.

(** [tune_relay] got as far as running the scheduler. *)
Definition tune_relay_finished (mod_ params extracted : Value)
    (res : Res Value) (tail : list Event) : Prop :=
  exists items target,
    iter extracted = Ok items
    /\ Forall task_accepted items
    /\ relay_finish_post mod_ target params res tail.

(** The run of [tune_relay] from the call of the task extractor on. *)
Definition tune_relay_extracted (mod_ target params : Value)
    (res : Res Value) (tail : list Event) : Prop :=
  exists r tail2,
    tail = (EFunc "extract_task_from_relay" [mod_; target; params], r) :: tail2
    /\ match r with
       | Err e => res = Err e /\ tail2 = []
       | Ok extracted =>
           after_calls setup_call (tune_relay_finished mod_ params extracted) res tail2
       end.

(** The calls of [tune_relay] before the scheduler is run. *)
Definition relay_pre_call (c : ExtCall) : Prop :=
  match c with
  | EFunc fn _ => fn = "logger.info" \/ fn = "extract_task_from_relay"
  | _ => setup_call c
  end.

(** A whole model with one task that has two dispatched candidates. *)
Definition two_candidates_handler : Handler :=
  fun tr c =>
    match c with
    | EFunc fn _ =>
        if String.eqb fn "extract_task_from_relay" then
          Ok (VList [extracted_task "fused_dense" 1;
                     obj "ExtractedTask" "Object"
                         [("task_name", VStr "fused_add");
                          ("dispatched", VList [VIRModule (kernel 2); VIRModule (kernel 3)])]])
        else Ok VNone
    | _ => store_handler [] tr c
    end.

Definition two_candidates_run : Res Value * list Event :=
  run two_candidates_handler
      (tune_relay body_hash body_equal (obj "Function" "RelayExpr" [])
                  (VTarget llvm_target) replay_config "/tmp/work" VNone default_kwargs) [].

(** The default policies of a target kind, when it has any. *)
Definition default_policy (llvm cuda : Value) (target : Target) (v : Value) : Prop :=
  (name (kind target) = "llvm" -> v = llvm)
  /\ (name (kind target) <> "llvm" -> name (kind target) = "cuda" -> v = cuda).

(** What [Parse._tune_context] puts into the context it builds. *)
Definition context_built (mod_ : IRModule) (target : Target)
    (task_name sch_rules postprocs mutator_probs num_threads : Value)
    (c : TuneContext) : Prop :=
  tc_mod c = mod_
  /\ tc_target c = target
  /\ tc_task_name c = task_name
  /\ tc_num_threads c = num_threads
  /\ isinstance (tc_space_generator c) "SpaceGenerator" = true
  /\ (sch_rules = VNone ->
      default_policy DefaultLLVM._sch_rules DefaultCUDA._sch_rules target (tc_sch_rules c))
  /\ (postprocs = VNone ->
      default_policy DefaultLLVM._postproc DefaultCUDA._postproc target (tc_postprocs c))
  /\ (mutator_probs = VNone ->
      default_policy DefaultLLVM._mutator_probs DefaultCUDA._mutator_probs target
                     (tc_mutator_probs c)).

Definition cuda_target : Target :=
  {| kind := {| name := "cuda" |}; target_options := "-arch=sm_80" |}.

Definition cuda_context_run : Res TuneContext * list Event :=
  run (store_handler [])
      (Parse._tune_context VNone {["main" := matmul]} cuda_target replay_config
         (VStr "main") VNone VNone VNone VNone (VInt 4)) [].

(** ** The target of the build *)

(** The calls [Parse._target] makes when it returns [t]: a string is handed
    to the [Target] constructor, a [Target] needs no call. *)
Definition target_calls (target : Value) (t : Target) : list Event :=
  if is_str target then [(ENew "Target" [target], Ok (VTarget t))] else [].

(** The calls [tune_relay] makes before it parses the target: its first log
    line and the task extraction, both calls of module-level functions. *)
Definition opening_call (c : ExtCall) : Prop :=
  match c with
  | EFunc fn _ => fn = "logger.info" \/ fn = "extract_task_from_relay"
  | _ => False
  end.

(** [t] is what [Parse._target target] returned in the run [tr] under the
    collaborators [h]: called after the opening calls [tr0] of the run, it
    returned [t], and the run went on from there. *)
Definition parsed_in (h : Handler) (target : Value) (tr : list Event) (t : Target)
    : Prop :=
  exists tr0 tr1 rest,
    Forall (fun e : Event => opening_call e.1) tr0
    /\ run h (Parse._target target) tr0 = (Ok t, tr1)
    /\ tr = tr1 ++ rest.

(** A call of [relay.build], if [c] is one, is for the model [mod_], the
    target [t] and the parameters [params]. *)
Definition builds_for (mod_ : Value) (t : Target) (params : Value) (c : ExtCall)
    : Prop :=
  match c with
  | EFunc fn args => fn = "relay.build" -> args = [mod_; VTarget t; params]
  | _ => True
  end.

(** Collaborators whose [Target] constructor parses every string to the
    LLVM target, and a run of [tune_relay] with the target given as a
    string. *)
Definition target_handler : Handler :=
  fun tr c =>
    match c with
    | ENew cls _ =>
        if String.eqb cls "Target" then Ok (VTarget llvm_target)
        else relay_handler tr c
    | _ => relay_handler tr c
    end.

Definition string_target_run : Res Value * list Event :=
  run target_handler
      (tune_relay body_hash body_equal (obj "Function" "RelayExpr" [])
                  (VStr "llvm -num-cores=4") replay_config "/tmp/work" VNone
                  default_kwargs) [].

(** ** The modules of the contexts *)

(** What a scheduler is handed, for a property [P] of contexts: a scheduler
    factory is called with a task list whose contexts all satisfy [P], and,
    when no scheduler was supplied ([default_scheduler]), the scheduler that
    is run holds such a task list. *)
Definition handed_over (P : TuneContext -> Prop) (default_scheduler : bool)
    (c : ExtCall) : Prop :=
  match c with
  | ECall _ (VList tasks :: _) => forall ctx, VTuneContext ctx ∈ tasks -> P ctx
  | EMethod sched meth _ =>
      default_scheduler = true -> meth = "tune" ->
      exists tasks, getattr sched "tasks" = Ok (VList (VTuneContext <$> tasks))
                    /\ Forall P tasks
  | _ => True
  end.

(** The module of the context [c] is what [Parse._mod] returned for [v], and
    it has exactly one entry. *)
Definition normalised_from (v : Value) (c : TuneContext) : Prop :=
  Parse._mod v = Ok (tc_mod c) /\ size (tc_mod c) = 1%nat.

(** The module of [c] is the normalised candidate of one of [tasks]. *)
Definition normalised_task (tasks : list Value) (c : TuneContext) : Prop :=
  exists task v, task ∈ tasks /\ task_candidate task v /\ normalised_from v c.

(** The module of [c] is the normalised candidate of a task that the task
    extractor returned in the run [tr]. *)
Definition normalised_extracted (tr : list Event) (c : TuneContext) : Prop :=
  exists args extracted tasks,
    (EFunc "extract_task_from_relay" args, Ok extracted) ∈ tr
    /\ iter extracted = Ok tasks
    /\ normalised_task tasks c.

(** A whole model one of whose two tasks dispatches to a module with two
    global functions. *)
Definition two_entry_handler : Handler :=
  fun tr c =>
    match c with
    | EFunc fn _ =>
        if String.eqb fn "extract_task_from_relay" then
          Ok (VList [extracted_task "fused_dense" 1;
                     obj "ExtractedTask" "Object"
                         [("task_name", VStr "fused_add_multiply");
                          ("dispatched", VList [VIRModule two_entry_module])]])
        else Ok VNone
    | _ => store_handler [] tr c
    end.

Definition two_entry_run : Res Value * list Event :=
  run two_entry_handler
      (tune_relay body_hash body_equal (obj "Function" "RelayExpr" [])
                  (VTarget llvm_target) replay_config "/tmp/work" VNone default_kwargs) [].

(** * Properties

    ** The deduplication loop *)

Section DeduplicationFacts.

Variable structural_hash : IRModule -> Z.
Variable structural_equal : IRModule -> IRModule -> bool.

Lemma dedup_loop_suffix (pre suf tasks : list TuneContext) (hashs : list Z) :
  foldl (dedup_step structural_hash structural_equal (pre ++ suf)) (tasks, hashs)
        (imap (fun i x => (length pre + i, x)%nat) suf)
  = (tasks ++ dedup_from structural_hash structural_equal hashs suf,
     hashs_from structural_hash structural_equal hashs suf).
Proof.
  revert pre tasks hashs.
  induction suf as [|task rest IH]; intros pre tasks hashs.
  - simpl. by rewrite app_nil_r.
  - cbn [imap foldl dedup_step dedup_from hashs_from].
    replace (drop (length pre + 0 + 1) (pre ++ task :: rest)) with rest.
    2:{ rewrite Nat.add_0_r, (cons_middle task pre rest), app_assoc.
        rewrite drop_app_length'; [done|]. rewrite length_app. simpl. lia. }
    specialize (IH (pre ++ [task])).
    rewrite <- app_assoc in IH. simpl in IH.
    assert (Hix : imap ((fun i x => (length pre + i, x)%nat) ∘ S) rest
                  = imap (fun i x => (length (pre ++ [task]) + i, x)%nat) rest).
    { apply imap_ext. intros i x _. simpl. rewrite length_app. simpl. f_equal. lia. }
    rewrite Hix.
    destruct (bool_decide (structural_hash (tc_mod task) ∈ hashs)); simpl.
    + destruct (existsb _ rest); simpl.
      * apply IH.
      * rewrite IH. by rewrite <- app_assoc.
    + rewrite IH. by rewrite <- app_assoc.
Qed.

(** The loop over [enumerate(tune_contexts)] computes [dedup_from]. *)
Lemma deduplicate_dedup_from (l : list TuneContext) :
  deduplicate structural_hash structural_equal l
  = dedup_from structural_hash structural_equal [] l.
Proof.
  unfold deduplicate, enumerate.
  pose proof (dedup_loop_suffix [] l [] []) as H.
  apply (f_equal fst) in H. exact H.
Qed.

(** What survives is a sub-list, in the order of extraction. *)
Lemma dedup_from_sublist (hashs : list Z) (l : list TuneContext) :
  dedup_from structural_hash structural_equal hashs l `sublist_of` l.
Proof.
  revert hashs. induction l as [|task rest IH]; intros hashs; simpl.
  - constructor.
  - destruct (_ && _).
    + by apply sublist_cons.
    + by apply sublist_skip.
Qed.

Lemma deduplicate_sublist (l : list TuneContext) :
  deduplicate structural_hash structural_equal l `sublist_of` l.
Proof. rewrite deduplicate_dedup_from. apply dedup_from_sublist. Qed.

Lemma existsb_sublist {A} (p : A -> bool) (l1 l2 : list A) :
  l1 `sublist_of` l2 -> existsb p l2 = false -> existsb p l1 = false.
Proof.
  induction 1 as [|x l1 l2 _ IH|x l1 l2 _ IH]; simpl; intros H.
  - done.
  - apply orb_false_iff in H as [-> H]. by rewrite IH.
  - apply orb_false_iff in H as [_ H]. by apply IH.
Qed.

Lemma dedup_from_idem (hashs : list Z) (l : list TuneContext) :
  dedup_from structural_hash structural_equal hashs
    (dedup_from structural_hash structural_equal hashs l)
  = dedup_from structural_hash structural_equal hashs l.
Proof.
  revert hashs. induction l as [|task rest IH]; intros hashs; [done|].
  cbn [dedup_from].
  destruct (bool_decide _) eqn:Hin; cbn [andb].
  - destruct (existsb _ rest) eqn:Hex.
    + apply IH.
    + cbn [dedup_from]. rewrite Hin. cbn [andb].
      rewrite (existsb_sublist _ _ rest (dedup_from_sublist _ _) Hex).
      by rewrite IH.
  - cbn [dedup_from]. rewrite Hin. cbn [andb]. by rewrite IH.
Qed.

(** C3. Running the deduplication loop of [tune_relay] a second time on its
    own output returns that output unchanged, whatever the structural hash
    and the structural equality are. *)
Theorem deduplicate_idempotent (tune_contexts : list TuneContext) :
  deduplicate structural_hash structural_equal
    (deduplicate structural_hash structural_equal tune_contexts)
  = deduplicate structural_hash structural_equal tune_contexts.
Proof.
  rewrite !deduplicate_dedup_from. apply dedup_from_idem.
Qed.

End DeduplicationFacts.

Lemma Forall_sublist {A} (P : A -> Prop) (l1 l2 : list A) :
  l1 `sublist_of` l2 -> Forall P l2 -> Forall P l1.
Proof.
  induction 1 as [|x l1 l2 _ IH|x l1 l2 _ IH]; intros Hall.
  - done.
  - inversion Hall; subst. constructor; auto.
  - inversion Hall; subst. auto.
Qed.

(** C2, on the code. For [A, B, A', C] with [A] and [A'] structurally equal,
    the loop keeps all four contexts: when [A'] is visited its hash is known,
    but only the contexts after it ([C]) are compared with it. *)
Theorem deduplicate_keeps_later_copy :
  let A := task_context "fused_dense" 1 in
  let B := task_context "fused_add" 2 in
  let A' := task_context "fused_dense_1" 1 in
  let C := task_context "fused_relu" 3 in
  body_equal (tc_mod A) (tc_mod A') = true
  /\ deduplicate body_hash body_equal [A; B; A'; C] = [A; B; A'; C].
Proof. vm_compute. split; reflexivity. Qed.

(** ** Program normalisation, [Parse._mod] *)

Lemma get_global_vars_singleton (func_name : string) (f : PrimFunc) :
  get_global_vars {[func_name := f]} = [func_name].
Proof. unfold get_global_vars. by rewrite map_to_list_singleton. Qed.

Lemma get_global_vars_length (m : IRModule) :
  length (get_global_vars m) = size m.
Proof. unfold get_global_vars. by rewrite length_fmap, length_map_to_list. Qed.

Lemma Parse_mod_PrimFunc (f : PrimFunc) :
  Parse._mod (VPrimFunc f)
  = Ok {["main" := with_attr (with_attr f "global_symbol" (AStr "main"))
                             "tir.noalias" (ABool true)]}.
Proof.
  unfold Parse._mod. rewrite get_global_vars_singleton. reflexivity.
Qed.

Lemma Parse_mod_one_entry (func_name : string) (f : PrimFunc) :
  Parse._mod (VIRModule {[func_name := f]}) = Ok {["main" := f]}.
Proof.
  unfold Parse._mod. rewrite get_global_vars_singleton. simpl.
  destruct (String.eqb_spec func_name "main") as [->|Hne]; simpl.
  - reflexivity.
  - by rewrite lookup_singleton_eq.
Qed.

(** C4. A bare PrimFunc is wrapped into a module whose only entry is named
    "main", whatever name ([global_symbol]) the function carried, and the only
    entry of a one-entry module is renamed to "main". *)
Theorem Parse_mod_canonical_name :
  (forall f : PrimFunc,
     exists f', Parse._mod (VPrimFunc f) = Ok {["main" := f']}
                /\ pf_attrs f' !! "global_symbol" = Some (AStr "main")
                /\ pf_body f' = pf_body f)
  /\ (forall (func_name : string) (f : PrimFunc),
        Parse._mod (VIRModule {[func_name := f]}) = Ok {["main" := f]})
  /\ (forall f : PrimFunc, get_global_vars {["main" := f]} = ["main"]).
Proof.
  split; [|split].
  - intros f. eexists. split; [apply Parse_mod_PrimFunc|]. split; [|done].
    simpl. rewrite lookup_insert_ne by done. apply lookup_insert_eq.
  - apply Parse_mod_one_entry.
  - intros f. apply get_global_vars_singleton.
Qed.

(** ** Default policies by target kind *)

(** C6. With no override ([None]) and a target whose kind is neither "llvm"
    nor "cuda", the rewrite rules, the post-processors and the mutator weights
    each raise [ValueError("Unsupported target: {target}")], the message
    carrying the target and so its kind. *)
Theorem default_policy_unsupported_target (target : Target) :
  name (kind target) <> "llvm" ->
  name (kind target) <> "cuda" ->
  let unsupported := ValueError [FLit "Unsupported target: "; FVal (VTarget target)] in
  Parse._sch_rules VNone target = Raise unsupported
  /\ Parse._postproc VNone target = Raise unsupported
  /\ Parse._mutator_probs VNone target = Raise unsupported.
Proof.
  intros Hllvm Hcuda. unfold Parse._sch_rules, Parse._postproc, Parse._mutator_probs.
  simpl.
  destruct (String.eqb_spec (name (kind target)) "llvm"); [done|].
  destruct (String.eqb_spec (name (kind target)) "cuda"); done.
Qed.

Lemma default_policy_unsupported_target_witness :
  Parse._sch_rules VNone rocm_target
  = Raise (ValueError [FLit "Unsupported target: "; FVal (VTarget rocm_target)])
  /\ Parse._postproc VNone rocm_target
     = Raise (ValueError [FLit "Unsupported target: "; FVal (VTarget rocm_target)])
  /\ Parse._mutator_probs VNone rocm_target
     = Raise (ValueError [FLit "Unsupported target: "; FVal (VTarget rocm_target)]).
Proof.
  apply (default_policy_unsupported_target rocm_target); simpl; discriminate.
Defined.

(** ** The shapes each override accepts *)

Lemma is_None_true (v : Value) : is_None v = true <-> v = VNone.
Proof. destruct v; simpl; split; congruence. Qed.

Lemma is_None_false (v : Value) : v <> VNone -> is_None v = false.
Proof. destruct v; simpl; congruence. Qed.

Lemma callable_not_None (v : Value) : callable v = true -> is_None v = false.
Proof. destruct v; simpl; congruence. Qed.

Lemma isinstance_not_None (v : Value) (c : string) :
  isinstance v c = true -> is_None v = false.
Proof. destruct v; simpl; congruence. Qed.

Lemma Parse_sch_rules_factory_only :
  factory_only Parse._sch_rules DefaultLLVM._sch_rules DefaultCUDA._sch_rules
    "Expected `sch_rules` to be None or callable, but gets: ".
Proof.
  unfold factory_only, Parse._sch_rules. split; [|split; [|split]].
  - intros target ->. reflexivity.
  - intros target ->. reflexivity.
  - intros v target ->. reflexivity.
  - intros v target Hn ->. by rewrite (is_None_false v Hn).
Qed.

Lemma Parse_postproc_factory_only :
  factory_only Parse._postproc DefaultLLVM._postproc DefaultCUDA._postproc
    "Expected `postproc` to be None or callable, but gets: ".
Proof.
  unfold factory_only, Parse._postproc. split; [|split; [|split]].
  - intros target ->. reflexivity.
  - intros target ->. reflexivity.
  - intros v target ->. reflexivity.
  - intros v target Hn ->. by rewrite (is_None_false v Hn).
Qed.

Lemma Parse_mutator_probs_factory_only :
  factory_only Parse._mutator_probs DefaultLLVM._mutator_probs DefaultCUDA._mutator_probs
    "Expected `mutator_probs` to be None or callable, but gets: ".
Proof.
  unfold factory_only, Parse._mutator_probs. split; [|split; [|split]].
  - intros target ->. reflexivity.
  - intros target ->. reflexivity.
  - intros v target ->. reflexivity.
  - intros v target Hn ->. by rewrite (is_None_false v Hn).
Qed.

Lemma Parse_builder_instance_only :
  instance_only Parse._builder "Builder" (obj "LocalBuilder" "Builder" [])
    "Expected `builder` to be Builder, but gets: ".
Proof.
  unfold instance_only, Parse._builder. split; [reflexivity|split].
  - intros v Hi. by rewrite (isinstance_not_None v _ Hi), Hi.
  - intros v Hn Hi. by rewrite (is_None_false v Hn), Hi.
Qed.

Lemma Parse_runner_instance_only :
  instance_only Parse._runner "Runner" (obj "LocalRunner" "Runner" [])
    "Expected `runner` to be Runner, but gets: ".
Proof.
  unfold instance_only, Parse._runner. split; [reflexivity|split].
  - intros v Hi. by rewrite (isinstance_not_None v _ Hi), Hi.
  - intros v Hn Hi. by rewrite (is_None_false v Hn), Hi.
Qed.

Lemma Parse_cost_model_instance_only :
  instance_only Parse._cost_model "CostModel"
    (obj "XGBModel" "CostModel" [("extractor", obj "PerStoreFeature" "FeatureExtractor" [])])
    "Expected `cost_model` to be CostModel, but gets: ".
Proof.
  unfold instance_only, Parse._cost_model. split; [reflexivity|split].
  - intros v Hi. by rewrite (isinstance_not_None v _ Hi), Hi.
  - intros v Hn Hi. by rewrite (is_None_false v Hn), Hi.
Qed.

Lemma Parse_database_shapes : database_shapes.
Proof.
  unfold database_shapes. intros task_name path.
  unfold Parse._database. split; [|split].
  - intros h tr. simpl. by destruct (h tr _).
  - intros v Hi. rewrite (isinstance_not_None v _ Hi). simpl. by rewrite Hi.
  - intros v Hn Hi. rewrite (is_None_false v Hn). simpl. by rewrite Hi.
Qed.

Lemma Parse_callbacks_shapes : callbacks_shapes.
Proof.
  unfold callbacks_shapes.
  split; [reflexivity|]. split; [|split].
  - intros l Hall.
    assert (list_find (fun cb => isinstance cb "MeasureCallback" = false) l = None) as Hfind.
    { apply list_find_None. eapply Forall_impl; [exact Hall|]. simpl. congruence. }
    unfold Parse._callbacks. simpl. by rewrite Hfind.
  - intros l i cb Hi Hcb Hbefore.
    assert (list_find (fun cb => isinstance cb "MeasureCallback" = false) l = Some (i, cb))
      as Hfind.
    { apply list_find_Some. split; [done|]. split; [done|].
      intros j cb' Hj Hlt. rewrite (Hbefore j cb' Hlt Hj). done. }
    unfold Parse._callbacks. simpl. by rewrite Hfind.
  - intros v Hn Hshape. unfold Parse._callbacks. rewrite (is_None_false v Hn).
    destruct v; try reflexivity.
    + by destruct (Hshape l) as [? _].
    + by destruct (Hshape l) as [_ ?].
Qed.

Lemma Parse_space_generator_shapes : space_generator_shapes.
Proof.
  unfold space_generator_shapes.
  unfold Parse._space_generator, check_instance. split; [reflexivity|split; [|split]].
  - intros v h tr Hc. rewrite (callable_not_None v Hc), Hc. simpl.
    destruct (h tr (ECall v [])) as [r|e]; simpl; [|done].
    by destruct (isinstance r "SpaceGenerator").
  - intros v Hc Hi. rewrite (isinstance_not_None v _ Hi), Hc. simpl. by rewrite Hi.
  - intros v Hn Hc Hi. rewrite (is_None_false v Hn), Hc. simpl. by rewrite Hi.
Qed.

Lemma Parse_task_scheduler_shapes : task_scheduler_shapes.
Proof.
  unfold task_scheduler_shapes. intros tasks builder runner database cost_model measure_callbacks.
  unfold Parse._task_scheduler. split; [reflexivity|split; [|split]].
  - intros v Hc. by rewrite (callable_not_None v Hc), Hc.
  - intros v Hc Hi. by rewrite (isinstance_not_None v _ Hi), Hc, Hi.
  - intros v Hn Hc Hi. by rewrite (is_None_false v Hn), Hc, Hi.
Qed.

(** A zero-argument factory passed as [builder] is rejected, and so is a
    ready-made list of rules passed as [sch_rules]: the three shapes [None],
    instance and factory are not accepted by every parameter. *)
Lemma override_three_shapes_counterexample :
  callable (VFunc 0) = true
  /\ Parse._builder (VFunc 0)
     = Err (TypeError [FLit "Expected `builder` to be Builder, but gets: "; FVal (VFunc 0)])
  /\ Parse._sch_rules DefaultLLVM._sch_rules llvm_target
     = Raise (TypeError [FLit "Expected `sch_rules` to be None or callable, but gets: ";
                         FVal DefaultLLVM._sch_rules]).
Proof. repeat split. Qed.

(** C5 (amended). Every override accepts [None]; beyond that the accepted
    shapes depend on the parameter: builder, runner, cost model and database
    take an instance only; the measurement callbacks a list or tuple of
    callbacks; the space generator an instance or a zero-argument factory
    whose result is validated; rewrite rules, post-processors and mutator
    weights a zero-argument factory only; the scheduler an instance or a
    factory applied to the tasks and collaborators.  Any other value raises a
    [TypeError] whose message names the parameter and carries the value. *)
Theorem override_shapes :
  instance_only Parse._builder "Builder" (obj "LocalBuilder" "Builder" [])
    "Expected `builder` to be Builder, but gets: "
  /\ instance_only Parse._runner "Runner" (obj "LocalRunner" "Runner" [])
       "Expected `runner` to be Runner, but gets: "
  /\ instance_only Parse._cost_model "CostModel"
       (obj "XGBModel" "CostModel"
            [("extractor", obj "PerStoreFeature" "FeatureExtractor" [])])
       "Expected `cost_model` to be CostModel, but gets: "
  /\ database_shapes
  /\ callbacks_shapes
  /\ space_generator_shapes
  /\ factory_only Parse._sch_rules DefaultLLVM._sch_rules DefaultCUDA._sch_rules
       "Expected `sch_rules` to be None or callable, but gets: "
  /\ factory_only Parse._postproc DefaultLLVM._postproc DefaultCUDA._postproc
       "Expected `postproc` to be None or callable, but gets: "
  /\ factory_only Parse._mutator_probs DefaultLLVM._mutator_probs
       DefaultCUDA._mutator_probs
       "Expected `mutator_probs` to be None or callable, but gets: "
  /\ task_scheduler_shapes.
Proof.
  exact (conj Parse_builder_instance_only
         (conj Parse_runner_instance_only
         (conj Parse_cost_model_instance_only
         (conj Parse_database_shapes
         (conj Parse_callbacks_shapes
         (conj Parse_space_generator_shapes
         (conj Parse_sch_rules_factory_only
         (conj Parse_postproc_factory_only
         (conj Parse_mutator_probs_factory_only
               Parse_task_scheduler_shapes))))))))).
Qed.

(** A plain integer passed as [builder]: the error names [builder] and
    carries the integer. *)
Lemma override_shapes_witness :
  Parse._builder (VInt 3)
  = Err (TypeError [FLit "Expected `builder` to be Builder, but gets: "; FVal (VInt 3)]).
Proof.
  destruct override_shapes as [(_ & _ & Hother) _].
  apply Hother; [discriminate|reflexivity].
Defined.

(** ** Reasoning about runs *)

Lemma wp_mono {A} (p : Prog A) (Q Q' : Res A -> list Event -> Prop) :
  (forall res ev, Q res ev -> Q' res ev) -> wp p Q -> wp p Q'.
Proof.
  revert Q Q'. induction p as [a|e|c k IH]; simpl; intros Q Q' HQ H; auto.
  intros r. eapply IH; [|apply H]. simpl. auto.
Qed.

Lemma wp_bind {A B} (p : Prog A) (f : A -> Prog B) (Q : Res B -> list Event -> Prop) :
  wp p (fun res ev =>
          match res with
          | Ok a => wp (f a) (fun res' ev' => Q res' (ev ++ ev'))
          | Err e => Q (Err e) ev
          end) ->
  wp (bind p f) Q.
Proof.
  revert Q. induction p as [a|e|c k IH]; simpl; intros Q H.
  - exact H.
  - exact H.
  - intros r. apply IH. eapply wp_mono; [|apply H].
    intros [a|e] ev; simpl; auto.
Qed.

Lemma wp_run {A} (p : Prog A) (Q : Res A -> list Event -> Prop) (h : Handler)
    (tr : list Event) :
  wp p Q -> exists ev, (run h p tr).2 = tr ++ ev /\ Q (run h p tr).1 ev.
Proof.
  revert Q tr. induction p as [a|e|c k IH]; simpl; intros Q tr H.
  - exists []. by rewrite app_nil_r.
  - exists []. by rewrite app_nil_r.
  - destruct (IH (h tr c) _ (tr ++ [(c, h tr c)]) (H (h tr c))) as (ev & Htr & HQ).
    exists ((c, h tr c) :: ev). split; [|done].
    by rewrite Htr, <- app_assoc.
Qed.

Lemma wp_True {A} (p : Prog A) : wp p (fun _ _ => True).
Proof. induction p as [a|e|c k IH]; simpl; auto. Qed.

Lemma wp_conj {A} (p : Prog A) (Q1 Q2 : Res A -> list Event -> Prop) :
  wp p Q1 -> wp p Q2 -> wp p (fun res ev => Q1 res ev /\ Q2 res ev).
Proof.
  revert Q1 Q2. induction p as [a|e|c k IH]; simpl; intros Q1 Q2 H1 H2.
  - by split.
  - by split.
  - intros r. apply (IH r (fun res ev => Q1 res ((c, r) :: ev))
                        (fun res ev => Q2 res ((c, r) :: ev))); auto.
Qed.

Lemma wp_inhabited {A} (p : Prog A) (Q : Res A -> list Event -> Prop) :
  wp p Q -> exists res ev, Q res ev.
Proof.
  revert Q. induction p as [a|e|c k IH]; simpl; intros Q H; eauto.
  destruct (IH (Ok VNone) _ (H (Ok VNone))) as (res & ev & HQ). eauto.
Qed.

Lemma only_Ret {A} C (a : A) : only C (Ret a).
Proof. constructor. Qed.

Lemma only_Raise {A} C (e : Exn) : only C (@Raise A e).
Proof. constructor. Qed.

Lemma only_lift {A} C (r : Res A) : only C (lift r).
Proof. destruct r; constructor. Qed.

Lemma only_ext C (c : ExtCall) : C c -> only C (ext c).
Proof. intros Hc [v|e]; simpl; by repeat constructor. Qed.

Lemma only_bind {A B} C (p : Prog A) (f : A -> Prog B) :
  only C p -> (forall a, only C (f a)) -> only C (bind p f).
Proof.
  intros Hp Hf. apply wp_bind. eapply wp_mono; [|exact Hp].
  intros [a|e] ev Hev; simpl; [|done].
  eapply wp_mono; [|apply Hf]. intros res ev' Hev'. simpl in *.
  by apply Forall_app.
Qed.

(** Sequencing after a program whose calls all satisfy [C], for a
    postcondition that calls satisfying [C] do not disturb. *)
Lemma wp_bind_only {A B} C (p : Prog A) (f : A -> Prog B)
    (Q : Res B -> list Event -> Prop) :
  only C p ->
  (forall e ev, Forall (fun e : Event => C e.1) ev -> Q (Err e) ev) ->
  (forall res ev ev', Forall (fun e : Event => C e.1) ev -> Q res ev' ->
                      Q res (ev ++ ev')) ->
  (forall a, wp (f a) Q) ->
  wp (bind p f) Q.
Proof.
  intros Hp Herr Hpre Hf. apply wp_bind. eapply wp_mono; [|exact Hp].
  intros [a|e] ev Hev; simpl in *; [|by apply Herr].
  eapply wp_mono; [|apply Hf]. intros res ev' HQ. by apply Hpre.
Qed.

Lemma only_mono {A} (C C' : ExtCall -> Prop) (p : Prog A) :
  (forall c, C c -> C' c) -> only C p -> only C' p.
Proof.
  intros HC. apply wp_mono. intros _ ev Hev.
  eapply Forall_impl; [exact Hev|]. intros e. apply HC.
Qed.

Lemma only_Ext_inv {A} (C : ExtCall -> Prop) (c : ExtCall) (k : Res Value -> Prog A) :
  only C (Ext c k) -> C c /\ forall r, only C (k r).
Proof.
  intros H. split.
  - destruct (wp_inhabited _ _ (H (Ok VNone))) as (res & ev & Hev).
    by inversion Hev.
  - intros r. eapply wp_mono; [|apply (H r)]. intros res ev Hev. by inversion Hev.
Qed.

Lemma only_try_finally {A} (C : ExtCall -> Prop) (p : Prog A) (fin : Prog unit) :
  only C p -> only C fin -> only C (try_finally p fin).
Proof.
  intros Hp Hfin. induction p as [a|e|c k IH]; cbn [try_finally].
  - apply only_bind; [done|]. intros _. apply only_Ret.
  - apply only_bind; [done|]. intros _. apply only_Raise.
  - apply only_Ext_inv in Hp as [Hc Hk]. intros r.
    eapply wp_mono; [|apply (IH r (Hk r))]. intros res ev Hev. by constructor.
Qed.

Lemma only_with {A} (C : ExtCall -> Prop) (ctx : Value) (body : Prog A) :
  (forall meth, meth <> "tune" -> C (EMethod ctx meth [])) ->
  only C body -> only C (with_ ctx body).
Proof.
  intros HC Hbody. unfold with_.
  apply only_bind; [by apply only_ext, HC|]. intros _.
  apply only_try_finally; [done|].
  apply only_bind; [by apply only_ext, HC|]. intros _. apply only_Ret.
Qed.

Lemma returns_Ret {A} (R : A -> Prop) (a : A) : R a -> returns R (Ret a).
Proof. intros Ha a' Heq. by inversion Heq; subst. Qed.

Lemma returns_Raise {A} (R : A -> Prop) (e : Exn) : returns R (Raise e).
Proof. intros a Heq. discriminate Heq. Qed.

Lemma returns_bind_with {A B} (R1 : A -> Prop) (R : B -> Prop) (p : Prog A)
    (f : A -> Prog B) :
  returns R1 p -> (forall a, R1 a -> returns R (f a)) -> returns R (bind p f).
Proof.
  intros Hp Hf. apply wp_bind. eapply wp_mono; [|exact Hp].
  intros [a|e] ev Ha; simpl.
  - eapply wp_mono; [|apply (Hf a (Ha a eq_refl))]. auto.
  - intros b Heq. discriminate Heq.
Qed.

Lemma returns_bind {A B} (R : B -> Prop) (p : Prog A) (f : A -> Prog B) :
  (forall a, returns R (f a)) -> returns R (bind p f).
Proof.
  intros Hf. apply (returns_bind_with (fun _ => True)); [|auto].
  eapply wp_mono; [|apply wp_True]. auto.
Qed.

Lemma only_bind_returns {A B} (C : ExtCall -> Prop) (R : A -> Prop) (p : Prog A)
    (f : A -> Prog B) :
  only C p -> returns R p -> (forall a, R a -> only C (f a)) -> only C (bind p f).
Proof.
  intros Hp HR Hf. apply wp_bind.
  eapply wp_mono; [|apply (wp_conj _ _ _ Hp HR)].
  intros [a|e] ev [Hev Ha]; simpl in *; [|done].
  eapply wp_mono; [|apply (Hf a (Ha a eq_refl))].
  intros res ev' Hev'. simpl in *. by apply Forall_app.
Qed.

Lemma run_only {A} (C : ExtCall -> Prop) (p : Prog A) (h : Handler) (res : Res A)
    (tr : list Event) :
  only C p -> run h p [] = (res, tr) -> Forall (fun e : Event => C e.1) tr.
Proof.
  intros Hp Hrun. destruct (wp_run _ _ h [] Hp) as (ev & Htr & Hev).
  rewrite Hrun in Htr. simpl in Htr. by subst.
Qed.

Lemma run_returns {A} (R : A -> Prop) (p : Prog A) (h : Handler) (tr tr' : list Event)
    (a : A) :
  returns R p -> run h p tr = (Ok a, tr') -> R a.
Proof.
  intros Hp Hrun. destruct (wp_run _ _ h tr Hp) as (ev & _ & Ha).
  rewrite Hrun in Ha. by apply Ha.
Qed.

(** ** The calls made while the inputs are parsed *)

Lemma parse_call_setup_call (c : ExtCall) : parse_call c -> setup_call c.
Proof. by destruct c. Qed.

Lemma only_setup_call {A} (p : Prog A) : only parse_call p -> only setup_call p.
Proof. apply only_mono, parse_call_setup_call. Qed.

Lemma only_logger_info fmt args : only parse_call (logger_info fmt args).
Proof. apply only_bind; [by apply only_ext|]. intros _. apply only_Ret. Qed.

Lemma only_Parse_target target : only parse_call (Parse._target target).
Proof.
  apply only_bind.
  - destruct (is_str target); [by apply only_ext|apply only_Ret].
  - intros []; first [apply only_Ret | apply only_Raise].
Qed.

Lemma only_Parse_database database task_name path :
  only parse_call (Parse._database database task_name path).
Proof.
  apply only_bind.
  - destruct (is_None database); [|apply only_Ret].
    apply only_bind; [apply only_logger_info|]. intros _. apply only_Ret.
  - intros v. destruct (negb _); [apply only_Raise|apply only_Ret].
Qed.

Lemma only_Parse_space_generator v : only parse_call (Parse._space_generator v).
Proof.
  unfold Parse._space_generator. destruct (is_None v); [apply only_Ret|].
  apply only_bind.
  - destruct (callable v); [by apply only_ext|apply only_Ret].
  - intros r. destruct (negb _); [apply only_Raise|apply only_Ret].
Qed.

Lemma only_Parse_sch_rules v target : only parse_call (Parse._sch_rules v target).
Proof.
  unfold Parse._sch_rules.
  repeat (case_match; first [by apply only_ext | apply only_Ret | apply only_Raise | idtac]).
Qed.

Lemma only_Parse_postproc v target : only parse_call (Parse._postproc v target).
Proof.
  unfold Parse._postproc.
  repeat (case_match; first [by apply only_ext | apply only_Ret | apply only_Raise | idtac]).
Qed.

Lemma only_Parse_mutator_probs v target :
  only parse_call (Parse._mutator_probs v target).
Proof.
  unfold Parse._mutator_probs.
  repeat (case_match; first [by apply only_ext | apply only_Ret | apply only_Raise | idtac]).
Qed.

Lemma only_Parse_tune_context tune_context mod_ target config task_name
    space_generator sch_rules postprocs mutator_probs num_threads :
  only parse_call
    (Parse._tune_context tune_context mod_ target config task_name space_generator
       sch_rules postprocs mutator_probs num_threads).
Proof.
  unfold Parse._tune_context. destruct (is_None tune_context).
  - apply only_bind; [apply only_Parse_space_generator|]. intros sg.
    apply only_bind; [by apply only_ext|]. intros ss.
    apply only_bind; [apply only_Parse_sch_rules|]. intros sr.
    apply only_bind; [apply only_Parse_postproc|]. intros pp.
    apply only_bind; [apply only_Parse_mutator_probs|]. intros mp.
    apply only_Ret.
  - destruct tune_context; first [apply only_Ret | apply only_Raise].
Qed.

Lemma only_Parse_task_scheduler v tasks builder runner database cost_model callbacks :
  only setup_call
    (Parse._task_scheduler v tasks builder runner database cost_model callbacks).
Proof.
  unfold Parse._task_scheduler.
  repeat (case_match; first [by apply only_ext | apply only_Ret | apply only_Raise | idtac]).
Qed.

(** ** The single-program flow, [tune_tir] *)

Lemma setup_call_not_watched (ev : list Event) :
  Forall (fun e : Event => setup_call e.1) ev -> ~ no_record ev /\ ~ saved ev.
Proof.
  intros Hall. rewrite Forall_forall in Hall. split.
  - intros (db & args & bests & Hin & _). by specialize (Hall _ Hin).
  - intros (recv & args & r & Hin). by specialize (Hall _ Hin).
Qed.

Lemma tune_tir_post_Err work_dir kw e ev :
  Forall (fun e : Event => setup_call e.1) ev -> tune_tir_post work_dir kw (Err e) ev.
Proof.
  intros Hall. destruct (setup_call_not_watched ev Hall) as [Hn _].
  split; [done|]. intros sch H. discriminate H.
Qed.

Lemma tune_tir_post_prefix work_dir kw res ev ev' :
  Forall (fun e : Event => setup_call e.1) ev ->
  tune_tir_post work_dir kw res ev' -> tune_tir_post work_dir kw res (ev ++ ev').
Proof.
  intros Hall [H1 H2]. destruct (setup_call_not_watched ev Hall) as [Hn Hs].
  assert (Hrec : no_record (ev ++ ev') <-> no_record ev').
  { split; intros (db & args & bests & Hin & Hb).
    - apply elem_of_app in Hin as [Hin|Hin]; [|by exists db, args, bests].
      destruct Hn. by exists db, args, bests.
    - exists db, args, bests. split; [|done]. apply elem_of_app. by right. }
  split.
  - intros Hr. apply Hrec in Hr. destruct (H1 Hr) as [-> Hns]. split; [done|].
    intros (recv & args & r & Hin). apply elem_of_app in Hin as [Hin|Hin].
    + apply Hs. by exists recv, args, r.
    + apply Hns. by exists recv, args, r.
  - intros sch Hres. destruct (H2 sch Hres) as [Hr|(sched & r & Hlast)].
    + left. by apply Hrec.
    + right. exists sched, r. rewrite last_app, Hlast. done.
Qed.

(** Closes the goals about the calls listed explicitly at the end of a run. *)
Ltac trace_facts :=
  repeat match goal with
  | H : no_record _ |- _ => destruct H as (? & ? & ? & ? & ?)
  | H : saved _ |- _ => destruct H as (? & ? & ? & ?)
  | H : _ ∈ _ :: _ |- _ => apply elem_of_cons in H as [H|H]
  | H : _ ∈ [] |- _ => by apply elem_of_nil in H
  | H : (_, _) = (_, _) |- _ => inversion H; clear H; subst
  end; try congruence.

Lemma tune_tir_wp (mod_ target config : Value) (work_dir : string) (kw : Kwargs) :
  wp (tune_tir mod_ target config work_dir kw) (tune_tir_post work_dir kw).
Proof.
  unfold tune_tir.
  assert (Herr := tune_tir_post_Err work_dir kw).
  assert (Hpre := tune_tir_post_prefix work_dir kw).
  apply (wp_bind_only setup_call); [apply only_setup_call, only_logger_info|done|done|intros _].
  apply (wp_bind_only setup_call); [apply only_lift|done|done|intros m].
  apply (wp_bind_only setup_call); [apply only_setup_call, only_Parse_database|done|done|intros database].
  apply (wp_bind_only setup_call); [apply only_setup_call, only_Parse_target|done|done|intros tgt].
  apply (wp_bind_only setup_call); [apply only_setup_call, only_Parse_tune_context|done|done|intros ctx].
  apply (wp_bind_only setup_call); [apply only_lift|done|done|intros builder].
  apply (wp_bind_only setup_call); [apply only_lift|done|done|intros runner].
  apply (wp_bind_only setup_call); [apply only_lift|done|done|intros cost_model].
  apply (wp_bind_only setup_call); [apply only_lift|done|done|intros callbacks].
  apply (wp_bind_only setup_call); [apply only_Parse_task_scheduler|done|done|intros sched].
  clear Herr Hpre. cbn [bind ext wp].
  intros [r1|e1]; cbn [bind wp].
  2:{ split; [intros Hr|intros sch Hres]; trace_facts. }
  intros [workload|e2]; cbn [bind wp].
  2:{ split; [intros Hr|intros sch Hres]; trace_facts. }
  intros [bests|e3]; cbn [bind wp].
  2:{ split; [intros Hr|intros sch Hres]; trace_facts. }
  destruct (truthy bests) eqn:Htruthy; cbn [negb bind wp].
  2:{ split.
      - intros _. split; [done|]. intros Hs. trace_facts.
      - intros sch _. left. exists database, [workload; VInt 1], bests.
        split; [|done]. set_solver. }
  destruct (len bests) as [n|e4]; cbn [lift bind wp].
  2:{ split; [intros Hr|intros sch Hres]; trace_facts. }
  destruct (bool_decide (n = 1%nat)); cbn [negb bind wp].
  2:{ split; [intros Hr|intros sch Hres]; trace_facts. }
  intros [sch|e5]; cbn [bind wp].
  2:{ split; [intros Hr|intros sch Hres]; trace_facts. }
  destruct (getitem bests 0) as [best|e6]; cbn [lift bind wp].
  2:{ split; [intros Hr|intros sch' Hres]; trace_facts. }
  intros [r7|e7]; cbn [bind wp].
  2:{ split; [intros Hr|intros sch' Hres]; trace_facts. }
  intros [r8|e8]; cbn [bind wp].
  2:{ split; [intros Hr|intros sch' Hres]; trace_facts. }
  split; [intros Hr; trace_facts|].
  intros sch' _. right. by exists sched, r8.
Qed.

Lemma run_tune_tir_post (h : Handler) (mod_ target config : Value) (work_dir : string)
    (kw : Kwargs) (res : Res Value) (tr : list Event) :
  run h (tune_tir mod_ target config work_dir kw) [] = (res, tr) ->
  tune_tir_post work_dir kw res tr.
Proof.
  intros Hrun.
  destruct (wp_run _ _ h [] (tune_tir_wp mod_ target config work_dir kw))
    as (ev & Htr & HQ).
  rewrite Hrun in Htr, HQ. simpl in Htr, HQ. by subst.
Qed.

Lemma no_record_b_true (tr : list Event) : no_record_b tr = true -> no_record tr.
Proof.
  unfold no_record_b. rewrite existsb_exists. intros ([c r] & Hin & He).
  destruct c as [| |db meth args|]; try done. destruct r as [bests|]; [|done].
  apply andb_true_iff in He as [Hm Hb]. apply String.eqb_eq in Hm as ->.
  exists db, args, bests. split.
  - by apply list_elem_of_In.
  - by apply negb_true_iff.
Qed.

Lemma no_record_run_no_record : no_record no_record_run.2.
Proof. apply no_record_b_true. vm_compute. reflexivity. Qed.

(** C7. Whatever the collaborators do, a run of [tune_tir] in which the record
    store answers the top-1 query with no record returns [None]; it does not
    raise. *)
Theorem tune_tir_no_record_returns_None (h : Handler) (mod_ target config : Value)
    (work_dir : string) (kw : Kwargs) (res : Res Value) (tr : list Event) :
  run h (tune_tir mod_ target config work_dir kw) [] = (res, tr) ->
  no_record tr ->
  res = Ok VNone.
Proof.
  intros Hrun Hrec. by destruct (proj1 (run_tune_tir_post _ _ _ _ _ _ _ _ Hrun) Hrec).
Qed.

Lemma tune_tir_no_record_returns_None_witness : no_record_run.1 = Ok VNone.
Proof.
  apply (tune_tir_no_record_returns_None (store_handler [])
           (VPrimFunc matmul) (VTarget llvm_target) replay_config "/tmp/work"
           default_kwargs no_record_run.1 no_record_run.2).
  - unfold no_record_run. by destruct (run _ _ _).
  - apply no_record_run_no_record.
Defined.

(** With an empty record store the scheduler runs to completion and
    [tune_tir] returns [None] without any save call. *)
Lemma tune_tir_save_unconditional_counterexample :
  no_record_run.1 = Ok VNone
  /\ calls_method "tune" no_record_run.2 = true
  /\ calls_method "get_top_k" no_record_run.2 = true
  /\ calls_method "cost_model.save" no_record_run.2 = false.
Proof. vm_compute. repeat split. Qed.

(** C8 (amended). In [tune_tir] the cost model is saved only when a record was
    found: a run in which the record store answers with no record makes no
    save call, and a run that returns a value either had no record or ended
    with the save call to [{work_dir}/{task_name}.xgb]. *)
Theorem tune_tir_saves_only_with_record (h : Handler) (mod_ target config : Value)
    (work_dir : string) (kw : Kwargs) (res : Res Value) (tr : list Event) :
  run h (tune_tir mod_ target config work_dir kw) [] = (res, tr) ->
  (no_record tr -> ~ saved tr)
  /\ (forall sch, res = Ok sch ->
        no_record tr
        \/ exists sched r,
             last tr
             = Some (EMethod sched "cost_model.save"
                             [VStr (os_path_join work_dir (kw_task_name kw +:+ ".xgb"))],
                     Ok r)).
Proof.
  intros Hrun. destruct (run_tune_tir_post _ _ _ _ _ _ _ _ Hrun) as [H1 H2].
  split; [|exact H2]. intros Hrec. by destruct (H1 Hrec).
Qed.

Lemma tune_tir_saves_only_with_record_witness :
  (no_record one_record_run.2 -> ~ saved one_record_run.2)
  /\ (forall sch, one_record_run.1 = Ok sch ->
        no_record one_record_run.2
        \/ exists sched r,
             last one_record_run.2
             = Some (EMethod sched "cost_model.save" [VStr "/tmp/work/main.xgb"], Ok r)).
Proof.
  apply (tune_tir_saves_only_with_record (store_handler [obj "TuningRecord" "object" []])
           (VPrimFunc matmul) (VTarget llvm_target) replay_config "/tmp/work"
           default_kwargs one_record_run.1 one_record_run.2).
  unfold one_record_run. by destruct (run _ _ _).
Defined.

(** The run with one record does end with the save call. *)
Lemma one_record_run_saves :
  one_record_run.1 = Ok (obj "Schedule" "object" [])
  /\ calls_method "cost_model.save" one_record_run.2 = true.
Proof. vm_compute. repeat split. Qed.

(** ** The random state of the contexts the entry points build *)

Lemma parse_call_handoff_ok d (c : ExtCall) : parse_call c -> handoff_ok d c.
Proof.
  destruct c as [f args|cls args|recv meth args|fn args]; simpl; try done.
  - by intros ->.
  - by intros -> _ ?.
Qed.

Lemma only_handoff {A} d (p : Prog A) : only parse_call p -> only (handoff_ok d) p.
Proof. apply only_mono, parse_call_handoff_ok. Qed.

Lemma handoff_ok_method d recv meth args :
  meth <> "tune" -> handoff_ok d (EMethod recv meth args).
Proof. intros Hne _ Hm. by destruct Hne. Qed.

Lemma returns_Parse_tune_context mod_ target config task_name space_generator
    sch_rules postprocs mutator_probs num_threads :
  returns seed_fixed
    (Parse._tune_context VNone mod_ target config task_name space_generator
       sch_rules postprocs mutator_probs num_threads).
Proof.
  unfold Parse._tune_context. cbn [is_None].
  do 5 (apply returns_bind; intros ?).
  by apply returns_Ret.
Qed.

Lemma only_handoff_task_scheduler v tasks builder runner database cost_model callbacks :
  Forall seed_fixed tasks ->
  only (handoff_ok (is_None v))
       (Parse._task_scheduler v tasks builder runner database cost_model callbacks).
Proof.
  intros Hseed. unfold Parse._task_scheduler.
  destruct (is_None v); [apply only_Ret|].
  destruct (callable v).
  - apply only_ext. simpl. intros ctx Hin.
    apply list_elem_of_fmap in Hin as (c & Heq & Hc). inversion Heq; subst.
    rewrite Forall_forall in Hseed. by apply Hseed.
  - destruct (negb _); [apply only_Raise|apply only_Ret].
Qed.

Lemma returns_default_task_scheduler v tasks builder runner database cost_model callbacks :
  returns (fun sched =>
             is_None v = true ->
             getattr sched "tasks" = Ok (VList (VTuneContext <$> tasks)))
    (Parse._task_scheduler v tasks builder runner database cost_model callbacks).
Proof.
  unfold Parse._task_scheduler. destruct (is_None v).
  - by apply returns_Ret.
  - eapply wp_mono; [|apply wp_True]. intros res ev _ a _ Hd. discriminate Hd.
Qed.

(** Solves [only (handoff_ok d) p] for a straight-line [p] that calls no
    factory and no [tune]. *)
Ltac only_tail :=
  repeat first
    [ apply only_Ret
    | apply only_Raise
    | apply only_lift
    | apply only_bind; [|intros ?]
    | apply only_ext; first [exact I | by apply handoff_ok_method]
    | case_match ].

Lemma tune_tir_handoff (mod_ target config : Value) (work_dir : string) (kw : Kwargs) :
  only (handoff_ok (is_None (kw_task_scheduler kw)))
       (tune_tir mod_ target config work_dir kw).
Proof.
  unfold tune_tir.
  apply only_bind; [apply only_handoff, only_logger_info|intros _].
  apply only_bind; [apply only_lift|intros m].
  apply only_bind; [apply only_handoff, only_Parse_database|intros database].
  apply only_bind; [apply only_handoff, only_Parse_target|intros tgt].
  apply (only_bind_returns _ seed_fixed);
    [apply only_handoff, only_Parse_tune_context|apply returns_Parse_tune_context|].
  intros ctx Hctx.
  apply only_bind; [apply only_lift|intros builder].
  apply only_bind; [apply only_lift|intros runner].
  apply only_bind; [apply only_lift|intros cost_model].
  apply only_bind; [apply only_lift|intros callbacks].
  eapply only_bind_returns;
    [apply only_handoff_task_scheduler; by repeat constructor
    |apply returns_default_task_scheduler|].
  intros sched Hsched. cbv beta in Hsched.
  apply only_bind.
  { apply only_ext. intros Hd _. exists [ctx]. split; [by apply Hsched|].
    by repeat constructor. }
  intros _. only_tail.
Qed.

Lemma only_parse_task target config kw task :
  only parse_call (parse_task target config kw task).
Proof.
  unfold parse_task.
  apply only_bind; [apply only_lift|intros dispatched].
  apply only_bind; [apply only_lift|intros n].
  destruct (negb _); [apply only_Raise|].
  apply only_bind; [apply only_lift|intros dispatched0].
  apply only_bind; [apply only_lift|intros m].
  apply only_bind; [apply only_lift|intros task_name].
  apply only_Parse_tune_context.
Qed.

Lemma returns_parse_task target config kw task :
  returns seed_fixed (parse_task target config kw task).
Proof.
  unfold parse_task.
  do 2 (apply returns_bind; intros ?).
  destruct (negb _); [apply returns_Raise|].
  do 3 (apply returns_bind; intros ?).
  apply returns_Parse_tune_context.
Qed.

Lemma only_parse_tasks target config kw extracted_tasks :
  only parse_call (parse_tasks target config kw extracted_tasks).
Proof.
  induction extracted_tasks as [|task rest IH]; cbn [parse_tasks].
  - apply only_Ret.
  - apply only_bind; [apply only_parse_task|intros c].
    apply only_bind; [apply IH|intros cs]. apply only_Ret.
Qed.

Lemma returns_parse_tasks target config kw extracted_tasks :
  returns (Forall seed_fixed) (parse_tasks target config kw extracted_tasks).
Proof.
  induction extracted_tasks as [|task rest IH]; cbn [parse_tasks].
  - by apply returns_Ret.
  - apply (returns_bind_with seed_fixed); [apply returns_parse_task|intros c Hc].
    apply (returns_bind_with (Forall seed_fixed)); [apply IH|intros cs Hcs].
    apply returns_Ret. by constructor.
Qed.

Lemma tune_relay_handoff structural_hash structural_equal (mod_ target config : Value)
    (work_dir : string) (params : Value) (kw : Kwargs) :
  only (handoff_ok (is_None (kw_task_scheduler kw)))
       (tune_relay structural_hash structural_equal mod_ target config work_dir params kw).
Proof.
  unfold tune_relay.
  apply only_bind; [apply only_handoff, only_logger_info|intros _].
  apply only_bind; [by apply only_ext|intros extracted].
  apply only_bind; [apply only_handoff, only_Parse_target|intros tgt].
  apply only_bind; [apply only_handoff, only_Parse_database|intros database].
  apply only_bind; [apply only_lift|intros items].
  apply (only_bind_returns _ (Forall seed_fixed));
    [apply only_handoff, only_parse_tasks|apply returns_parse_tasks|].
  intros tune_contexts Hseed.
  apply only_bind; [apply only_handoff, only_logger_info|intros _].
  apply only_bind; [apply only_handoff, only_logger_info|intros _].
  apply only_bind; [apply only_lift|intros builder].
  apply only_bind; [apply only_lift|intros runner].
  apply only_bind; [apply only_lift|intros cost_model].
  apply only_bind; [apply only_lift|intros callbacks].
  pose proof (Forall_sublist _ _ _
                (deduplicate_sublist structural_hash structural_equal tune_contexts) Hseed)
    as Htasks.
  eapply only_bind_returns;
    [by apply only_handoff_task_scheduler|apply returns_default_task_scheduler|].
  intros sched Hsched. cbv beta in Hsched.
  apply only_bind.
  { apply only_ext. intros Hd _. eexists. split; [by apply Hsched|done]. }
  intros _.
  apply only_bind; [by apply only_ext|intros history].
  apply only_with; [intros meth Hm; by apply handoff_ok_method|].
  apply only_bind; [by apply only_ext|intros pass_context].
  apply only_with; [intros meth Hm; by apply handoff_ok_method|].
  by apply only_ext.
Qed.

(** C10. A context built by [Parse._tune_context] without a context override
    has [rand_state = -1], whatever the other arguments and the collaborators
    are; and in every run of [tune_tir] and [tune_relay] the contexts handed
    to a scheduler factory, or held by the default scheduler when it is run,
    all have [rand_state = -1]. *)
Theorem tune_context_rand_state_fixed :
  (forall (h : Handler) (tr tr' : list Event) (mod_ : IRModule) (target : Target)
          (config task_name space_generator sch_rules postprocs mutator_probs
             num_threads : Value) (c : TuneContext),
     run h (Parse._tune_context VNone mod_ target config task_name space_generator
              sch_rules postprocs mutator_probs num_threads) tr = (Ok c, tr') ->
     tc_rand_state c = -1)
  /\ (forall (h : Handler) (mod_ target config : Value) (work_dir : string)
             (kw : Kwargs) (res : Res Value) (tr : list Event),
        run h (tune_tir mod_ target config work_dir kw) [] = (res, tr) ->
        Forall (fun e : Event => handoff_ok (is_None (kw_task_scheduler kw)) e.1) tr)
  /\ (forall structural_hash structural_equal (h : Handler) (mod_ target config : Value)
             (work_dir : string) (params : Value) (kw : Kwargs) (res : Res Value)
             (tr : list Event),
        run h (tune_relay structural_hash structural_equal mod_ target config work_dir
                 params kw) [] = (res, tr) ->
        Forall (fun e : Event => handoff_ok (is_None (kw_task_scheduler kw)) e.1) tr).
Proof.
  split; [|split].
  - intros h tr tr' mod_ target config task_name sg sr pp mp nt c Hrun.
    exact (run_returns _ _ _ _ _ _ (returns_Parse_tune_context _ _ _ _ _ _ _ _ _) Hrun).
  - intros h mod_ target config work_dir kw res tr Hrun.
    exact (run_only _ _ _ _ _ (tune_tir_handoff _ _ _ _ _) Hrun).
  - intros sh se h mod_ target config work_dir params kw res tr Hrun.
    exact (run_only _ _ _ _ _ (tune_relay_handoff _ _ _ _ _ _ _ _) Hrun).
Qed.

Lemma tune_context_rand_state_fixed_witness :
  match sample_context_run.1 with
  | Ok c => tc_rand_state c = -1
  | Err _ => False
  end.
Proof.
  destruct sample_context_run as [[c|e] tr] eqn:Hrun; simpl.
  - exact (proj1 tune_context_rand_state_fixed _ _ _ _ _ _ _ _ _ _ _ _ _ Hrun).
  - vm_compute in Hrun. discriminate Hrun.
Defined.

(** ** The whole-model flow on five tasks *)

(** C1, on the code. With five extracted tasks of which two are structurally
    equal, [tune_relay] reports 5 tasks before and 5 after deduplication and
    runs the scheduler on 5 tasks. *)
Theorem tune_relay_five_tasks_two_equal :
  logged "Before task deduplication: %d tasks" five_tasks_run.2 = [[VInt 5]]
  /\ logged "After task deduplication: %d tasks" five_tasks_run.2 = [[VInt 5]]
  /\ scheduled five_tasks_run.2 = [5%nat].
Proof. vm_compute. repeat split. Qed.

(** ** More on the deduplication loop *)

Section DeduplicationBehaviour.

Variable structural_hash : IRModule -> Z.
Variable structural_equal : IRModule -> IRModule -> bool.

(** X1. The loop returns a sub-list of its input: the surviving contexts
    keep the order of extraction, none is invented or repeated, and the
    count does not grow. *)
Theorem deduplicate_preserves_order (tune_contexts : list TuneContext) :
  deduplicate structural_hash structural_equal tune_contexts `sublist_of` tune_contexts
  /\ (length (deduplicate structural_hash structural_equal tune_contexts)
      <= length tune_contexts)%nat.
Proof.
  assert (Hsub := deduplicate_sublist structural_hash structural_equal tune_contexts).
  split; [done|]. by apply sublist_length.
Qed.

Lemma dedup_from_keeps_last (hashs : list Z) (l : list TuneContext) (t : TuneContext) :
  exists l', dedup_from structural_hash structural_equal hashs (l ++ [t]) = l' ++ [t].
Proof.
  revert hashs. induction l as [|task rest IH]; intros hashs; cbn [app dedup_from].
  - exists []. cbn [existsb]. by rewrite andb_false_r.
  - destruct (_ && _).
    + apply IH.
    + destruct (IH (hashs ++ [structural_hash (tc_mod task)])) as [l' ->].
      by exists (task :: l').
Qed.

(** X2. The first and the last context of the input always survive: the
    first because no hash is recorded yet, the last because no context comes
    after it. *)
Theorem deduplicate_keeps_first_and_last :
  (forall t l, exists l',
      deduplicate structural_hash structural_equal (t :: l) = t :: l')
  /\ (forall l t, exists l',
        deduplicate structural_hash structural_equal (l ++ [t]) = l' ++ [t]).
Proof.
  split.
  - intros t l. rewrite deduplicate_dedup_from. cbn [dedup_from].
    rewrite bool_decide_eq_false_2 by (apply not_elem_of_nil). cbn [andb]. eauto.
  - intros l t. rewrite deduplicate_dedup_from. apply dedup_from_keeps_last.
Qed.

Lemma dedup_from_no_equal_later (hashs : list Z) (l : list TuneContext) :
  ForallOrdPairs (fun t u => structural_equal (tc_mod t) (tc_mod u) = false) l ->
  dedup_from structural_hash structural_equal hashs l = l.
Proof.
  intros Hl. revert hashs.
  induction Hl as [|task rest Hrest _ IH]; intros hashs; [done|].
  cbn [dedup_from].
  assert (existsb (fun other_task =>
                     structural_equal (tc_mod task) (tc_mod other_task)) rest = false)
    as ->.
  { clear IH. induction Hrest as [|u rest Hu _ IHr]; [done|].
    cbn [existsb]. by rewrite Hu, IHr. }
  rewrite andb_false_r. by rewrite IH.
Qed.

(** X3. When no context is structurally equal to a later one, nothing is
    removed, whatever the hashes: contexts that merely share a hash all
    survive. *)
Theorem deduplicate_hash_collision_safe (tune_contexts : list TuneContext) :
  ForallOrdPairs (fun t u => structural_equal (tc_mod t) (tc_mod u) = false)
                 tune_contexts ->
  deduplicate structural_hash structural_equal tune_contexts = tune_contexts.
Proof.
  intros H. rewrite deduplicate_dedup_from. by apply dedup_from_no_equal_later.
Qed.

Lemma dedup_from_distinct_hashes (hashs : list Z) (l : list TuneContext) :
  NoDup (hashs ++ ((fun t => structural_hash (tc_mod t)) <$> l)) ->
  dedup_from structural_hash structural_equal hashs l = l.
Proof.
  revert hashs. induction l as [|task rest IH]; intros hashs Hnd; [done|].
  cbn [dedup_from]. cbn [fmap list_fmap] in Hnd.
  rewrite bool_decide_eq_false_2.
  2:{ apply NoDup_app in Hnd as (_ & Hdisj & _). intros Hin.
      apply (Hdisj _ Hin). by left. }
  cbn [andb]. rewrite IH; [done|].
  by rewrite <- app_assoc.
Qed.

(** X4. When the structural hashes are pairwise distinct nothing is removed,
    whatever [structural_equal] answers: the equality test is made only for
    a context whose hash was already recorded. *)
Theorem deduplicate_distinct_hashes (tune_contexts : list TuneContext) :
  NoDup ((fun t => structural_hash (tc_mod t)) <$> tune_contexts) ->
  deduplicate structural_hash structural_equal tune_contexts = tune_contexts.
Proof.
  intros H. rewrite deduplicate_dedup_from. by apply dedup_from_distinct_hashes.
Qed.

Hypothesis structural_equal_refl : forall m, structural_equal m m = true.
Hypothesis structural_equal_trans :
  forall m1 m2 m3,
    structural_equal m1 m2 = true -> structural_equal m2 m3 = true ->
    structural_equal m1 m3 = true.

Lemma dedup_from_covers (hashs : list Z) (l : list TuneContext) (t : TuneContext) :
  t ∈ l ->
  exists u, u ∈ dedup_from structural_hash structural_equal hashs l
            /\ structural_equal (tc_mod t) (tc_mod u) = true.
Proof.
  revert hashs t. induction l as [|task rest IH]; intros hashs t Hin.
  - by apply elem_of_nil in Hin.
  - cbn [dedup_from].
    destruct (bool_decide _ && existsb _ rest) eqn:Hdrop.
    + apply elem_of_cons in Hin as [->|Hin]; [|by apply IH].
      apply andb_true_iff in Hdrop as [_ Hex].
      apply existsb_exists in Hex as (r & Hr & Heq).
      apply list_elem_of_In in Hr.
      destruct (IH hashs r Hr) as (u & Hu & Hru).
      exists u. split; [done|]. by eapply structural_equal_trans.
    + apply elem_of_cons in Hin as [->|Hin].
      * exists task. split; [by left|apply structural_equal_refl].
      * destruct (IH (hashs ++ [structural_hash (tc_mod task)]) t Hin) as (u & Hu & Htu).
        exists u. split; [by right|done].
Qed.

(** X5. No program is lost: when structural equality is reflexive and
    transitive, every input context has a structurally equal context among
    the surviving ones. *)
Theorem deduplicate_covers_input (tune_contexts : list TuneContext) (t : TuneContext) :
  t ∈ tune_contexts ->
  exists u, u ∈ deduplicate structural_hash structural_equal tune_contexts
            /\ structural_equal (tc_mod t) (tc_mod u) = true.
Proof.
  intros Hin. rewrite deduplicate_dedup_from. by apply dedup_from_covers.
Qed.

End DeduplicationBehaviour.

(** All three contexts share the hash 0 and all survive. *)
Lemma deduplicate_hash_collision_safe_witness :
  deduplicate (fun _ => 0) body_equal distinct_contexts = distinct_contexts.
Proof.
  apply (deduplicate_hash_collision_safe (fun _ => 0) body_equal distinct_contexts).
  unfold distinct_contexts. repeat constructor.
Defined.

(** The hashes 1, 2, 3 differ and an equality that always answers [True]
    removes nothing. *)
Lemma deduplicate_distinct_hashes_witness :
  deduplicate body_hash (fun _ _ => true) distinct_contexts = distinct_contexts.
Proof.
  apply (deduplicate_distinct_hashes body_hash (fun _ _ => true) distinct_contexts).
  apply (bool_decide_unpack _). vm_compute. exact I.
Defined.

Lemma body_equal_refl (m : IRModule) : body_equal m m = true.
Proof. unfold body_equal. by apply bool_decide_eq_true_2. Qed.

Lemma body_equal_trans (m1 m2 m3 : IRModule) :
  body_equal m1 m2 = true -> body_equal m2 m3 = true -> body_equal m1 m3 = true.
Proof.
  unfold body_equal. intros H1 H2.
  apply bool_decide_eq_true_1 in H1. apply bool_decide_eq_true_1 in H2.
  apply bool_decide_eq_true_2. congruence.
Qed.

(** The third of [A, B, A', C] is represented in the output. *)
Lemma deduplicate_covers_input_witness :
  exists u, u ∈ deduplicate body_hash body_equal dense_contexts
            /\ body_equal (kernel 1) (tc_mod u) = true.
Proof.
  apply (deduplicate_covers_input body_hash body_equal body_equal_refl body_equal_trans
           dense_contexts (task_context "fused_dense_1" 1)).
  unfold dense_contexts. do 2 apply list_elem_of_further. apply list_elem_of_here.
Defined.

(** ** More on [Parse._mod] *)

Lemma IRModule_one_global (m : IRModule) (func_name : string) :
  get_global_vars m = [func_name] -> exists f, m = {[func_name := f]}.
Proof.
  unfold get_global_vars. intros H.
  destruct (map_to_list m) as [|[n f] [|? ?]] eqn:Hm; try discriminate H.
  inversion H; subst. exists f.
  rewrite <- (list_to_map_to_list m), Hm. simpl. by rewrite insert_empty.
Qed.

Lemma Parse_mod_Ok_inv (v : Value) (m : IRModule) :
  Parse._mod v = Ok m ->
  exists f, m = {["main" := f]}
            /\ ((exists f0, v = VPrimFunc f0)
                \/ exists func_name, v = VIRModule {[func_name := f]}).
Proof.
  intros H.
  destruct v as [| | | | | | | |f0|m0| | | |].
  1-8: discriminate H.
  3-6: discriminate H.
  - rewrite Parse_mod_PrimFunc in H. inversion H. eauto.
  - assert (exists func_name, get_global_vars m0 = [func_name]) as [func_name Hn].
    { unfold Parse._mod in H.
      destruct (get_global_vars m0) as [|n1 [|n2 ns]]; [discriminate H|eauto|discriminate H]. }
    destruct (IRModule_one_global m0 func_name Hn) as [f ->].
    rewrite Parse_mod_one_entry in H. inversion H. eauto.
Qed.

(** X6. Normalisation is idempotent: a module returned by [Parse._mod] is
    returned unchanged when it is normalised again. *)
Theorem Parse_mod_idempotent (v : Value) (m : IRModule) :
  Parse._mod v = Ok m -> Parse._mod (VIRModule m) = Ok m.
Proof.
  intros H. destruct (Parse_mod_Ok_inv v m H) as (f & -> & _).
  apply Parse_mod_one_entry.
Qed.

Lemma Parse_mod_idempotent_witness :
  Parse._mod (VIRModule {["main" := with_attr (with_attr matmul "global_symbol" (AStr "main"))
                                              "tir.noalias" (ABool true)]})
  = Ok {["main" := with_attr (with_attr matmul "global_symbol" (AStr "main"))
                             "tir.noalias" (ABool true)]}.
Proof.
  apply (Parse_mod_idempotent (VPrimFunc matmul)). apply Parse_mod_PrimFunc.
Defined.

(** X7. The outcomes of [Parse._mod]: it returns exactly for a PrimFunc and
    for a module with one global function, and the module returned has the
    single entry "main", holding the function of a one-entry input module
    unchanged; a module with no or several functions raises [ValueError]; any
    other value raises the [TypeError] that names [mod].  No other error is
    raised. *)
Theorem Parse_mod_outcomes (v : Value) :
  match Parse._mod v with
  | Ok m =>
      exists f, m = {["main" := f]}
                /\ ((exists f0, v = VPrimFunc f0)
                    \/ exists func_name, v = VIRModule {[func_name := f]})
  | Err e =>
      (exists m0 msg, v = VIRModule m0 /\ size m0 <> 1%nat /\ e = ValueError msg)
      \/ ((forall f0, v <> VPrimFunc f0) /\ (forall m0, v <> VIRModule m0)
          /\ e = TypeError [FLit "Expected `mod` to be PrimFunc or IRModule, but gets: ";
                            FVal v])
  end.
Proof.
  destruct (Parse._mod v) as [m|e] eqn:H; [by apply Parse_mod_Ok_inv|].
  destruct v as [| | | | | | | |f0|m0| | | |].
  1-8: (right; inversion H; done).
  3-6: (right; inversion H; done).
  - rewrite Parse_mod_PrimFunc in H. discriminate H.
  - left. pose proof (get_global_vars_length m0) as Hlen.
    destruct (get_global_vars m0) as [|n1 [|n2 ns]] eqn:Hn; cbn [length] in Hlen.
    + unfold Parse._mod in H. rewrite Hn in H. inversion H.
      eexists m0, _. split; [done|]. split; [lia|done].
    + destruct (IRModule_one_global m0 n1 Hn) as [f ->].
      rewrite Parse_mod_one_entry in H. discriminate H.
    + unfold Parse._mod in H. rewrite Hn in H. inversion H.
      eexists m0, _. split; [done|]. split; [lia|done].
Qed.

(** ** What the resolvers return *)

Lemma returns_lift {A} (r : Res A) : returns (fun a => r = Ok a) (lift r).
Proof. destruct r as [a|e]; [by apply returns_Ret|apply returns_Raise]. Qed.

Lemma Parse_builder_Ok (v b : Value) :
  Parse._builder v = Ok b -> isinstance b "Builder" = true.
Proof.
  unfold Parse._builder. set (b' := if is_None v then _ else _).
  destruct (isinstance b' "Builder") eqn:Hi; simpl; intros H; inversion H. by subst.
Qed.

Lemma Parse_runner_Ok (v r : Value) :
  Parse._runner v = Ok r -> isinstance r "Runner" = true.
Proof.
  unfold Parse._runner. set (r' := if is_None v then _ else _).
  destruct (isinstance r' "Runner") eqn:Hi; simpl; intros H; inversion H. by subst.
Qed.

Lemma Parse_cost_model_Ok (v c : Value) :
  Parse._cost_model v = Ok c -> isinstance c "CostModel" = true.
Proof.
  unfold Parse._cost_model. destruct (is_None v).
  - intros H. inversion H. reflexivity.
  - destruct (isinstance v "CostModel") eqn:Hi; simpl; intros H; inversion H. by subst.
Qed.

Lemma Parse_callbacks_Ok (v r : Value) :
  Parse._callbacks v = Ok r ->
  exists l, r = VList l /\ Forall (fun cb => isinstance cb "MeasureCallback" = true) l.
Proof.
  unfold Parse._callbacks. destruct (is_None v).
  - intros H. inversion H. eexists. split; [done|]. by repeat constructor.
  - assert (forall l,
              match list_find (fun callback => isinstance callback "MeasureCallback" = false) l
              with
              | Some (i, callback) =>
                  Err (TypeError
                         [FLit "Expected `measure_callbacks` to be List[MeasureCallback], but measure_callbacks[";
                          FNat i; FLit "] is: "; FVal callback])
              | None => Ok (VList l)
              end = Ok r ->
              exists l, r = VList l
                        /\ Forall (fun cb => isinstance cb "MeasureCallback" = true) l) as Hl.
    { intros l. destruct (list_find _ l) as [[i cb]|] eqn:Hfind; [discriminate|].
      intros H. inversion H. exists l. split; [done|].
      apply list_find_None in Hfind. eapply Forall_impl; [exact Hfind|].
      intros cb Hcb. simpl in Hcb. by destruct (isinstance cb "MeasureCallback"). }
    destruct v; try discriminate; apply Hl.
Qed.

Lemma returns_Parse_database (v : Value) (task_name path : string) :
  returns (fun d => isinstance d "Database" = true) (Parse._database v task_name path).
Proof.
  unfold Parse._database.
  apply returns_bind. intros d.
  destruct (isinstance d "Database") eqn:Hi; simpl;
    [by apply returns_Ret|apply returns_Raise].
Qed.

Lemma returns_Parse_space_generator (v : Value) :
  returns (fun g => isinstance g "SpaceGenerator" = true) (Parse._space_generator v).
Proof.
  unfold Parse._space_generator. destruct (is_None v); [by apply returns_Ret|].
  apply returns_bind. intros g.
  destruct (isinstance g "SpaceGenerator") eqn:Hi; simpl;
    [by apply returns_Ret|apply returns_Raise].
Qed.

(** X8. What a resolver returns is always valid, the default and the result
    of a factory included: the builder is a [Builder], the runner a [Runner],
    the cost model a [CostModel], the callbacks a list of [MeasureCallback]s
    (a tuple is turned into a list), the database a [Database] and the space
    generator a [SpaceGenerator]. *)
Theorem Parse_results_validated :
  (forall v b, Parse._builder v = Ok b -> isinstance b "Builder" = true)
  /\ (forall v r, Parse._runner v = Ok r -> isinstance r "Runner" = true)
  /\ (forall v c, Parse._cost_model v = Ok c -> isinstance c "CostModel" = true)
  /\ (forall v r, Parse._callbacks v = Ok r ->
        exists l, r = VList l
                  /\ Forall (fun cb => isinstance cb "MeasureCallback" = true) l)
  /\ (forall (h : Handler) (tr tr' : list Event) v task_name path d,
        run h (Parse._database v task_name path) tr = (Ok d, tr') ->
        isinstance d "Database" = true)
  /\ (forall (h : Handler) (tr tr' : list Event) v g,
        run h (Parse._space_generator v) tr = (Ok g, tr') ->
        isinstance g "SpaceGenerator" = true).
Proof.
  split; [exact Parse_builder_Ok|]. split; [exact Parse_runner_Ok|].
  split; [exact Parse_cost_model_Ok|]. split; [exact Parse_callbacks_Ok|]. split.
  - intros h tr tr' v task_name path d Hrun.
    exact (run_returns _ _ _ _ _ _ (returns_Parse_database v task_name path) Hrun).
  - intros h tr tr' v g Hrun.
    exact (run_returns _ _ _ _ _ _ (returns_Parse_space_generator v) Hrun).
Qed.

(** A tuple of two callbacks comes back as a list of callbacks. *)
Lemma Parse_results_validated_witness :
  exists l, Parse._callbacks (VTuple [obj "AddToDatabase" "MeasureCallback" [];
                                      obj "EchoStatistics" "MeasureCallback" []])
            = Ok (VList l)
            /\ Forall (fun cb => isinstance cb "MeasureCallback" = true) l.
Proof.
  destruct (proj1 (proj2 (proj2 (proj2 Parse_results_validated)))
              (VTuple [obj "AddToDatabase" "MeasureCallback" [];
                       obj "EchoStatistics" "MeasureCallback" []])
              (VList [obj "AddToDatabase" "MeasureCallback" [];
                      obj "EchoStatistics" "MeasureCallback" []]) eq_refl)
    as (l & Hl & Hall).
  exists l. split; [|done]. by rewrite <- Hl.
Defined.

(** ** The shape of the runs of [tune_tir] *)

Lemma after_calls_base {A} (C : ExtCall -> Prop) (Qt : Res A -> list Event -> Prop)
    (p : Prog A) :
  wp p Qt -> wp p (after_calls C Qt).
Proof.
  apply wp_mono. intros res ev HQ. exists [], ev. split; [done|]. split; [constructor|by right].
Qed.

Lemma after_calls_bind {A B} (C : ExtCall -> Prop) (R : A -> Prop)
    (Qt : Res B -> list Event -> Prop) (p : Prog A) (f : A -> Prog B) :
  only C p -> returns R p ->
  (forall a, R a -> wp (f a) (after_calls C Qt)) ->
  wp (bind p f) (after_calls C Qt).
Proof.
  intros Hp HR Hf. apply wp_bind.
  eapply wp_mono; [|apply (wp_conj _ _ _ Hp HR)].
  intros [a|e] ev [Hev Ha]; simpl in *.
  - eapply wp_mono; [|apply (Hf a (Ha a eq_refl))].
    intros res ev' (setup & tail & -> & Hsetup & Htail).
    exists (ev ++ setup), tail. split; [by rewrite app_assoc|].
    split; [by apply Forall_app|done].
  - exists ev, []. split; [by rewrite app_nil_r|]. split; [done|]. left. eauto.
Qed.

Lemma returns_True {A} (p : Prog A) : returns (fun _ => True) p.
Proof. eapply wp_mono; [|apply wp_True]. auto. Qed.

Lemma tune_tir_finish_trace (work_dir task_name : string) (m : IRModule)
    (db sched : Value) :
  wp (tune_tir_finish work_dir task_name m db sched)
     (finish_trace work_dir task_name m db sched).
Proof.
  unfold tune_tir_finish. cbn [bind ext wp].
  intros [r|e]; cbn [bind wp]; [|by econstructor].
  intros [w|e]; cbn [bind wp]; [|by econstructor].
  intros [bests|e]; cbn [bind wp]; [|by econstructor].
  destruct (truthy bests) eqn:Htruthy; cbn [negb bind wp]; [|by econstructor].
  destruct (len bests) as [n|e] eqn:Hlen; cbn [lift bind wp]; [|by econstructor].
  destruct (bool_decide (n = 1%nat)) eqn:Hn; cbn [negb bind wp].
  2:{ apply bool_decide_eq_false_1 in Hn. by eapply finish_assertion. }
  apply bool_decide_eq_true_1 in Hn. subst n.
  intros [sch|e]; cbn [bind wp]; [|by econstructor].
  destruct (getitem bests 0) as [best|e] eqn:Hbest; cbn [lift bind wp];
    [|by econstructor].
  intros [r'|e]; cbn [bind wp]; [|by econstructor].
  intros [r''|e]; cbn [bind wp]; by econstructor.
Qed.

Lemma tune_tir_outcome (mod_ target config : Value) (work_dir : string) (kw : Kwargs) :
  wp (tune_tir mod_ target config work_dir kw)
     (after_calls setup_call (tune_tir_finished mod_ work_dir kw)).
Proof.
  unfold tune_tir. cbv zeta.
  apply (after_calls_bind setup_call (fun _ => True));
    [apply only_setup_call, only_logger_info|apply returns_True|intros _ _].
  apply (after_calls_bind setup_call (fun m => Parse._mod mod_ = Ok m));
    [apply only_lift|apply returns_lift|intros m Hm].
  apply (after_calls_bind setup_call (fun d => isinstance d "Database" = true));
    [apply only_setup_call, only_Parse_database|apply returns_Parse_database
    |intros database Hdb].
  apply (after_calls_bind setup_call (fun _ => True));
    [apply only_setup_call, only_Parse_target|apply returns_True|intros tgt _].
  apply (after_calls_bind setup_call (fun _ => True));
    [apply only_setup_call, only_Parse_tune_context|apply returns_True|intros ctx _].
  apply (after_calls_bind setup_call (fun b => Parse._builder (kw_builder kw) = Ok b));
    [apply only_lift|apply returns_lift|intros builder Hb].
  apply (after_calls_bind setup_call (fun r => Parse._runner (kw_runner kw) = Ok r));
    [apply only_lift|apply returns_lift|intros runner Hr].
  apply (after_calls_bind setup_call (fun c => Parse._cost_model (kw_cost_model kw) = Ok c));
    [apply only_lift|apply returns_lift|intros cost_model Hc].
  apply (after_calls_bind setup_call
           (fun c => Parse._callbacks (kw_measure_callbacks kw) = Ok c));
    [apply only_lift|apply returns_lift|intros callbacks Hcb].
  apply (after_calls_bind setup_call (fun _ => True));
    [apply only_Parse_task_scheduler|apply returns_True|intros sched _].
  apply after_calls_base.
  eapply wp_mono;
    [|apply (tune_tir_finish_trace work_dir (kw_task_name kw) m database sched)].
  intros res tail Htail. by exists m, database, sched, builder, runner, cost_model, callbacks.
Qed.

Lemma run_tune_tir_outcome (h : Handler) (mod_ target config : Value) (work_dir : string)
    (kw : Kwargs) (res : Res Value) (tr : list Event) :
  run h (tune_tir mod_ target config work_dir kw) [] = (res, tr) ->
  after_calls setup_call (tune_tir_finished mod_ work_dir kw) res tr.
Proof.
  intros Hrun.
  destruct (wp_run _ _ h [] (tune_tir_outcome mod_ target config work_dir kw))
    as (ev & Htr & HQ).
  rewrite Hrun in Htr, HQ. simpl in Htr, HQ. by subst.
Qed.

Lemma calls_method_app (meth : string) (tr1 tr2 : list Event) :
  calls_method meth (tr1 ++ tr2) = calls_method meth tr1 || calls_method meth tr2.
Proof. apply existsb_app. Qed.

Lemma calls_method_setup (meth : string) (setup : list Event) :
  meth <> "create_strategy" ->
  Forall (fun e : Event => setup_call e.1) setup ->
  calls_method meth setup = false.
Proof.
  intros Hne. induction 1 as [|[c r] setup Hc _ IH]; [done|].
  change (calls_method meth ((c, r) :: setup))
    with (match c with
          | EMethod _ m _ => String.eqb m meth
          | _ => false
          end || calls_method meth setup).
  rewrite IH, orb_false_r.
  destruct c as [| |recv m args|]; try done. simpl in Hc. subst m.
  apply String.eqb_neq. congruence.
Qed.

Lemma calls_method_elem_of (meth : string) (tr : list Event) :
  calls_method meth tr = true ->
  exists recv args r, (EMethod recv meth args, r) ∈ tr.
Proof.
  unfold calls_method. rewrite existsb_exists. intros ([c r] & Hin & Hc).
  destruct c as [| |recv m args|]; try done. simpl in Hc.
  apply String.eqb_eq in Hc as ->. exists recv, args, r. by apply list_elem_of_In.
Qed.

Lemma setup_no_method (meth : string) (setup : list Event) recv args r :
  meth <> "create_strategy" ->
  Forall (fun e : Event => setup_call e.1) setup ->
  (EMethod recv meth args, r) ∉ setup.
Proof.
  intros Hne Hall Hin. rewrite Forall_forall in Hall. by specialize (Hall _ Hin).
Qed.

(** Case analysis on the calls of a trace that is listed explicitly. *)
Ltac in_trace :=
  unfold ev_tune, ev_commit, ev_top_k, ev_schedule, ev_apply, ev_save in *;
  repeat match goal with
  | H : _ ∈ _ :: _ |- _ => apply elem_of_cons in H as [H|H]
  | H : _ ∈ [] |- _ => by apply elem_of_nil in H
  | H : (_, _) = (_, _) |- _ => inversion H; clear H; subst
  end.

(** X9. [tune_tir] validates before it works: in a run in which the
    scheduler is run, the program and the builder, runner, cost-model and
    callbacks overrides were all accepted by [Parse]. *)
Theorem tune_tir_tunes_only_valid_inputs (h : Handler) (mod_ target config : Value)
    (work_dir : string) (kw : Kwargs) (res : Res Value) (tr : list Event) :
  run h (tune_tir mod_ target config work_dir kw) [] = (res, tr) ->
  calls_method "tune" tr = true ->
  (exists m, Parse._mod mod_ = Ok m)
  /\ (exists b, Parse._builder (kw_builder kw) = Ok b)
  /\ (exists r, Parse._runner (kw_runner kw) = Ok r)
  /\ (exists c, Parse._cost_model (kw_cost_model kw) = Ok c)
  /\ (exists c, Parse._callbacks (kw_measure_callbacks kw) = Ok c).
Proof.
  intros Hrun Htune.
  destruct (run_tune_tir_outcome _ _ _ _ _ _ _ _ Hrun)
    as (setup & tail & -> & Hsetup & Htail).
  rewrite calls_method_app, (calls_method_setup "tune" setup) in Htune by done.
  destruct Htail as [[-> _]|(m & db & sched & b & r & c & cb & ? & ? & ? & ? & ? & _)];
    [done|eauto 10].
Qed.

Lemma tune_tir_tunes_only_valid_inputs_witness :
  (exists m, Parse._mod (VPrimFunc matmul) = Ok m)
  /\ (exists b, Parse._builder VNone = Ok b)
  /\ (exists r, Parse._runner VNone = Ok r)
  /\ (exists c, Parse._cost_model VNone = Ok c)
  /\ (exists c, Parse._callbacks VNone = Ok c).
Proof.
  apply (tune_tir_tunes_only_valid_inputs (store_handler [])
           (VPrimFunc matmul) (VTarget llvm_target) replay_config "/tmp/work"
           default_kwargs no_record_run.1 no_record_run.2).
  - unfold no_record_run. by destruct (run _ _ _).
  - vm_compute. reflexivity.
Defined.

(** X10. In [tune_tir] the record store is touched, a schedule built and the
    cost model saved only after the scheduler has run to completion: a run
    with a call of any method other than [tune] and [create_strategy] holds
    a call of [tune] that returned. *)
Theorem tune_tir_works_after_tuning (h : Handler) (mod_ target config : Value)
    (work_dir : string) (kw : Kwargs) (res : Res Value) (tr : list Event)
    (meth : string) :
  run h (tune_tir mod_ target config work_dir kw) [] = (res, tr) ->
  meth <> "tune" -> meth <> "create_strategy" ->
  calls_method meth tr = true ->
  exists sched r, (EMethod sched "tune" [], Ok r) ∈ tr.
Proof.
  intros Hrun Hne1 Hne2 Hcall.
  destruct (run_tune_tir_outcome _ _ _ _ _ _ _ _ Hrun)
    as (setup & tail & -> & Hsetup & Htail).
  rewrite calls_method_app, (calls_method_setup meth setup) in Hcall by done.
  destruct Htail as [[-> _]|(m & db & sched & _ & _ & _ & _ & _ & _ & _ & _ & _ & _ & Hft)];
    [done|].
  assert (exists r, (EMethod sched "tune" [], Ok r) ∈ tail) as [r Hr].
  { cbn [orb] in Hcall.
    inversion Hft; subst; unfold ev_tune in *; try (eexists; by left).
    apply calls_method_elem_of in Hcall as (recv & args & r0 & Hin).
    in_trace. by destruct Hne1. }
  exists sched, r. apply elem_of_app. by right.
Qed.

Lemma tune_tir_works_after_tuning_witness :
  exists sched r, (EMethod sched "tune" [], Ok r) ∈ no_record_run.2.
Proof.
  apply (tune_tir_works_after_tuning (store_handler [])
           (VPrimFunc matmul) (VTarget llvm_target) replay_config "/tmp/work"
           default_kwargs no_record_run.1 no_record_run.2 "get_top_k").
  - unfold no_record_run. by destruct (run _ _ _).
  - discriminate.
  - discriminate.
  - vm_compute. reflexivity.
Defined.

Lemma len_truthy (v : Value) (n : nat) : len v = Ok n -> n <> 0%nat -> truthy v = true.
Proof.
  destruct v; try discriminate; cbn [len truthy]; intros H Hn; inversion H; subst.
  - destruct s; [done|reflexivity].
  - by rewrite bool_decide_eq_false_2.
  - by rewrite bool_decide_eq_false_2.
  - by rewrite bool_decide_eq_false_2.
Qed.

(** X11. When the record store answers the top-1 query with more than one
    record, [tune_tir] fails its assertion: it raises [AssertionError] and
    the cost model is not saved. *)
Theorem tune_tir_asserts_one_record (h : Handler) (mod_ target config : Value)
    (work_dir : string) (kw : Kwargs) (res : Res Value) (tr : list Event)
    (db : Value) (args : list Value) (bests : Value) (n : nat) :
  run h (tune_tir mod_ target config work_dir kw) [] = (res, tr) ->
  (EMethod db "get_top_k" args, Ok bests) ∈ tr ->
  len bests = Ok n -> (2 <= n)%nat ->
  res = Err (AssertionError []) /\ calls_method "cost_model.save" tr = false.
Proof.
  intros Hrun Hin Hlen Hn.
  destruct (run_tune_tir_outcome _ _ _ _ _ _ _ _ Hrun)
    as (setup & tail & -> & Hsetup & Htail).
  rewrite calls_method_app, (calls_method_setup _ setup) by done.
  apply elem_of_app in Hin as [Hin|Hin]; [by apply setup_no_method in Hin|].
  destruct Htail as [[-> _]|(m & db' & sched & _ & _ & _ & _ & _ & _ & _ & _ & _ & _ & Hft)];
    [by apply elem_of_nil in Hin|].
  assert (Htruthy : truthy bests = true) by (apply (len_truthy _ n); [done|lia]).
  inversion Hft; subst; in_trace; try congruence.
  - done.
  - replace n with 1%nat in Hn by congruence. lia.
  - replace n with 1%nat in Hn by congruence. lia.
  - replace n with 1%nat in Hn by congruence. lia.
  - replace n with 1%nat in Hn by congruence. lia.
  - replace n with 1%nat in Hn by congruence. lia.
Qed.

Lemma tune_tir_asserts_one_record_witness :
  two_record_run.1 = Err (AssertionError [])
  /\ calls_method "cost_model.save" two_record_run.2 = false.
Proof.
  apply (tune_tir_asserts_one_record
           (store_handler [obj "TuningRecord" "object" []; obj "TuningRecord" "object" []])
           (VPrimFunc matmul) (VTarget llvm_target) replay_config "/tmp/work"
           default_kwargs two_record_run.1 two_record_run.2
           default_database [VNone; VInt 1]
           (VList [obj "TuningRecord" "object" []; obj "TuningRecord" "object" []]) 2).
  - unfold two_record_run. by destruct (run _ _ _).
  - vm_compute. repeat first [apply list_elem_of_here | apply list_elem_of_further].
  - reflexivity.
  - lia.
Defined.

(** X12. What [tune_tir] returns when a record was found: the schedule built
    from the normalised one-entry module, to which the trace of the first
    record was applied with [remove_postproc=False]; the workload committed
    to the record store is that same module. *)
Theorem tune_tir_returns_tuned_schedule (h : Handler) (mod_ target config : Value)
    (work_dir : string) (kw : Kwargs) (sch : Value) (tr : list Event) :
  run h (tune_tir mod_ target config work_dir kw) [] = (Ok sch, tr) ->
  ~ no_record tr ->
  exists m db w bests best r,
    Parse._mod mod_ = Ok m
    /\ (EMethod db "commit_workload" [VIRModule m], Ok w) ∈ tr
    /\ (EMethod db "get_top_k" [w; VInt 1], Ok bests) ∈ tr
    /\ getitem bests 0 = Ok best
    /\ (ENew "Schedule" [VIRModule m], Ok sch) ∈ tr
    /\ (EMethod best "trace.apply_to_schedule" [sch; VBool false], Ok r) ∈ tr.
Proof.
  intros Hrun Hrec.
  destruct (run_tune_tir_outcome _ _ _ _ _ _ _ _ Hrun)
    as (setup & tail & -> & Hsetup & Htail).
  destruct Htail as [[_ [e He]]|(m & db & sched & _ & _ & _ & _ & Hm & _ & _ & _ & _ & _ & Hft)];
    [discriminate He|].
  inversion Hft; subst.
  - destruct Hrec. exists db, [w; VInt 1], bests. split; [|done].
    apply elem_of_app. right. unfold ev_top_k. set_solver.
  - exists m, db, w, bests, best, r'. split; [done|].
    unfold ev_tune, ev_commit, ev_top_k, ev_schedule, ev_apply, ev_save.
    repeat split; try done; apply elem_of_app; right;
      repeat first [apply list_elem_of_here | apply list_elem_of_further].
Qed.

Lemma one_record_run_not_no_record : ~ no_record one_record_run.2.
Proof.
  intros (db & args & bests & Hin & Hb).
  assert (Forall (fun e : Event =>
                    match e with
                    | (EMethod _ meth _, Ok b) =>
                        String.eqb meth "get_top_k" = true -> truthy b = true
                    | _ => True
                    end) one_record_run.2) as Hall.
  { vm_compute. repeat constructor; discriminate. }
  rewrite Forall_forall in Hall. specialize (Hall _ Hin). simpl in Hall.
  rewrite Hall in Hb; [discriminate|reflexivity].
Qed.

Lemma tune_tir_returns_tuned_schedule_witness :
  exists m db w bests best r,
    Parse._mod (VPrimFunc matmul) = Ok m
    /\ (EMethod db "commit_workload" [VIRModule m], Ok w) ∈ one_record_run.2
    /\ (EMethod db "get_top_k" [w; VInt 1], Ok bests) ∈ one_record_run.2
    /\ getitem bests 0 = Ok best
    /\ (ENew "Schedule" [VIRModule m], Ok (obj "Schedule" "object" [])) ∈ one_record_run.2
    /\ (EMethod best "trace.apply_to_schedule" [obj "Schedule" "object" []; VBool false],
        Ok r) ∈ one_record_run.2.
Proof.
  apply (tune_tir_returns_tuned_schedule (store_handler [obj "TuningRecord" "object" []])
           (VPrimFunc matmul) (VTarget llvm_target) replay_config "/tmp/work"
           default_kwargs).
  - vm_compute. reflexivity.
  - apply one_record_run_not_no_record.
Defined.

(** ** Targets without default policies *)

Lemma never_calls_Forall (meth : string) (tr : list Event) :
  Forall (fun e : Event => never_calls meth e.1) tr -> calls_method meth tr = false.
Proof.
  induction 1 as [|[c r] tr Hc _ IH]; [done|].
  change (calls_method meth ((c, r) :: tr))
    with (match c with
          | EMethod _ m _ => String.eqb m meth
          | _ => false
          end || calls_method meth tr).
  rewrite IH, orb_false_r. destruct c as [| |recv m args|]; try done.
  by apply String.eqb_neq.
Qed.

Lemma parse_call_never_calls (meth : string) (c : ExtCall) :
  meth <> "create_strategy" -> parse_call c -> never_calls meth c.
Proof. intros Hne. destruct c; simpl; try done. intros ->. congruence. Qed.

Lemma only_never_calls {A} (meth : string) (p : Prog A) :
  meth <> "create_strategy" -> only parse_call p -> only (never_calls meth) p.
Proof. intros Hne. apply only_mono. intros c. by apply parse_call_never_calls. Qed.

Lemma returns_False_bind {A B} (R : B -> Prop) (p : Prog A) (f : A -> Prog B) :
  returns (fun _ => False) p -> returns R (bind p f).
Proof. intros Hp. by apply (returns_bind_with (fun _ => False)). Qed.

Lemma only_bind_False {A B} (C : ExtCall -> Prop) (p : Prog A) (f : A -> Prog B) :
  only C p -> returns (fun _ => False) p -> only C (bind p f).
Proof. intros Hp HF. by apply (only_bind_returns C (fun _ => False)). Qed.

Lemma run_returns_False {A} (p : Prog A) (h : Handler) (tr tr' : list Event)
    (res : Res A) :
  returns (fun _ => False) p -> run h p tr = (res, tr') -> exists e, res = Err e.
Proof.
  intros Hp Hrun. destruct res as [a|e]; [|eauto].
  destruct (run_returns _ _ _ _ _ _ Hp Hrun).
Qed.

Lemma Parse_tune_context_unsupported (mod_ : IRModule) (target : Target)
    (config task_name space_generator sch_rules postprocs mutator_probs num_threads
       : Value) :
  name (kind target) <> "llvm" -> name (kind target) <> "cuda" ->
  sch_rules = VNone \/ postprocs = VNone \/ mutator_probs = VNone ->
  returns (fun _ => False)
    (Parse._tune_context VNone mod_ target config task_name space_generator
       sch_rules postprocs mutator_probs num_threads).
Proof.
  intros Hllvm Hcuda Hnone. unfold Parse._tune_context. cbn [is_None].
  apply String.eqb_neq in Hllvm, Hcuda.
  do 2 (apply returns_bind; intros ?).
  destruct (is_None sch_rules) eqn:Hsr.
  { apply is_None_true in Hsr. subst sch_rules.
    unfold Parse._sch_rules. cbn [callable is_None negb]. rewrite Hllvm, Hcuda.
    apply returns_Raise. }
  apply returns_bind; intros ?.
  destruct (is_None postprocs) eqn:Hpp.
  { apply is_None_true in Hpp. subst postprocs.
    unfold Parse._postproc. cbn [callable is_None negb]. rewrite Hllvm, Hcuda.
    apply returns_Raise. }
  apply returns_bind; intros ?.
  destruct Hnone as [-> | [-> | ->]]; [discriminate Hsr|discriminate Hpp|].
  unfold Parse._mutator_probs. cbn [callable is_None negb]. rewrite Hllvm, Hcuda.
  apply returns_Raise.
Qed.

(** X13. For a target whose kind has no default profile, with at least one
    of rewrite rules, post-processors and mutator weights left to the
    default, [tune_tir] raises and the scheduler is never run. *)
Theorem tune_tir_unsupported_target (h : Handler) (mod_ config : Value) (target : Target)
    (work_dir : string) (kw : Kwargs) (res : Res Value) (tr : list Event) :
  name (kind target) <> "llvm" -> name (kind target) <> "cuda" ->
  kw_sch_rules kw = VNone \/ kw_postprocs kw = VNone \/ kw_mutator_probs kw = VNone ->
  run h (tune_tir mod_ (VTarget target) config work_dir kw) [] = (res, tr) ->
  (exists e, res = Err e) /\ calls_method "tune" tr = false.
Proof.
  intros Hllvm Hcuda Hnone Hrun.
  assert (Hne : "tune" <> "create_strategy") by discriminate.
  assert (only (never_calls "tune") (tune_tir mod_ (VTarget target) config work_dir kw)
          /\ returns (fun _ => False)
                     (tune_tir mod_ (VTarget target) config work_dir kw)) as [Honly Hret].
  { unfold tune_tir. cbv zeta. split.
    - apply only_bind; [by apply only_never_calls, only_logger_info|intros _].
      apply only_bind; [apply only_lift|intros m].
      apply only_bind; [by apply only_never_calls, only_Parse_database|intros database].
      cbn [Parse._target is_str bind].
      apply only_bind_False;
        [by apply only_never_calls, only_Parse_tune_context
        |by apply Parse_tune_context_unsupported].
    - do 3 (apply returns_bind; intros ?).
      cbn [Parse._target is_str bind].
      by apply returns_False_bind, Parse_tune_context_unsupported. }
  split.
  - exact (run_returns_False _ _ _ _ _ Hret Hrun).
  - apply never_calls_Forall. exact (run_only _ _ _ _ _ Honly Hrun).
Qed.

Lemma tune_tir_unsupported_target_witness :
  (exists e, unsupported_run.1 = Err e) /\ calls_method "tune" unsupported_run.2 = false.
Proof.
  apply (tune_tir_unsupported_target (store_handler []) (VPrimFunc matmul) replay_config
           rocm_target "/tmp/work" default_kwargs unsupported_run.1 unsupported_run.2).
  - discriminate.
  - discriminate.
  - by left.
  - unfold unsupported_run. by destruct (run _ _ _).
Defined.

(** ** The tensor-graph flow, [tune_te] *)

(** X14. [tune_te] behaves as [tune_tir] on the lowered function: a run in
    which the record store answers the top-1 query with no record returns
    [None] and makes no save call. *)
Theorem tune_te_no_record_returns_None (h : Handler) (tensors target config : Value)
    (work_dir : string) (kw : Kwargs) (res : Res Value) (tr : list Event) :
  run h (tune_te tensors target config work_dir kw) [] = (res, tr) ->
  no_record tr ->
  res = Ok VNone /\ ~ saved tr.
Proof.
  intros Hrun Hrec.
  assert (wp (tune_te tensors target config work_dir kw)
             (fun res ev => no_record ev -> res = Ok VNone /\ ~ saved ev)) as Hwp.
  { unfold tune_te. cbn [bind ext wp]. intros [v|e]; cbn [bind wp].
    - eapply wp_mono; [|apply (tune_tir_wp v target config work_dir kw)].
      intros res' ev [H1 _] (db & args & bests & Hin & Hb).
      apply elem_of_cons in Hin as [Hin|Hin]; [discriminate Hin|].
      destruct H1 as [-> Hns]; [by exists db, args, bests|]. split; [done|].
      intros (recv & args' & r & Hs).
      apply elem_of_cons in Hs as [Hs|Hs]; [discriminate Hs|].
      apply Hns. by exists recv, args', r.
    - intros (db & args & bests & Hin & Hb).
      apply elem_of_cons in Hin as [Hin|Hin]; [discriminate Hin|].
      by apply elem_of_nil in Hin. }
  destruct (wp_run _ _ h [] Hwp) as (ev & Htr & HQ).
  rewrite Hrun in Htr, HQ. simpl in Htr, HQ. subst. by apply HQ.
Qed.

Lemma tune_te_no_record_returns_None_witness :
  te_run.1 = Ok VNone /\ ~ saved te_run.2.
Proof.
  apply (tune_te_no_record_returns_None te_handler
           (VList [obj "Tensor" "object" []; obj "Tensor" "object" []])
           (VTarget llvm_target) replay_config "/tmp/work" default_kwargs
           te_run.1 te_run.2).
  - unfold te_run. by destruct (run _ _ _).
  - apply no_record_b_true. vm_compute. reflexivity.
Defined.

(** ** The shape of the runs of [tune_relay] *)

Lemma returns_const {A} (P : Prop) (p : Prog A) : P -> returns (fun _ => P) p.
Proof. intros HP. eapply wp_mono; [|apply wp_True]. auto. Qed.

Lemma returns_parse_task_accepted target config kw task :
  returns (fun _ => task_accepted task) (parse_task target config kw task).
Proof.
  unfold parse_task.
  destruct (getattr task "dispatched") as [d|e] eqn:Hd; cbn [lift bind];
    [|apply returns_Raise].
  destruct (len d) as [n|e] eqn:Hn; cbn [lift bind]; [|apply returns_Raise].
  destruct (bool_decide (n = 1%nat)) eqn:H1; cbn [negb]; [|apply returns_Raise].
  apply bool_decide_eq_true_1 in H1. subst n.
  destruct (getitem d 0) as [v|e] eqn:Hv; cbn [lift bind]; [|apply returns_Raise].
  destruct (Parse._mod v) as [m|e] eqn:Hm; cbn [lift bind]; [|apply returns_Raise].
  apply returns_const. split; [by exists d|]. exists v, m. split; [by exists d|done].
Qed.

Lemma returns_parse_tasks_accepted target config kw extracted_tasks :
  returns (fun _ => Forall task_accepted extracted_tasks)
          (parse_tasks target config kw extracted_tasks).
Proof.
  induction extracted_tasks as [|task rest IH]; cbn [parse_tasks].
  - by apply returns_Ret.
  - apply (returns_bind_with (fun _ => task_accepted task));
      [apply returns_parse_task_accepted|intros c Hc].
    apply (returns_bind_with (fun _ => Forall task_accepted rest)); [apply IH|intros cs Hcs].
    apply returns_Ret. by constructor.
Qed.

Lemma tune_relay_finish_post (mod_ : Value) (target : Target)
    (params database sched : Value) :
  wp (tune_relay_finish mod_ target params database sched)
     (relay_finish_post mod_ target params).
Proof.
  unfold tune_relay_finish, with_. cbn [bind ext wp try_finally].
  repeat (intros [?|?]; cbn [bind wp try_finally]).
  all: split; [repeat (constructor; [simpl; naive_solver|]); constructor|].
  all: split; [reflexivity|].
  all: split;
    [intros args r Hin; in_trace; eexists _, _; apply list_elem_of_here
    |intros v' Hv; inversion Hv; subst;
     repeat first [apply list_elem_of_here | apply list_elem_of_further]].
Qed.

Lemma tune_relay_outcome structural_hash structural_equal (mod_ target config : Value)
    (work_dir : string) (params : Value) (kw : Kwargs) :
  wp (tune_relay structural_hash structural_equal mod_ target config work_dir params kw)
     (after_calls parse_call (tune_relay_extracted mod_ target params)).
Proof.
  unfold tune_relay.
  apply (after_calls_bind parse_call (fun _ => True));
    [apply only_logger_info|apply returns_True|intros _ _].
  apply after_calls_base. cbn [bind ext wp]. intros [extracted|e]; cbn [bind wp].
  2:{ eexists _, _. split; [reflexivity|]. by split. }
  eapply wp_mono.
  { intros res ev Hev. exists (Ok extracted), ev. split; [reflexivity|exact Hev]. }
  apply (after_calls_bind setup_call (fun _ => True));
    [apply only_setup_call, only_Parse_target|apply returns_True|intros tgt _].
  apply (after_calls_bind setup_call (fun _ => True));
    [apply only_setup_call, only_Parse_database|apply returns_True|intros database _].
  apply (after_calls_bind setup_call (fun items => iter extracted = Ok items));
    [apply only_lift|apply returns_lift|intros items Hitems].
  apply (after_calls_bind setup_call (fun _ => Forall task_accepted items));
    [apply only_setup_call, only_parse_tasks|apply returns_parse_tasks_accepted
    |intros tune_contexts Haccepted].
  apply (after_calls_bind setup_call (fun _ => True));
    [apply only_setup_call, only_logger_info|apply returns_True|intros _ _].
  apply (after_calls_bind setup_call (fun _ => True));
    [apply only_setup_call, only_logger_info|apply returns_True|intros _ _].
  apply (after_calls_bind setup_call (fun _ => True));
    [apply only_lift|apply returns_True|intros builder _].
  apply (after_calls_bind setup_call (fun _ => True));
    [apply only_lift|apply returns_True|intros runner _].
  apply (after_calls_bind setup_call (fun _ => True));
    [apply only_lift|apply returns_True|intros cost_model _].
  apply (after_calls_bind setup_call (fun _ => True));
    [apply only_lift|apply returns_True|intros callbacks _].
  apply (after_calls_bind setup_call (fun _ => True));
    [apply only_Parse_task_scheduler|apply returns_True|intros sched _].
  apply after_calls_base.
  eapply wp_mono; [|apply (tune_relay_finish_post mod_ tgt params database sched)].
  intros res tail Htail. by exists items, tgt.
Qed.

Lemma run_tune_relay_outcome structural_hash structural_equal (h : Handler)
    (mod_ target config : Value) (work_dir : string) (params : Value) (kw : Kwargs)
    (res : Res Value) (tr : list Event) :
  run h (tune_relay structural_hash structural_equal mod_ target config work_dir
           params kw) [] = (res, tr) ->
  after_calls parse_call (tune_relay_extracted mod_ target params) res tr.
Proof.
  intros Hrun.
  destruct (wp_run _ _ h []
              (tune_relay_outcome structural_hash structural_equal mod_ target config
                 work_dir params kw))
    as (ev & Htr & HQ).
  rewrite Hrun in Htr, HQ. simpl in Htr, HQ. by subst.
Qed.

Lemma setup_call_relay_pre_call (c : ExtCall) : setup_call c -> relay_pre_call c.
Proof. destruct c; simpl; auto. Qed.

Lemma tune_relay_cases structural_hash structural_equal (h : Handler)
    (mod_ target config : Value) (work_dir : string) (params : Value) (kw : Kwargs)
    (res : Res Value) (tr : list Event) :
  run h (tune_relay structural_hash structural_equal mod_ target config work_dir
           params kw) [] = (res, tr) ->
  exists pre tail,
    tr = pre ++ tail
    /\ Forall (fun e : Event => relay_pre_call e.1) pre
    /\ ((tail = [] /\ exists e, res = Err e)
        \/ exists extracted items tgt,
             (forall args x, (EFunc "extract_task_from_relay" args, Ok x) ∈ pre ->
                             x = extracted)
             /\ iter extracted = Ok items
             /\ Forall task_accepted items
             /\ relay_finish_post mod_ tgt params res tail).
Proof.
  intros Hrun.
  destruct (run_tune_relay_outcome _ _ _ _ _ _ _ _ _ _ _ Hrun)
    as (pre0 & tail0 & -> & Hpre0 & Htail0).
  assert (Hpre0' : Forall (fun e : Event => relay_pre_call e.1) pre0).
  { eapply Forall_impl; [exact Hpre0|]. intros e He.
    by apply setup_call_relay_pre_call, parse_call_setup_call. }
  destruct Htail0 as [[-> He]|(r & tail2 & -> & Hr)].
  { exists pre0, []. split; [done|]. split; [done|]. by left. }
  destruct r as [extracted|e].
  2:{ destruct Hr as [-> ->].
      exists (pre0 ++ [(EFunc "extract_task_from_relay" [mod_; target; params], Err e)]), [].
      split; [by rewrite app_nil_r|]. split; [|left; eauto].
      apply Forall_app. split; [done|]. constructor; [simpl; by right|constructor]. }
  destruct Hr as (setup & tail & -> & Hsetup & Htail).
  exists (pre0 ++ (EFunc "extract_task_from_relay" [mod_; target; params], Ok extracted)
               :: setup), tail.
  split; [by rewrite <- app_assoc|]. split.
  { apply Forall_app. split; [done|]. constructor; [simpl; by right|].
    eapply Forall_impl; [exact Hsetup|]. intros e. apply setup_call_relay_pre_call. }
  destruct Htail as [Hstop|(items & tgt & Hitems & Hsingle & Hpost)]; [by left|].
  right. exists extracted, items, tgt. split; [|done].
  intros args x Hin. rewrite Forall_forall in Hpre0, Hsetup.
  apply elem_of_app in Hin as [Hin|Hin].
  { specialize (Hpre0 _ Hin). simpl in Hpre0. discriminate Hpre0. }
  apply elem_of_cons in Hin as [Hin|Hin]; [by inversion Hin|].
  specialize (Hsetup _ Hin). simpl in Hsetup. discriminate Hsetup.
Qed.

Lemma calls_method_relay_pre (meth : string) (pre : list Event) :
  meth <> "create_strategy" ->
  Forall (fun e : Event => relay_pre_call e.1) pre ->
  calls_method meth pre = false.
Proof.
  intros Hne Hall. apply never_calls_Forall.
  eapply Forall_impl; [exact Hall|]. intros [c r]. destruct c; simpl; try done.
  intros ->. congruence.
Qed.

Lemma calls_method_relay_finish (meth : string) mod_ tgt params (tail : list Event) :
  meth <> "tune" -> meth <> "__enter__" -> meth <> "__exit__" ->
  Forall (fun e : Event => finish_call mod_ tgt params e.1) tail ->
  calls_method meth tail = false.
Proof.
  intros H1 H2 H3 Hall. apply never_calls_Forall.
  eapply Forall_impl; [exact Hall|]. intros [c r]. destruct c; simpl; try done.
  intros [[->|[->| ->]] _]; congruence.
Qed.

(** X15. The only methods [tune_relay] calls on its collaborators are
    [create_strategy], [tune], [__enter__] and [__exit__]: unlike [tune_tir]
    it never commits a workload, never queries the record store and never
    saves the cost model. *)
Theorem tune_relay_method_calls structural_hash structural_equal (h : Handler)
    (mod_ target config : Value) (work_dir : string) (params : Value) (kw : Kwargs)
    (res : Res Value) (tr : list Event) (meth : string) :
  run h (tune_relay structural_hash structural_equal mod_ target config work_dir
           params kw) [] = (res, tr) ->
  meth <> "create_strategy" -> meth <> "tune" ->
  meth <> "__enter__" -> meth <> "__exit__" ->
  calls_method meth tr = false.
Proof.
  intros Hrun H0 H1 H2 H3.
  destruct (tune_relay_cases _ _ _ _ _ _ _ _ _ _ _ Hrun)
    as (pre & tail & -> & Hpre & Htail).
  rewrite calls_method_app, (calls_method_relay_pre meth pre) by done.
  destruct Htail as [[-> _]|(extracted & items & tgt & _ & _ & _ & Hcalls & _)]; [done|].
  by apply (calls_method_relay_finish meth mod_ tgt params).
Qed.

Lemma tune_relay_method_calls_witness :
  calls_method "cost_model.save" five_tasks_run.2 = false.
Proof.
  apply (tune_relay_method_calls body_hash body_equal relay_handler
           (obj "Function" "RelayExpr" []) (VTarget llvm_target) replay_config
           "/tmp/work" VNone default_kwargs five_tasks_run.1 five_tasks_run.2);
    [|discriminate..].
  unfold five_tasks_run. by destruct (run _ _ _).
Defined.

(** X16. When the task extractor returns a task that does not have exactly
    one dispatched candidate, [tune_relay] raises and the scheduler is never
    run. *)
Theorem tune_relay_asserts_single_dispatch structural_hash structural_equal
    (h : Handler) (mod_ target config : Value) (work_dir : string) (params : Value)
    (kw : Kwargs) (res : Res Value) (tr : list Event)
    (args items : list Value) (extracted task : Value) :
  run h (tune_relay structural_hash structural_equal mod_ target config work_dir
           params kw) [] = (res, tr) ->
  (EFunc "extract_task_from_relay" args, Ok extracted) ∈ tr ->
  iter extracted = Ok items -> task ∈ items -> ~ single_dispatch task ->
  (exists e, res = Err e) /\ calls_method "tune" tr = false.
Proof.
  intros Hrun Hin Hitems Htask Hbad.
  destruct (tune_relay_cases _ _ _ _ _ _ _ _ _ _ _ Hrun)
    as (pre & tail & -> & Hpre & Htail).
  destruct Htail as [[-> He]|(extracted' & items' & tgt & Huniq & Hitems' & Hsingle & Hpost)].
  { split; [done|]. rewrite app_nil_r. by apply calls_method_relay_pre. }
  exfalso. apply elem_of_app in Hin as [Hin|Hin].
  - rewrite (Huniq _ _ Hin) in Hitems. rewrite Hitems in Hitems'. inversion Hitems'; subst.
    rewrite Forall_forall in Hsingle. by destruct (Hsingle task Htask) as [Hs _].
  - destruct Hpost as (Hcalls & _). rewrite Forall_forall in Hcalls.
    specialize (Hcalls _ Hin). simpl in Hcalls. by destruct Hcalls.
Qed.

Lemma tune_relay_asserts_single_dispatch_witness :
  (exists e, two_candidates_run.1 = Err e)
  /\ calls_method "tune" two_candidates_run.2 = false.
Proof.
  apply (tune_relay_asserts_single_dispatch body_hash body_equal two_candidates_handler
           (obj "Function" "RelayExpr" []) (VTarget llvm_target) replay_config
           "/tmp/work" VNone default_kwargs two_candidates_run.1 two_candidates_run.2
           [obj "Function" "RelayExpr" []; VTarget llvm_target; VNone]
           [extracted_task "fused_dense" 1;
            obj "ExtractedTask" "Object"
                [("task_name", VStr "fused_add");
                 ("dispatched", VList [VIRModule (kernel 2); VIRModule (kernel 3)])]]
           (VList [extracted_task "fused_dense" 1;
                   obj "ExtractedTask" "Object"
                       [("task_name", VStr "fused_add");
                        ("dispatched", VList [VIRModule (kernel 2); VIRModule (kernel 3)])]])
           (obj "ExtractedTask" "Object"
                [("task_name", VStr "fused_add");
                 ("dispatched", VList [VIRModule (kernel 2); VIRModule (kernel 3)])])).
  - unfold two_candidates_run. by destruct (run _ _ _).
  - vm_compute. repeat first [apply list_elem_of_here | apply list_elem_of_further].
  - reflexivity.
  - apply list_elem_of_further, list_elem_of_here.
  - intros (d & Hd & Hlen). vm_compute in Hd. inversion Hd; subst. discriminate Hlen.
Defined.

Lemma entered_app (tr1 tr2 : list Event) : entered (tr1 ++ tr2) = (entered tr1 + entered tr2)%nat.
Proof. unfold entered. by rewrite List.filter_app, length_app. Qed.

Lemma exited_app (tr1 tr2 : list Event) : exited (tr1 ++ tr2) = (exited tr1 + exited tr2)%nat.
Proof. unfold exited. by rewrite List.filter_app, length_app. Qed.

Lemma relay_pre_not_entered (pre : list Event) :
  Forall (fun e : Event => relay_pre_call e.1) pre ->
  entered pre = 0%nat /\ exited pre = 0%nat.
Proof.
  induction 1 as [|[c r] pre Hc _ [IH1 IH2]]; [done|].
  unfold entered, exited in *. cbn [List.filter fst snd].
  destruct c as [| |recv m args|]; simpl in Hc; try done.
  subst m. cbn. done.
Qed.

(** X17. [tune_relay] leaves every context manager it entered: in every run
    the number of [__enter__] calls that returned equals the number of
    [__exit__] calls, whether the build returns or raises. *)
Theorem tune_relay_exits_what_it_enters structural_hash structural_equal (h : Handler)
    (mod_ target config : Value) (work_dir : string) (params : Value) (kw : Kwargs)
    (res : Res Value) (tr : list Event) :
  run h (tune_relay structural_hash structural_equal mod_ target config work_dir
           params kw) [] = (res, tr) ->
  entered tr = exited tr.
Proof.
  intros Hrun.
  destruct (tune_relay_cases _ _ _ _ _ _ _ _ _ _ _ Hrun)
    as (pre & tail & -> & Hpre & Htail).
  rewrite entered_app, exited_app.
  destruct (relay_pre_not_entered pre Hpre) as [-> ->].
  destruct Htail as [[-> _]|(extracted & items & tgt & _ & _ & _ & _ & Hbal & _)];
    [done|by rewrite Hbal].
Qed.

Lemma tune_relay_exits_what_it_enters_witness :
  entered five_tasks_run.2 = exited five_tasks_run.2.
Proof.
  apply (tune_relay_exits_what_it_enters body_hash body_equal relay_handler
           (obj "Function" "RelayExpr" []) (VTarget llvm_target) replay_config
           "/tmp/work" VNone default_kwargs five_tasks_run.1 five_tasks_run.2).
  unfold five_tasks_run. by destruct (run _ _ _).
Defined.

(** *** The target handed to the build *)

Lemma run_extends {A} (h : Handler) (p : Prog A) (tr0 tr : list Event) (res : Res A) :
  run h p tr0 = (res, tr) -> exists ev, tr = tr0 ++ ev.
Proof.
  intros Hrun. destruct (wp_run p _ h tr0 (wp_True p)) as (ev & Htr & _).
  rewrite Hrun in Htr. by exists ev.
Qed.

(** The answers recorded in the trace of a run are the collaborators'. *)
Lemma run_answers {A} (h : Handler) (p : Prog A) (tr0 pre post : list Event)
    (c : ExtCall) (r : Res Value) (res : Res A) :
  run h p tr0 = (res, tr0 ++ pre ++ (c, r) :: post) -> r = h (tr0 ++ pre) c.
Proof.
  revert tr0 pre. induction p as [a|e|c0 k IH]; cbn [run]; intros tr0 pre Hrun.
  - inversion Hrun as [[Hres Htr]]. apply (f_equal length) in Htr.
    rewrite !length_app in Htr. cbn [length] in Htr. lia.
  - inversion Hrun as [[Hres Htr]]. apply (f_equal length) in Htr.
    rewrite !length_app in Htr. cbn [length] in Htr. lia.
  - destruct (run_extends _ _ _ _ _ Hrun) as [ev Hev].
    rewrite <- app_assoc in Hev. apply app_inv_head in Hev. cbn [app] in Hev.
    destruct pre as [|e0 pre]; cbn [app] in Hev; inversion Hev; subst.
    + by rewrite app_nil_r.
    + specialize (IH (h tr0 c0) (tr0 ++ [(c0, h tr0 c0)]) pre).
      rewrite <- !app_assoc in IH. apply IH. exact Hrun.
Qed.

Lemma Parse_target_resolves (target : Value) :
  wp (Parse._target target)
     (fun res ev => forall t, res = Ok t ->
                      ev = target_calls target t
                      /\ (is_str target = false -> target = VTarget t)).
Proof.
  unfold Parse._target, target_calls. destruct (is_str target) eqn:Hs.
  - intros [v|e]; cbn [bind wp]; [|intros t Ht; discriminate Ht].
    destruct v; cbn [wp]; intros t' Ht; inversion Ht; subst. by split.
  - cbn [bind]. destruct target; cbn [wp]; intros t' Ht; inversion Ht; subst. by split.
Qed.

Lemma parsed_in_intro {A} (h : Handler) (p : Prog A) (target : Value) (t : Target)
    (pre rest : list Event) (res : Res A) :
  run h p [] = (res, pre ++ target_calls target t ++ rest) ->
  Forall (fun e : Event => opening_call e.1) pre ->
  (is_str target = false -> target = VTarget t) ->
  parsed_in h target (pre ++ target_calls target t ++ rest) t.
Proof.
  intros Hrun Hopen Ht. exists pre, (pre ++ target_calls target t), rest.
  split; [done|]. split; [|by rewrite <- app_assoc].
  unfold Parse._target, target_calls in *. destruct (is_str target) eqn:Hs.
  - pose proof (run_answers h p [] pre rest _ _ res Hrun) as Hans. cbn [app] in Hans.
    cbn [bind ext run]. by rewrite <- Hans.
  - rewrite (Ht eq_refl). cbn [bind run]. by rewrite app_nil_r.
Qed.

Lemma builds_for_relay_pre mod_ t params (c : ExtCall) :
  relay_pre_call c -> builds_for mod_ t params c.
Proof.
  destruct c as [| | |fn args]; cbn; try done. intros [->| ->] Hfn; discriminate Hfn.
Qed.

Lemma only_builds_for {A} mod_ t params (p : Prog A) :
  only setup_call p -> only (builds_for mod_ t params) p.
Proof.
  apply only_mono. intros c Hc. by apply builds_for_relay_pre, setup_call_relay_pre_call.
Qed.

Lemma opening_call_relay_pre (c : ExtCall) : opening_call c -> relay_pre_call c.
Proof. by destruct c. Qed.

Lemma only_opening_logger_info fmt args : only opening_call (logger_info fmt args).
Proof.
  apply only_bind; [apply only_ext; cbn; by left|]. intros _. apply only_Ret.
Qed.

Lemma tune_relay_build_target structural_hash structural_equal
    (mod_ target config : Value) (work_dir : string) (params : Value) (kw : Kwargs) :
  wp (tune_relay structural_hash structural_equal mod_ target config work_dir params kw)
     (fun _ tr =>
        forall args r, (EFunc "relay.build" args, r) ∈ tr ->
          exists t pre rest,
            tr = pre ++ target_calls target t ++ rest
            /\ Forall (fun e : Event => opening_call e.1) pre
            /\ (is_str target = false -> target = VTarget t)
            /\ args = [mod_; VTarget t; params]).
Proof.
  assert (Hnone : forall ev args r,
            Forall (fun e : Event => relay_pre_call e.1) ev ->
            (EFunc "relay.build" args, r) ∉ ev).
  { intros ev args r Hall Hin. rewrite Forall_forall in Hall.
    specialize (Hall _ Hin). cbn in Hall. by destruct Hall. }
  assert (Hopening : forall ev : list Event,
            Forall (fun e : Event => opening_call e.1) ev ->
            Forall (fun e : Event => relay_pre_call e.1) ev).
  { intros ev Hall. eapply Forall_impl; [exact Hall|].
    intros e. apply opening_call_relay_pre. }
  assert (Herr : forall (e : Exn) ev,
            Forall (fun e : Event => opening_call e.1) ev ->
            forall args r, (EFunc "relay.build" args, r) ∈ ev ->
              exists t pre rest,
                ev = pre ++ target_calls target t ++ rest
                /\ Forall (fun e : Event => opening_call e.1) pre
                /\ (is_str target = false -> target = VTarget t)
                /\ args = [mod_; VTarget t; params]).
  { intros _ ev Hall args r Hin. by destruct (Hnone ev args r (Hopening ev Hall)). }
  assert (Hpre : forall (res : Res Value) ev ev',
            Forall (fun e : Event => opening_call e.1) ev ->
            (forall args r, (EFunc "relay.build" args, r) ∈ ev' ->
               exists t pre rest,
                 ev' = pre ++ target_calls target t ++ rest
                 /\ Forall (fun e : Event => opening_call e.1) pre
                 /\ (is_str target = false -> target = VTarget t)
                 /\ args = [mod_; VTarget t; params]) ->
            forall args r, (EFunc "relay.build" args, r) ∈ ev ++ ev' ->
              exists t pre rest,
                ev ++ ev' = pre ++ target_calls target t ++ rest
                /\ Forall (fun e : Event => opening_call e.1) pre
                /\ (is_str target = false -> target = VTarget t)
                /\ args = [mod_; VTarget t; params]).
  { intros _ ev ev' Hall H args r Hin. apply elem_of_app in Hin as [Hin|Hin].
    { by destruct (Hnone ev args r (Hopening ev Hall)). }
    destruct (H args r Hin) as (t & pre & rest & -> & Hopen & Ht & Hargs).
    exists t, (ev ++ pre), rest. split; [by rewrite <- app_assoc|].
    split; [by apply Forall_app|done]. }
  unfold tune_relay.
  apply (wp_bind_only opening_call);
    [apply only_opening_logger_info|exact Herr|exact Hpre|intros _].
  apply (wp_bind_only opening_call);
    [apply only_ext; cbn; by right|exact Herr|exact Hpre|intros extracted].
  clear Herr Hpre. apply wp_bind.
  eapply wp_mono;
    [|apply (wp_conj _ _ _ (only_Parse_target target) (Parse_target_resolves target))].
  intros [t|e] ev [Hev Hres]; cbn beta iota.
  2:{ intros args r Hin. destruct (Hnone ev args r); [|done].
      eapply Forall_impl; [exact Hev|]. intros c Hc.
      by apply setup_call_relay_pre_call, parse_call_setup_call. }
  destruct (Hres t eq_refl) as [-> Ht]. clear Hres Hev.
  match goal with
  | |- wp ?p _ => assert (Hrest : only (builds_for mod_ t params) p)
  end.
  { apply only_bind;
      [apply only_builds_for, only_setup_call, only_Parse_database|intros database].
    apply only_bind; [apply only_lift|intros items].
    apply only_bind; [apply only_builds_for, only_setup_call, only_parse_tasks
                     |intros tune_contexts].
    apply only_bind; [apply only_builds_for, only_setup_call, only_logger_info|intros _].
    apply only_bind; [apply only_builds_for, only_setup_call, only_logger_info|intros _].
    apply only_bind; [apply only_lift|intros builder].
    apply only_bind; [apply only_lift|intros runner].
    apply only_bind; [apply only_lift|intros cost_model].
    apply only_bind; [apply only_lift|intros callbacks].
    apply only_bind; [apply only_builds_for, only_Parse_task_scheduler|intros sched].
    apply only_bind; [by apply only_ext|intros _].
    apply only_bind; [by apply only_ext|intros history].
    apply only_with; [done|].
    apply only_bind; [by apply only_ext|intros pass_context].
    apply only_with; [done|].
    by apply only_ext. }
  eapply wp_mono; [|exact Hrest]. cbn beta.
  intros res ev' Hev' args r Hin. exists t, [], ev'.
  split; [done|]. split; [constructor|]. split; [done|].
  apply elem_of_app in Hin as [Hin|Hin].
  { unfold target_calls in Hin. destruct (is_str target); in_trace. }
  rewrite Forall_forall in Hev'. by apply (Hev' _ Hin).
Qed.

Lemma run_tune_relay_build_target structural_hash structural_equal (h : Handler)
    (mod_ target config : Value) (work_dir : string) (params : Value) (kw : Kwargs)
    (res : Res Value) (tr : list Event) (args : list Value) (r : Res Value) :
  run h (tune_relay structural_hash structural_equal mod_ target config work_dir
           params kw) [] = (res, tr) ->
  (EFunc "relay.build" args, r) ∈ tr ->
  exists tgt, parsed_in h target tr tgt /\ args = [mod_; VTarget tgt; params].
Proof.
  intros Hrun Hin.
  destruct (wp_run _ _ h []
              (tune_relay_build_target structural_hash structural_equal mod_ target
                 config work_dir params kw))
    as (ev & Htr & HQ).
  rewrite Hrun in Htr. cbn in Htr. cbn beta in HQ. subst ev.
  destruct (HQ args r Hin) as (t & pre & rest & -> & Hopen & Ht & ->).
  exists t. split; [|done]. by apply (parsed_in_intro h _ target t pre rest res Hrun).
Qed.

(** X18. [relay.build] is called only after the scheduler has run to
    completion, with the model and the parameters [tune_relay] was given and
    the target that [Parse._target] returned for the target given; and what
    [tune_relay] returns is what that build returned. *)
Theorem tune_relay_builds_the_given_model structural_hash structural_equal (h : Handler)
    (mod_ target config : Value) (work_dir : string) (params : Value) (kw : Kwargs)
    (res : Res Value) (tr : list Event) :
  run h (tune_relay structural_hash structural_equal mod_ target config work_dir
           params kw) [] = (res, tr) ->
  (forall args r, (EFunc "relay.build" args, r) ∈ tr ->
     (exists tgt, parsed_in h target tr tgt /\ args = [mod_; VTarget tgt; params])
     /\ exists sched r0, (EMethod sched "tune" [], Ok r0) ∈ tr)
  /\ (forall v, res = Ok v ->
        exists tgt, parsed_in h target tr tgt
                    /\ (EFunc "relay.build" [mod_; VTarget tgt; params], Ok v) ∈ tr).
Proof.
  intros Hrun.
  destruct (tune_relay_cases _ _ _ _ _ _ _ _ _ _ _ Hrun)
    as (pre & tail & Htr & Hpre & Htail).
  split.
  - intros args r Hin. split; [exact (run_tune_relay_build_target _ _ _ _ _ _ _ _ _ _ _ _ _ Hrun Hin)|].
    subst tr. apply elem_of_app in Hin as [Hin|Hin].
    { rewrite Forall_forall in Hpre. specialize (Hpre _ Hin). simpl in Hpre.
      by destruct Hpre. }
    destruct Htail as [[-> _]|(extracted & items & tgt & _ & _ & _ & _ & _ & Hafter & _)];
      [by apply elem_of_nil in Hin|].
    destruct (Hafter _ _ Hin) as (sched & r0 & Ht). exists sched, r0.
    apply elem_of_app. by right.
  - intros v ->.
    destruct Htail as [[_ [e He]]|(extracted & items & tgt & _ & _ & _ & _ & _ & _ & Hret)];
      [discriminate He|].
    assert (Hin : (EFunc "relay.build" [mod_; VTarget tgt; params], Ok v) ∈ tr).
    { subst tr. apply elem_of_app. right. by apply Hret. }
    destruct (run_tune_relay_build_target _ _ _ _ _ _ _ _ _ _ _ _ _ Hrun Hin)
      as (tgt' & Hparsed & Hargs).
    inversion Hargs; subst tgt'. by exists tgt.
Qed.

Lemma tune_relay_builds_the_given_model_witness :
  (forall args r, (EFunc "relay.build" args, r) ∈ string_target_run.2 ->
     (exists tgt, parsed_in target_handler (VStr "llvm -num-cores=4")
                            string_target_run.2 tgt
                  /\ args = [obj "Function" "RelayExpr" []; VTarget tgt; VNone])
     /\ exists sched r0, (EMethod sched "tune" [], Ok r0) ∈ string_target_run.2)
  /\ (forall v, string_target_run.1 = Ok v ->
        exists tgt, parsed_in target_handler (VStr "llvm -num-cores=4")
                              string_target_run.2 tgt
                    /\ (EFunc "relay.build" [obj "Function" "RelayExpr" []; VTarget tgt; VNone],
                        Ok v) ∈ string_target_run.2).
Proof.
  apply (tune_relay_builds_the_given_model body_hash body_equal target_handler
           (obj "Function" "RelayExpr" []) (VStr "llvm -num-cores=4") replay_config
           "/tmp/work" VNone default_kwargs string_target_run.1 string_target_run.2).
  unfold string_target_run. by destruct (run _ _ _).
Defined.

(** In the run with the target given as a string, the build is for the
    target the [Target] constructor answered. *)
Lemma string_target_run_builds :
  string_target_run.1 = Ok VNone
  /\ (EFunc "relay.build" [obj "Function" "RelayExpr" []; VTarget llvm_target; VNone],
      Ok VNone) ∈ string_target_run.2.
Proof.
  split; [by vm_compute|]. vm_compute.
  repeat first [apply list_elem_of_here | apply list_elem_of_further].
Qed.

(** ** The context [Parse._tune_context] builds *)

Lemma returns_default_policy (parse : Value -> Target -> Prog Value) (llvm cuda : Value)
    (msg : string) (v : Value) (target : Target) :
  factory_only parse llvm cuda msg ->
  returns (fun r => v = VNone -> default_policy llvm cuda target r) (parse v target).
Proof.
  intros (Hllvm & Hcuda & _ & _).
  destruct (is_None v) eqn:Hv.
  - apply is_None_true in Hv. subst v.
    destruct (String.eqb_spec (name (kind target)) "llvm") as [Hl|Hl].
    { rewrite (Hllvm target Hl). apply returns_Ret. intros _. by split. }
    destruct (String.eqb_spec (name (kind target)) "cuda") as [Hc|Hc].
    { rewrite (Hcuda target Hc). apply returns_Ret. intros _. by split. }
    eapply wp_mono; [|apply wp_True]. intros res ev _ r _ _. by split.
  - eapply wp_mono; [|apply wp_True]. intros res ev _ r _ ->. discriminate Hv.
Qed.

Lemma returns_context_built mod_ target config task_name space_generator sch_rules
    postprocs mutator_probs num_threads :
  returns (context_built mod_ target task_name sch_rules postprocs mutator_probs
             num_threads)
    (Parse._tune_context VNone mod_ target config task_name space_generator
       sch_rules postprocs mutator_probs num_threads).
Proof.
  unfold Parse._tune_context. cbn [is_None].
  eapply returns_bind_with; [apply returns_Parse_space_generator|intros sg Hsg].
  apply returns_bind. intros ss.
  eapply returns_bind_with;
    [apply (returns_default_policy _ _ _ _ _ _ Parse_sch_rules_factory_only)|intros sr Hsr].
  eapply returns_bind_with;
    [apply (returns_default_policy _ _ _ _ _ _ Parse_postproc_factory_only)|intros pp Hpp].
  eapply returns_bind_with;
    [apply (returns_default_policy _ _ _ _ _ _ Parse_mutator_probs_factory_only)
    |intros mp Hmp].
  apply returns_Ret. unfold context_built. cbn. repeat apply conj; done.
Qed.

(** X19. The context [Parse._tune_context] builds holds the module, target,
    task name and thread count it was given, a validated space generator,
    and, for each policy left to the default, the LLVM profile for an "llvm"
    target and the CUDA profile for a "cuda" target. *)
Theorem Parse_tune_context_built (h : Handler) (tr tr' : list Event) (mod_ : IRModule)
    (target : Target)
    (config task_name space_generator sch_rules postprocs mutator_probs num_threads
       : Value) (c : TuneContext) :
  run h (Parse._tune_context VNone mod_ target config task_name space_generator
           sch_rules postprocs mutator_probs num_threads) tr = (Ok c, tr') ->
  context_built mod_ target task_name sch_rules postprocs mutator_probs num_threads c.
Proof.
  intros Hrun. exact (run_returns _ _ _ _ _ _ (returns_context_built _ _ _ _ _ _ _ _ _) Hrun).
Qed.

Lemma Parse_tune_context_built_witness :
  match cuda_context_run.1 with
  | Ok c => tc_sch_rules c = DefaultCUDA._sch_rules
            /\ tc_postprocs c = DefaultCUDA._postproc
            /\ tc_mutator_probs c = DefaultCUDA._mutator_probs
  | Err _ => False
  end.
Proof.
  destruct cuda_context_run as [[c|e] tr] eqn:Hrun; simpl.
  - destruct (Parse_tune_context_built _ _ _ _ _ _ _ _ _ _ _ _ _ Hrun)
      as (_ & _ & _ & _ & _ & Hsr & Hpp & Hmp).
    split; [|split].
    + apply (Hsr eq_refl); [discriminate|reflexivity].
    + apply (Hpp eq_refl); [discriminate|reflexivity].
    + apply (Hmp eq_refl); [discriminate|reflexivity].
  - vm_compute in Hrun. discriminate Hrun.
Defined.

(** ** The files of the default record store *)

Lemma append_inj_l (a b c : string) : a +:+ b = a +:+ c -> b = c.
Proof. induction a as [|x a IH]; simpl; intros H; [done|]. inversion H. auto. Qed.

Lemma prefix_slash_append (task_name s1 s2 : string) :
  String.prefix "/" s1 = String.prefix "/" s2 ->
  String.prefix "/" (task_name +:+ s1) = String.prefix "/" (task_name +:+ s2).
Proof.
  destruct task_name as [|c rest]; [done|]. intros _.
  change (String c rest +:+ s1) with (String c (rest +:+ s1)).
  change (String c rest +:+ s2) with (String c (rest +:+ s2)).
  cbn [String.prefix]. destruct (Ascii.ascii_dec _ c); [|done].
  by destruct (rest +:+ s1), (rest +:+ s2).
Qed.

Lemma os_path_join_inj (a b1 b2 : string) :
  String.prefix "/" b1 = String.prefix "/" b2 ->
  os_path_join a b1 = os_path_join a b2 -> b1 = b2.
Proof.
  unfold os_path_join. intros <-.
  destruct (String.prefix "/" b1); [done|].
  destruct (String.eqb a ""); [done|].
  destruct (String.eqb _ "/").
  - apply append_inj_l.
  - intros H. apply append_inj_l in H. by apply append_inj_l in H.
Qed.

Lemma returns_default_database_files (task_name path : string) :
  returns (fun d =>
             exists path_workload path_tuning_record,
               getattr d "path_workload" = Ok (VStr path_workload)
               /\ getattr d "path_tuning_record" = Ok (VStr path_tuning_record)
               /\ path_workload <> path_tuning_record)
    (Parse._database VNone task_name path).
Proof.
  unfold Parse._database. cbn [is_None].
  cbn [logger_info bind ext]. intros [r|e]; cbn [bind wp]; [|intros d Hd; discriminate Hd].
  intros d Hd. inversion Hd; subst. eexists _, _. split; [reflexivity|].
  split; [reflexivity|]. intros Heq.
  apply os_path_join_inj in Heq; [|by apply prefix_slash_append].
  apply append_inj_l in Heq. discriminate Heq.
Qed.

(** X20. The default record store never uses one file for both purposes:
    for every working directory and task name, the workload file and the
    tuning-record file of the [JSONDatabase] that [Parse._database] creates
    are different paths. *)
Theorem default_database_files_differ (h : Handler) (tr tr' : list Event)
    (task_name path : string) (d : Value) :
  run h (Parse._database VNone task_name path) tr = (Ok d, tr') ->
  exists path_workload path_tuning_record,
    getattr d "path_workload" = Ok (VStr path_workload)
    /\ getattr d "path_tuning_record" = Ok (VStr path_tuning_record)
    /\ path_workload <> path_tuning_record.
Proof.
  intros Hrun.
  exact (run_returns _ _ _ _ _ _ (returns_default_database_files task_name path) Hrun).
Qed.

Lemma default_database_files_differ_witness :
  exists path_workload path_tuning_record,
    getattr default_database "path_workload" = Ok (VStr path_workload)
    /\ getattr default_database "path_tuning_record" = Ok (VStr path_tuning_record)
    /\ path_workload <> path_tuning_record.
Proof.
  apply (default_database_files_differ (store_handler []) [] 
           [(EFunc "logger.info"
                   [VStr "Creating JSONDatabase. Workload at: %s. Tuning records at: %s";
                    VStr "/tmp/work/main_database_workload.json";
                    VStr "/tmp/work/main_database_tuning_record.json"], Ok VNone)]
           "main" "/tmp/work" default_database).
  vm_compute. reflexivity.
Defined.

(** ** Only one-entry modules reach the contexts *)

Lemma Parse_mod_too_many (m : IRModule) :
  (1 < size m)%nat ->
  Parse._mod (VIRModule m)
  = Err (ValueError [FLit "too many values to unpack (expected 1)"]).
Proof.
  intros Hsz. unfold Parse._mod.
  pose proof (get_global_vars_length m) as Hlen.
  destruct (get_global_vars m) as [|n1 [|n2 ns]]; simpl in Hlen; [lia|lia|done].
Qed.

Lemma Parse_mod_Ok_size (v : Value) (m : IRModule) :
  Parse._mod v = Ok m -> size m = 1%nat.
Proof.
  intros H. destruct (Parse_mod_Ok_inv v m H) as (f & -> & _). apply map_size_singleton.
Qed.

(** With a module [Parse._mod] rejects, [tune_tir] makes no call but its
    first log line. *)
Lemma tune_tir_rejected_module (h : Handler) (mod_ target config : Value)
    (work_dir : string) (kw : Kwargs) (e : Exn) (res : Res Value) (tr : list Event) :
  Parse._mod mod_ = Err e ->
  run h (tune_tir mod_ target config work_dir kw) [] = (res, tr) ->
  exists r, tr = [(EFunc "logger.info" [VStr "Working directory: %s"; VStr work_dir], r)]
            /\ exists e', res = Err e'.
Proof.
  intros Hmod. unfold tune_tir. rewrite Hmod. cbn [logger_info bind ext run lift].
  destruct (h [] _) as [r|e0]; cbn [bind run app]; intros Hrun; inversion Hrun; eauto.
Qed.

Lemma handed_over_mono (P P' : TuneContext -> Prop) (d : bool) (c : ExtCall) :
  (forall ctx, P ctx -> P' ctx) -> handed_over P d c -> handed_over P' d c.
Proof.
  intros HP. destruct c as [f [|[] args]| |sched meth args|]; cbn; auto.
  intros H Hd Hm. destruct (H Hd Hm) as (tasks & Htasks & Hall).
  exists tasks. split; [done|]. eapply Forall_impl; [exact Hall|done].
Qed.

Lemma parse_call_handed_over (P : TuneContext -> Prop) (d : bool) (c : ExtCall) :
  parse_call c -> handed_over P d c.
Proof.
  destruct c as [f args|cls args|recv meth args|fn args]; simpl; try done.
  - by intros ->.
  - by intros -> _ ?.
Qed.

Lemma only_handed_over {A} (P : TuneContext -> Prop) (d : bool) (p : Prog A) :
  only parse_call p -> only (handed_over P d) p.
Proof. apply only_mono, parse_call_handed_over. Qed.

Lemma handed_over_method (P : TuneContext -> Prop) (d : bool) recv meth args :
  meth <> "tune" -> handed_over P d (EMethod recv meth args).
Proof. intros Hne _ Hm. by destruct Hne. Qed.

Lemma only_handed_over_task_scheduler (P : TuneContext -> Prop)
    v tasks builder runner database cost_model callbacks :
  Forall P tasks ->
  only (handed_over P (is_None v))
       (Parse._task_scheduler v tasks builder runner database cost_model callbacks).
Proof.
  intros HP. unfold Parse._task_scheduler.
  destruct (is_None v); [apply only_Ret|].
  destruct (callable v).
  - apply only_ext. simpl. intros ctx Hin.
    apply list_elem_of_fmap in Hin as (c & Heq & Hc). inversion Heq; subst.
    rewrite Forall_forall in HP. by apply HP.
  - destruct (negb _); [apply only_Raise|apply only_Ret].
Qed.

Lemma returns_Parse_tune_context_mod mod_ target config task_name space_generator
    sch_rules postprocs mutator_probs num_threads :
  returns (fun c => tc_mod c = mod_)
    (Parse._tune_context VNone mod_ target config task_name space_generator
       sch_rules postprocs mutator_probs num_threads).
Proof.
  unfold Parse._tune_context. cbn [is_None].
  do 5 (apply returns_bind; intros ?).
  by apply returns_Ret.
Qed.

(** Solves [only (handed_over P d) p] for a straight-line [p] that calls no
    factory and no [tune]. *)
Ltac only_handed_tail :=
  repeat first
    [ apply only_Ret
    | apply only_Raise
    | apply only_lift
    | apply only_bind; [|intros ?]
    | apply only_ext; first [exact I | by apply handed_over_method]
    | case_match ].

Lemma tune_tir_hands_over (mod_ target config : Value) (work_dir : string) (kw : Kwargs) :
  only (handed_over (normalised_from mod_) (is_None (kw_task_scheduler kw)))
       (tune_tir mod_ target config work_dir kw).
Proof.
  unfold tune_tir.
  apply only_bind; [apply only_handed_over, only_logger_info|intros _].
  apply (only_bind_returns _ (fun m => Parse._mod mod_ = Ok m));
    [apply only_lift|apply returns_lift|intros m Hm].
  apply only_bind; [apply only_handed_over, only_Parse_database|intros database].
  apply only_bind; [apply only_handed_over, only_Parse_target|intros tgt].
  apply (only_bind_returns _ (fun c => tc_mod c = m));
    [apply only_handed_over, only_Parse_tune_context
    |apply returns_Parse_tune_context_mod|].
  intros ctx Hctx.
  assert (Hnorm : normalised_from mod_ ctx).
  { unfold normalised_from. rewrite Hctx. split; [done|]. by apply (Parse_mod_Ok_size mod_). }
  apply only_bind; [apply only_lift|intros builder].
  apply only_bind; [apply only_lift|intros runner].
  apply only_bind; [apply only_lift|intros cost_model].
  apply only_bind; [apply only_lift|intros callbacks].
  eapply only_bind_returns;
    [apply only_handed_over_task_scheduler; constructor; [exact Hnorm|constructor]
    |apply returns_default_task_scheduler|].
  intros sched Hsched. cbv beta in Hsched.
  apply only_bind.
  { apply only_ext. intros Hd _. exists [ctx]. split; [by apply Hsched|].
    constructor; [exact Hnorm|constructor]. }
  intros _. only_handed_tail.
Qed.

Lemma returns_parse_task_normalised target config kw task :
  returns (fun c => exists v, task_candidate task v /\ normalised_from v c)
          (parse_task target config kw task).
Proof.
  unfold parse_task.
  destruct (getattr task "dispatched") as [d|e] eqn:Hd; cbn [lift bind];
    [|apply returns_Raise].
  apply returns_bind. intros n.
  destruct (negb _); [apply returns_Raise|].
  destruct (getitem d 0) as [v|e] eqn:Hv; cbn [lift bind]; [|apply returns_Raise].
  destruct (Parse._mod v) as [m|e] eqn:Hm; cbn [lift bind]; [|apply returns_Raise].
  apply returns_bind. intros task_name.
  eapply wp_mono; [|apply (returns_Parse_tune_context_mod m)].
  intros res ev Hres c Hc. exists v. split; [by exists d|].
  unfold normalised_from. rewrite (Hres c Hc). split; [done|]. by apply (Parse_mod_Ok_size v).
Qed.

Lemma returns_parse_tasks_normalised target config kw (tasks extracted_tasks : list Value) :
  (forall task, task ∈ extracted_tasks -> task ∈ tasks) ->
  returns (Forall (normalised_task tasks)) (parse_tasks target config kw extracted_tasks).
Proof.
  induction extracted_tasks as [|task rest IH]; cbn [parse_tasks]; intros Hsub.
  - by apply returns_Ret.
  - eapply returns_bind_with; [apply returns_parse_task_normalised|intros c (v & Hv & Hc)].
    apply (returns_bind_with (Forall (normalised_task tasks))).
    { apply IH. intros t Ht. apply Hsub. by apply list_elem_of_further. }
    intros cs Hcs. apply returns_Ret. constructor; [|done].
    exists task, v. split; [apply Hsub, list_elem_of_here|done].
Qed.

Lemma tune_relay_hands_over structural_hash structural_equal (mod_ target config : Value)
    (work_dir : string) (params : Value) (kw : Kwargs) :
  wp (tune_relay structural_hash structural_equal mod_ target config work_dir params kw)
     (fun _ tr =>
        Forall (fun e : Event =>
                  handed_over (normalised_extracted tr) (is_None (kw_task_scheduler kw)) e.1)
               tr).
Proof.
  set (d := is_None (kw_task_scheduler kw)).
  assert (Hparse : forall ev ev' : list Event,
            Forall (fun e : Event => parse_call e.1) ev ->
            Forall (fun e : Event => handed_over (normalised_extracted ev') d e.1) ev).
  { intros ev ev' Hev. eapply Forall_impl; [exact Hev|].
    intros e. apply parse_call_handed_over. }
  assert (Hgrow : forall (ev0 ev ev' : list Event),
            Forall (fun e : Event => handed_over (normalised_extracted ev) d e.1) ev' ->
            Forall (fun e : Event => handed_over (normalised_extracted (ev0 ++ ev)) d e.1) ev').
  { intros ev0 ev ev' Hev. eapply Forall_impl; [exact Hev|].
    intros e. apply handed_over_mono.
    intros c (args & extracted & tasks & Hin & Hiter & Hc).
    exists args, extracted, tasks. split; [|done]. apply elem_of_app. by right. }
  unfold tune_relay.
  apply (wp_bind_only parse_call); [apply only_logger_info| | |intros _].
  { intros e ev Hev. by apply Hparse. }
  { intros res ev ev' Hev Hev'. apply Forall_app. split; [by apply Hparse|by apply Hgrow]. }
  intros [extracted|e]; cbn [bind wp]; [|by repeat constructor].
  destruct (iter extracted) as [items|e] eqn:Hiter.
  - match goal with
    | |- wp ?p _ =>
        assert (Hrest : only (handed_over (normalised_task items) d) p)
    end.
    { apply only_bind; [apply only_handed_over, only_Parse_target|intros tgt].
      apply only_bind; [apply only_handed_over, only_Parse_database|intros database].
      apply (only_bind_returns _ (fun a => Ok items = Ok a));
        [apply only_lift|apply returns_lift|intros items' Heq].
      inversion Heq; subst items'.
      apply (only_bind_returns _ (Forall (normalised_task items)));
        [apply only_handed_over, only_parse_tasks
        |by apply returns_parse_tasks_normalised|].
      intros tune_contexts Hnorm.
      apply only_bind; [apply only_handed_over, only_logger_info|intros _].
      apply only_bind; [apply only_handed_over, only_logger_info|intros _].
      apply only_bind; [apply only_lift|intros builder].
      apply only_bind; [apply only_lift|intros runner].
      apply only_bind; [apply only_lift|intros cost_model].
      apply only_bind; [apply only_lift|intros callbacks].
      pose proof (Forall_sublist _ _ _
                    (deduplicate_sublist structural_hash structural_equal tune_contexts)
                    Hnorm) as Htasks.
      eapply only_bind_returns;
        [by apply only_handed_over_task_scheduler|apply returns_default_task_scheduler|].
      intros sched Hsched. cbv beta in Hsched.
      apply only_bind.
      { apply only_ext. intros Hd _. eexists. split; [by apply Hsched|done]. }
      intros _.
      apply only_bind; [by apply only_ext|intros history].
      apply only_with; [intros meth Hm; by apply handed_over_method|].
      apply only_bind; [by apply only_ext|intros pass_context].
      apply only_with; [intros meth Hm; by apply handed_over_method|].
      by apply only_ext. }
    eapply wp_mono; [|exact Hrest]. cbn beta.
    intros res ev Hev. constructor; [exact I|].
    eapply Forall_impl; [exact Hev|]. intros c. apply handed_over_mono.
    intros ctx Hctx. exists [mod_; target; params], extracted, items.
    split; [apply list_elem_of_here|done].
  - match goal with
    | |- wp ?p _ => assert (Hrest : only parse_call p)
    end.
    { apply only_bind; [apply only_Parse_target|intros tgt].
      apply only_bind; [apply only_Parse_database|intros database].
      cbn [lift bind]. apply only_Raise. }
    eapply wp_mono; [|exact Hrest]. cbn beta.
    intros res ev Hev. constructor; [exact I|]. by apply Hparse.
Qed.

(** C9. [Parse._mod] accepts only one-entry modules, and both entry points
    build their contexts from what it returns.  A module with more than one
    global function makes the unpacking [(func_name,) = func_names] raise,
    and every module that [Parse._mod] returns has exactly one entry.  Given
    such a module, [tune_tir] raises after its first log line, before any
    collaborator is asked for anything.  In every run of [tune_tir] the
    context handed to a scheduler factory, or held by the default scheduler
    when it is run, holds the module that [Parse._mod] returned for the
    program given, with one entry.  In every run of [tune_relay] each such
    context holds the one-entry module that [Parse._mod] returned for the
    dispatched candidate of an extracted task, and an extracted task whose
    candidate is a module with more than one global function makes
    [tune_relay] raise without the scheduler being run. *)
Theorem Parse_mod_single_entry_only :
  (forall m : IRModule,
     (1 < size m)%nat ->
     Parse._mod (VIRModule m)
     = Err (ValueError [FLit "too many values to unpack (expected 1)"]))
  /\ (forall (v : Value) (m' : IRModule), Parse._mod v = Ok m' -> size m' = 1%nat)
  /\ (forall (h : Handler) (m : IRModule) (target config : Value) (work_dir : string)
             (kw : Kwargs) (res : Res Value) (tr : list Event),
        (1 < size m)%nat ->
        run h (tune_tir (VIRModule m) target config work_dir kw) [] = (res, tr) ->
        exists r,
          tr = [(EFunc "logger.info" [VStr "Working directory: %s"; VStr work_dir], r)]
          /\ exists e, res = Err e)
  /\ (forall (h : Handler) (mod_ target config : Value) (work_dir : string)
             (kw : Kwargs) (res : Res Value) (tr : list Event),
        run h (tune_tir mod_ target config work_dir kw) [] = (res, tr) ->
        Forall (fun e : Event =>
                  handed_over (normalised_from mod_) (is_None (kw_task_scheduler kw)) e.1)
               tr)
  /\ (forall structural_hash structural_equal (h : Handler) (mod_ target config : Value)
             (work_dir : string) (params : Value) (kw : Kwargs) (res : Res Value)
             (tr : list Event),
        run h (tune_relay structural_hash structural_equal mod_ target config work_dir
                 params kw) [] = (res, tr) ->
        Forall (fun e : Event =>
                  handed_over (normalised_extracted tr) (is_None (kw_task_scheduler kw)) e.1)
               tr
        /\ forall (args items : list Value) (extracted task : Value) (m : IRModule),
             (EFunc "extract_task_from_relay" args, Ok extracted) ∈ tr ->
             iter extracted = Ok items -> task ∈ items ->
             task_candidate task (VIRModule m) -> (1 < size m)%nat ->
             (exists e, res = Err e) /\ calls_method "tune" tr = false).
Proof.
  split; [exact Parse_mod_too_many|]. split; [exact Parse_mod_Ok_size|].
  split; [|split].
  - intros h m target config work_dir kw res tr Hsz Hrun.
    exact (tune_tir_rejected_module _ _ _ _ _ _ _ _ _ (Parse_mod_too_many m Hsz) Hrun).
  - intros h mod_ target config work_dir kw res tr Hrun.
    exact (run_only _ _ _ _ _ (tune_tir_hands_over _ _ _ _ _) Hrun).
  - intros sh se h mod_ target config work_dir params kw res tr Hrun. split.
    + destruct (wp_run _ _ h []
                  (tune_relay_hands_over sh se mod_ target config work_dir params kw))
        as (ev & Htr & HQ).
      rewrite Hrun in Htr. cbn in Htr. cbn beta in HQ. by subst ev.
    + intros args items extracted task m Hin Hitems Htask (d & Hd & Hd0) Hsz.
      destruct (tune_relay_cases _ _ _ _ _ _ _ _ _ _ _ Hrun)
        as (pre & tail & -> & Hpre & Htail).
      destruct Htail
        as [[-> He]|(extracted' & items' & tgt & Huniq & Hitems' & Hacc & Hpost)].
      { split; [done|]. rewrite app_nil_r. by apply calls_method_relay_pre. }
      exfalso. apply elem_of_app in Hin as [Hin|Hin].
      * rewrite (Huniq _ _ Hin) in Hitems. rewrite Hitems in Hitems'.
        inversion Hitems'; subst items'.
        rewrite Forall_forall in Hacc.
        destruct (Hacc task Htask) as (_ & v & m' & (d' & Hd' & Hv) & Hm').
        rewrite Hd in Hd'. inversion Hd'; subst d'.
        rewrite Hd0 in Hv. inversion Hv; subst v.
        rewrite (Parse_mod_too_many m Hsz) in Hm'. discriminate Hm'.
      * destruct Hpost as (Hcalls & _). rewrite Forall_forall in Hcalls.
        specialize (Hcalls _ Hin). simpl in Hcalls. by destruct Hcalls.
Qed.

Lemma Parse_mod_single_entry_only_witness :
  Parse._mod (VIRModule two_entry_module)
  = Err (ValueError [FLit "too many values to unpack (expected 1)"])
  /\ (exists e, two_entry_run.1 = Err e)
  /\ calls_method "tune" two_entry_run.2 = false.
Proof.
  destruct Parse_mod_single_entry_only as (Hmod & _ & _ & _ & Hrelay).
  assert (Hsz : (1 < size two_entry_module)%nat) by (vm_compute; lia).
  split; [exact (Hmod two_entry_module Hsz)|].
  apply (proj2 (Hrelay body_hash body_equal two_entry_handler
                  (obj "Function" "RelayExpr" []) (VTarget llvm_target) replay_config
                  "/tmp/work" VNone default_kwargs two_entry_run.1 two_entry_run.2
                  ltac:(unfold two_entry_run; by destruct (run _ _ _)))
           [obj "Function" "RelayExpr" []; VTarget llvm_target; VNone]
           [extracted_task "fused_dense" 1;
            obj "ExtractedTask" "Object"
                [("task_name", VStr "fused_add_multiply");
                 ("dispatched", VList [VIRModule two_entry_module])]]
           (VList [extracted_task "fused_dense" 1;
                   obj "ExtractedTask" "Object"
                       [("task_name", VStr "fused_add_multiply");
                        ("dispatched", VList [VIRModule two_entry_module])]])
           (obj "ExtractedTask" "Object"
                [("task_name", VStr "fused_add_multiply");
                 ("dispatched", VList [VIRModule two_entry_module])])
           two_entry_module).
  - vm_compute. repeat first [apply list_elem_of_here | apply list_elem_of_further].
  - reflexivity.
  - apply list_elem_of_further, list_elem_of_here.
  - eexists. split; reflexivity.
  - exact Hsz.
Defined.

(** That run builds the context of the first task and then raises on the
    second; no scheduler is run. *)
Lemma two_entry_run_raises :
  two_entry_run.1 = Err (ValueError [FLit "too many values to unpack (expected 1)"])
  /\ calls_method "create_strategy" two_entry_run.2 = true
  /\ scheduled two_entry_run.2 = [].
Proof. vm_compute. repeat split. Qed.
